(** * EC2 Image Builder pipeline orchestrator: a shallow embedding

    The program under verification is [imagebuilder.py]: the class
    [CreateImagePipeline] whose method [run] walks a parsed YAML pipeline
    definition and provisions components, an image recipe, an instance
    profile, an infrastructure configuration, a distribution configuration
    and a pipeline through the AWS APIs.

    The embedding keeps the shape of the Python code:
    - parsed YAML / JSON data is the inductive type [yaml]; Python mappings
      are association lists in insertion order (the code iterates over the
      keys of a component mapping, so order matters);
    - the dynamically typed operations the code applies to that data
      ([x[k]], [x.get(k)], iteration, [str(x)], [x + '/1']) are total
      functions into [exn + _] that raise where Python raises;
    - every boto3 call is a constructor of [api R], [R] being the part of
      the response the code reads; the remote side is an arbitrary
      deterministic oracle [World], asked with the history of calls so far;
    - methods are computations in a state-and-exception monad [M]; the state
      is the trace of remote calls made so far (each tagged with the method
      that issued it) and the loaded pipeline definition, which is a shared
      mutable object: [create_infrastructure_config] receives a reference
      into it and writes through that reference.

    Not modelled: logger output (it has no influence on control flow, but
    the one logging argument that can raise is kept), argument parsing,
    credentials, YAML floats and timestamps, mapping keys that are not
    strings, and YAML anchors (two keys of the definition never alias the
    same object). *)

From Stdlib Require Import List String Ascii ZArith Bool Arith Lia.
From Stdlib Require Import DecimalString Sorted.
Import ListNotations.
Open Scope string_scope.

Set Implicit Arguments.
Set Warnings "-register-all".

(* ------------------------------------------------------------------ *)
(** ** Data: parsed YAML documents *)

Inductive yaml : Type :=
| YNull
| YBool (b : bool)
| YInt (z : Z)
| YStr (s : string)
| YList (l : list yaml)
| YDict (d : list (string * yaml)).

Definition dict := list (string * yaml).

(** Exceptions the code can meet.  The three named client exceptions are
    the ones the code catches; [ClientError] stands for every other error
    of a remote call. *)
Inductive exn : Type :=
| KeyError (k : yaml)
| TypeError
| AttributeError
| IndexError
| IOError
| ResourceNotFoundException
| InvalidParameterValueException
| LimitExceededException
| ClientError (code : string).

Definition result (A : Type) : Type := (exn + A)%type.

(** *** Mappings *)

Fixpoint dict_lookup (k : string) (d : dict) : option yaml :=
  match d with
  | [] => None
  | (k', v) :: d' => if String.eqb k k' then Some v else dict_lookup k d'
  end.

(** [d[k] = v]: replaces the value in place when the key is present and
    appends the pair otherwise. *)
Fixpoint dict_set (k : string) (v : yaml) (d : dict) : dict :=
  match d with
  | [] => [(k, v)]
  | (k', v') :: d' =>
      if String.eqb k k' then (k', v) :: d' else (k', v') :: dict_set k v d'
  end.

(** *** Strings *)

Definition string_of_nat (n : nat) : string :=
  NilEmpty.string_of_uint (Nat.to_uint n).

Definition string_of_Z (z : Z) : string :=
  NilZero.string_of_int (Z.to_int z).

(** Python's [needle in hay] on strings. *)
Fixpoint str_in (needle hay : string) : bool :=
  String.prefix needle hay
  || match hay with
     | EmptyString => false
     | String _ hay' => str_in needle hay'
     end.

(** Python's [s.split(c)] for a one-character separator. *)
Fixpoint split (c : ascii) (s : string) : list string :=
  match s with
  | EmptyString => [EmptyString]
  | String a s' =>
      if Ascii.eqb a c then EmptyString :: split c s'
      else match split c s' with
           | h :: t => String a h :: t
           | [] => [String a EmptyString]
           end
  end.

Fixpoint chars (s : string) : list yaml :=
  match s with
  | EmptyString => []
  | String a s' => YStr (String a EmptyString) :: chars s'
  end.

(** *** Python's operations on parsed data *)

(** [l[i]] on a sequence, with Python's negative indices. *)
Definition py_index {A : Type} (l : list A) (i : Z) : result A :=
  let n := Z.of_nat (List.length l) in
  let j := if (i <? 0)%Z then (i + n)%Z else i in
  if (j <? 0)%Z then inl IndexError
  else match nth_error l (Z.to_nat j) with
       | Some x => inr x
       | None => inl IndexError
       end.

(** [v[k]]. *)
Definition py_getitem (v k : yaml) : result yaml :=
  match v with
  | YDict d =>
      match k with
      | YStr s => match dict_lookup s d with
                  | Some x => inr x
                  | None => inl (KeyError k)
                  end
      | YList _ | YDict _ => inl TypeError
      | _ => inl (KeyError k)
      end
  | YList l =>
      match k with
      | YInt i => py_index l i
      | YBool b => py_index l (if b then 1%Z else 0%Z)
      | _ => inl TypeError
      end
  | YStr s =>
      match k with
      | YInt i => py_index (chars s) i
      | YBool b => py_index (chars s) (if b then 1%Z else 0%Z)
      | _ => inl TypeError
      end
  | _ => inl TypeError
  end.

(** [v.get(k)]: only mappings have the method. *)
Definition py_get (v : yaml) (k : string) : result yaml :=
  match v with
  | YDict d => match dict_lookup k d with
               | Some x => inr x
               | None => inr YNull
               end
  | _ => inl AttributeError
  end.

(** [for x in v]. *)
Definition py_iter (v : yaml) : result (list yaml) :=
  match v with
  | YList l => inr l
  | YDict d => inr (map (fun kv => YStr (fst kv)) d)
  | YStr s => inr (chars s)
  | _ => inl TypeError
  end.

(** [v + suffix] for a string literal [suffix]. *)
Definition py_add_str (v : yaml) (suffix : string) : result yaml :=
  match v with
  | YStr s => inr (YStr (s ++ suffix))
  | _ => inl TypeError
  end.

(** [**v]: keyword arguments from a mapping. *)
Definition py_kwargs (v : yaml) : result dict :=
  match v with
  | YDict d => inr d
  | _ => inl TypeError
  end.

(** [is not None]. *)
Definition is_not_None (v : yaml) : bool :=
  match v with
  | YNull => false
  | _ => true
  end.

(** Serialised documents are kept symbolic: the text [json.dumps(v)] or
    [yaml.safe_dump(v)] is identified by the value it was made from. *)
Inductive json_text : Type := json_dumps (v : yaml).
Inductive yaml_text : Type := yaml_safe_dump (v : yaml).

(* ------------------------------------------------------------------ *)
(** ** Remote calls *)

Record caller_identity : Type :=
  { Account : string; Arn : string }.

Record session_details : Type :=
  { caller_id : caller_identity; account_alias : list string }.

Record policy_version : Type :=
  { VersionId : string; IsDefaultVersion : bool; CreateDate : Z }.

(** How the body of a component is handed to [create_component]. *)
Inductive component_source : Type :=
| data (body : yaml_text)
| uri (location : string).

(** One constructor per boto3 call the code makes; the index is the part of
    the response the code reads ([unit] where it reads nothing, the list of
    [arn]s or names for a listing, the new identifier for a creation). *)
Inductive api : Type -> Type :=
| sts_get_caller_identity : api caller_identity
| iam_list_account_aliases : api (list string)
| iam_list_instance_profiles (PathPrefix : string) : api (list string)
| iam_create_policy_version
    (PolicyArn : string) (PolicyDocument : json_text) (SetAsDefault : bool) :
    api unit
| iam_list_policy_versions (PolicyArn : string) : api (list policy_version)
| iam_delete_policy_version (PolicyArn VersionId : string) : api unit
| iam_create_instance_profile (InstanceProfileName Path : string) : api unit
| iam_create_role
    (Path RoleName : string) (AssumeRolePolicyDocument : json_text)
    (Description : string) : api unit
| iam_create_policy
    (PolicyName Path : string) (PolicyDocument : json_text) : api string
| iam_attach_role_policy (RoleName PolicyArn : string) : api unit
| iam_add_role_to_instance_profile
    (InstanceProfileName RoleName : string) : api unit
| ib_get_component (componentBuildVersionArn : yaml) : api unit
| ib_list_components (owner : string) (name : yaml) : api (list string)
| ib_create_component
    (name : yaml) (semanticVersion : string) (description platform : yaml)
    (source : component_source) : api string
| s3_put_object (Bucket Key : string) (Body : yaml_text) : api unit
| ib_list_image_recipes (owner : string) (name : yaml) : api (list string)
| ib_create_image_recipe (kwargs : dict) : api string
| ib_list_infrastructure_configurations (name : yaml) : api (list string)
| ib_create_infrastructure_configuration (kwargs : dict) : api string
| ib_delete_infrastructure_configuration (arn : string) : api unit
| ib_list_distribution_configurations (name : yaml) : api (list string)
| ib_create_distribution_configuration (kwargs : dict) : api string
| ib_delete_distribution_configuration (arn : string) : api unit
| ib_list_image_pipelines (name : yaml) : api (list string)
| ib_delete_image_pipeline (arn : string) : api unit
| ib_create_image_pipeline
    (name description : yaml)
    (imageRecipeArn infrastructureConfigurationArn
       distributionConfigurationArn : string) : api string
| ib_start_image_pipeline_execution (imagePipelineArn : string) : api string.

(** The methods of [CreateImagePipeline] that talk to a remote service. *)
Inductive method : Type :=
| in_get_session_details
| in_delete_pipeline_resources
| in_create_components
| in_create_image_recipe
| in_create_instance_profile
| in_create_infrastructure_config
| in_create_distribution_configuration
| in_create_image_pipeline
| in_start_image_pipeline.

(** A remote call, as it appears in the trace of a run. *)
Inductive event : Type :=
| Call (origin : method) (R : Type) (c : api R).

Arguments Call origin {R} c.

Definition origin_of (e : event) : method :=
  match e with
  | Call m _ => m
  end.

(** Everything outside the program.  [respond] answers a call given the
    calls made before it; [read_policy] is [open] followed by [json.load] on
    the policy file; [now_time] is [datetime.now().time()]; [repr] is
    Python's text for a sequence or mapping. *)
Record World : Type :=
  { respond : forall R : Type, list event -> api R -> result R;
    read_policy : yaml -> result yaml;
    now_time : list event -> string;
    repr : yaml -> string }.

(** [str(v)], as used by [format] and f-strings. *)
Definition py_str (w : World) (v : yaml) : string :=
  match v with
  | YStr s => s
  | YInt z => string_of_Z z
  | YBool true => "True"
  | YBool false => "False"
  | YNull => "None"
  | _ => repr w v
  end.

(* ------------------------------------------------------------------ *)
(** ** The monad of methods *)

(** A reference to a mapping inside the loaded definition: the keys that
    lead to it from the root. *)
Definition ref := list string.

Fixpoint yaml_at (v : yaml) (r : ref) : option yaml :=
  match r with
  | [] => Some v
  | k :: r' =>
      match v with
      | YDict d => match dict_lookup k d with
                   | Some v' => yaml_at v' r'
                   | None => None
                   end
      | _ => None
      end
  end.

(** The document after [f] is applied to the object at [r]. *)
Fixpoint yaml_update_at (v : yaml) (r : ref) (f : yaml -> yaml) : yaml :=
  match r with
  | [] => f v
  | k :: r' =>
      match v with
      | YDict d => match dict_lookup k d with
                   | Some v' => YDict (dict_set k (yaml_update_at v' r' f) d)
                   | None => v
                   end
      | _ => v
      end
  end.

Definition setitem (k : string) (x : yaml) (v : yaml) : yaml :=
  match v with
  | YDict d => YDict (dict_set k x d)
  | _ => v
  end.

Record state : Type :=
  { trace : list event; pipeline_dict : yaml }.

Definition M (A : Type) : Type := World -> state -> result A * state.

Definition ret {A : Type} (a : A) : M A := fun _ s => (inr a, s).

Definition raise {A : Type} (e : exn) : M A := fun _ s => (inl e, s).

Definition bind {A B : Type} (m : M A) (f : A -> M B) : M B :=
  fun w s =>
    match m w s with
    | (inl e, s') => (inl e, s')
    | (inr a, s') => f a w s'
    end.

Declare Scope m_scope.
Delimit Scope m_scope with m.
Notation "x <- m ;; k" := (bind m (fun x => k))
  (at level 61, m at next level, right associativity) : m_scope.
Notation "m ;; k" := (bind m (fun _ => k))
  (at level 61, right associativity) : m_scope.
Open Scope m_scope.

(** A pure Python expression that may raise. *)
Definition lift {A : Type} (r : result A) : M A :=
  match r with
  | inl e => raise e
  | inr a => ret a
  end.

(** A boto3 call issued from method [m]: the call is recorded, then the
    remote side answers or raises. *)
Definition remote {R : Type} (m : method) (c : api R) : M R :=
  fun w s =>
    (respond w (trace s) c,
     {| trace := (trace s ++ [Call m c])%list; pipeline_dict := pipeline_dict s |}).

(** [try: body except ...: handler].  [handler e] is [None] when no
    [except] clause matches [e]. *)
Definition try_except {A : Type} (body : M A) (handler : exn -> option (M A))
  : M A :=
  fun w s =>
    match body w s with
    | (inl e, s') =>
        match handler e with
        | Some h => h w s'
        | None => (inl e, s')
        end
    | (inr a, s') => (inr a, s')
    end.

Definition ask : M World := fun w s => (inr w, s).

Definition now : M string := fun w s => (inr (now_time w (trace s)), s).

Definition open_json (path : yaml) : M yaml :=
  fun w s => (read_policy w path, s).

(** [pipeline_dict[k]] on the loaded definition. *)
Definition pipeline_item (k : string) : M yaml :=
  fun _ s => (py_getitem (pipeline_dict s) (YStr k), s).

(** [d[k]] through a reference [d]. *)
Definition ref_item (d : ref) (k : string) : M yaml :=
  fun _ s =>
    match yaml_at (pipeline_dict s) d with
    | Some v => (py_getitem v (YStr k), s)
    | None => (inl TypeError, s)
    end.

(** [d[k] = x] through a reference [d]. *)
Definition ref_setitem (d : ref) (k : string) (x : yaml) : M unit :=
  fun _ s =>
    match yaml_at (pipeline_dict s) d with
    | Some (YDict _) =>
        (inr tt,
         {| trace := trace s;
            pipeline_dict := yaml_update_at (pipeline_dict s) d (setitem k x) |})
    | _ => (inl TypeError, s)
    end.

(** [**d] through a reference [d]. *)
Definition ref_kwargs (d : ref) : M dict :=
  fun _ s =>
    match yaml_at (pipeline_dict s) d with
    | Some v => (py_kwargs v, s)
    | None => (inl TypeError, s)
    end.

(* ------------------------------------------------------------------ *)
(** ** The class [CreateImagePipeline] *)

(** The fields of [self] the methods read (set from the command line). *)
Record CreateImagePipeline : Type :=
  { component_bucket : option string;
    start_pipeline : bool;
    update : bool }.

Definition get_session_details : M session_details :=
  caller <- remote in_get_session_details sts_get_caller_identity ;;
  aliases <- remote in_get_session_details iam_list_account_aliases ;;
  ret {| caller_id := caller; account_alias := aliases |}.

(** The trust policy of the role, the argument of [json.dumps] at
    [create_role]. *)
Definition assume_role_policy : yaml :=
  YDict
    [("Version", YStr "2012-10-17");
     ("Statement",
      YList
        [YDict
           [("Effect", YStr "Allow");
            ("Principal", YDict [("Service", YStr "ec2.amazonaws.com")]);
            ("Action", YStr "sts:AssumeRole")]])].

Definition policy_arn_of (account_id resource_name : string) : string :=
  "arn:aws:iam::" ++ account_id ++ ":policy/imagebuilder/" ++ resource_name.

Definition create_instance_profile
  (self : CreateImagePipeline) (profile_dict : yaml) (account_id : string)
  : M string :=
  let here := in_create_instance_profile in
  w <- ask ;;
  name <- lift (py_getitem profile_dict (YStr "name")) ;;
  let resource_name := "imagebuilder-" ++ py_str w name in
  file <- lift (py_getitem profile_dict (YStr "file")) ;;
  policy_dict <- open_json file ;;
  profiles <- remote here (iam_list_instance_profiles "/imagebuilder/") ;;
  if (0 <? List.length (filter (str_in "ec2-image-builder-default") profiles))%nat
  then
    if update self then
      try_except
        (remote here
           (iam_create_policy_version
              (policy_arn_of account_id resource_name)
              (json_dumps policy_dict) true))
        (fun e =>
           match e with
           | LimitExceededException =>
               Some
                 (response <- remote here
                    (iam_list_policy_versions
                       (policy_arn_of account_id resource_name)) ;;
                  last_listed <- lift (py_index response (-1)) ;;
                  remote here
                    (iam_delete_policy_version
                       (policy_arn_of account_id resource_name)
                       (VersionId last_listed)) ;;
                  remote here
                    (iam_create_policy_version
                       (policy_arn_of account_id resource_name)
                       (json_dumps policy_dict) true))
           | _ => None
           end) ;;
      ret resource_name
    else ret resource_name
  else
    remote here (iam_create_instance_profile resource_name "/imagebuilder/") ;;
    remote here
      (iam_create_role "/imagebuilder/" resource_name
         (json_dumps assume_role_policy) "Role for Image Builder") ;;
    policy_arn <- remote here
      (iam_create_policy resource_name "/imagebuilder/"
         (json_dumps policy_dict)) ;;
    remote here (iam_attach_role_policy resource_name policy_arn) ;;
    remote here (iam_add_role_to_instance_profile resource_name resource_name) ;;
    ret resource_name.

Definition componentArn (v : yaml) : yaml := YDict [("componentArn", v)].

Definition semantic_version (existing : nat) : string :=
  "0.0." ++ string_of_nat (1 + existing).

(** The body of the [for component in component_def] loop; the result is
    [component_list] after the iteration. *)
Definition create_component
  (self : CreateImagePipeline) (platform component : yaml)
  (component_list : list yaml) : M (list yaml) :=
  let here := in_create_components in
  w <- ask ;;
  keys <- lift (py_iter component) ;;
  let component_name := last keys (YStr "") in
  entry <- lift (py_getitem component component_name) ;;
  arn <- lift (py_get entry "arn") ;;
  if is_not_None arn then
    try_except
      (remote here (ib_get_component arn) ;;
       ret (component_list ++ [componentArn arn])%list)
      (fun e =>
         match e with
         | ResourceNotFoundException => Some (ret component_list)
         | InvalidParameterValueException =>
             Some
               (arn1 <- lift (py_add_str arn "/1") ;;
                remote here (ib_get_component arn1) ;;
                ret (component_list ++ [componentArn arn1])%list)
         | _ => None
         end)
  else
    response <- remote here (ib_list_components "Self" component_name) ;;
    let version := semantic_version (List.length response) in
    match component_bucket self with
    | None =>
        description <- lift (py_getitem entry (YStr "description")) ;;
        response <- remote here
          (ib_create_component component_name version description platform
             (data (yaml_safe_dump entry))) ;;
        ret (component_list ++ [componentArn (YStr response)])%list
    | Some bucket =>
        time <- now ;;
        let key_name :=
          "imagebuilder/" ++ py_str w component_name ++ "_" ++ time ++ ".yaml" in
        remote here (s3_put_object bucket key_name (yaml_safe_dump entry)) ;;
        description <- lift (py_getitem entry (YStr "description")) ;;
        response <- remote here
          (ib_create_component component_name version description platform
             (uri ("s3://" ++ bucket ++ "/" ++ key_name))) ;;
        ret (component_list ++ [componentArn (YStr response)])%list
    end.

Fixpoint create_components_loop
  (self : CreateImagePipeline) (platform : yaml) (components : list yaml)
  (component_list : list yaml) : M (list yaml) :=
  match components with
  | [] => ret component_list
  | component :: rest =>
      component_list' <- create_component self platform component component_list ;;
      create_components_loop self platform rest component_list'
  end.

Definition create_components
  (self : CreateImagePipeline) (platform component_def : yaml)
  : M (list yaml) :=
  components <- lift (py_iter component_def) ;;
  create_components_loop self platform components [].

Definition create_image_recipe (component_arns : list yaml) (recipe_def : yaml)
  : M string :=
  let here := in_create_image_recipe in
  name <- lift (py_getitem recipe_def (YStr "name")) ;;
  response <- remote here (ib_list_image_recipes "Self" name) ;;
  let version := semantic_version (List.length response) in
  description <- lift (py_getitem recipe_def (YStr "description")) ;;
  parentImage <- lift (py_getitem recipe_def (YStr "parentImage")) ;;
  let recipe_dict :=
    [("name", name);
     ("description", description);
     ("components", YList component_arns);
     ("semanticVersion", YStr version);
     ("parentImage", parentImage)] in
  blockDeviceMappings <- lift (py_get recipe_def "blockDeviceMappings") ;;
  let recipe_dict :=
    if is_not_None blockDeviceMappings
    then dict_set "blockDeviceMappings" blockDeviceMappings recipe_dict
    else recipe_dict in
  tags <- lift (py_get recipe_def "tags") ;;
  let recipe_dict :=
    if is_not_None tags then dict_set "tags" tags recipe_dict
    else recipe_dict in
  remote here (ib_create_image_recipe recipe_dict).

(** [infrastructure_def] is a reference: the method writes to the mapping
    the caller passed, which is part of the loaded definition. *)
Definition create_infrastructure_config
  (instance_profile : yaml) (infrastructure_def : ref) : M string :=
  let here := in_create_infrastructure_config in
  name <- ref_item infrastructure_def "name" ;;
  response <- remote here (ib_list_infrastructure_configurations name) ;;
  match response with
  | existing :: _ => ret existing
  | [] =>
      ref_setitem infrastructure_def "instanceProfileName" instance_profile ;;
      kwargs <- ref_kwargs infrastructure_def ;;
      remote here (ib_create_infrastructure_configuration kwargs)
  end.

Definition create_distribution_configuration (distribution_def : yaml)
  : M string :=
  let here := in_create_distribution_configuration in
  name <- lift (py_getitem distribution_def (YStr "name")) ;;
  response <- remote here (ib_list_distribution_configurations name) ;;
  match response with
  | existing :: _ => ret existing
  | [] =>
      kwargs <- lift (py_kwargs distribution_def) ;;
      remote here (ib_create_distribution_configuration kwargs)
  end.

Definition create_image_pipeline
  (pipeline_name : yaml)
  (image_recipe_arn infrastructure_arn distribution_arn : string) : M string :=
  let here := in_create_image_pipeline in
  response <- remote here (ib_list_image_pipelines pipeline_name) ;;
  match response with
  | existing :: _ => remote here (ib_delete_image_pipeline existing)
  | [] => ret tt
  end ;;
  remote here
    (ib_create_image_pipeline pipeline_name pipeline_name image_recipe_arn
       infrastructure_arn distribution_arn).

Definition start_image_pipeline (pipeline_arn : string) : M string :=
  remote in_start_image_pipeline
    (ib_start_image_pipeline_execution pipeline_arn).

Definition delete_pipeline_resources (self : CreateImagePipeline) : M unit :=
  let here := in_delete_pipeline_resources in
  name <- pipeline_item "pipeline-name" ;;
  response <- remote here (ib_list_image_pipelines name) ;;
  match response with
  | existing :: _ => remote here (ib_delete_image_pipeline existing)
  | [] => ret tt
  end ;;
  infrastructure_def <- pipeline_item "infrastructure-configuration" ;;
  name <- lift (py_getitem infrastructure_def (YStr "name")) ;;
  response <- remote here (ib_list_infrastructure_configurations name) ;;
  match response with
  | existing :: _ =>
      if update self
      then remote here (ib_delete_infrastructure_configuration existing)
      else ret tt
  | [] => ret tt
  end ;;
  distribution_def <- pipeline_item "distribution-configuration" ;;
  name <- lift (py_getitem distribution_def (YStr "name")) ;;
  response <- remote here (ib_list_distribution_configurations name) ;;
  match response with
  | existing :: _ =>
      if update self
      then remote here (ib_delete_distribution_configuration existing)
      else ret tt
  | [] => ret tt
  end.

(** The instance-profile step of [run]: provision a profile when the
    definition names a policy file, otherwise hand the configured name on. *)
Definition instance_profile_step
  (self : CreateImagePipeline) (account_id : string) : M yaml :=
  profile_dict <- pipeline_item "instance-profile" ;;
  file <- lift (py_get profile_dict "file") ;;
  if is_not_None file then
    profile_dict <- pipeline_item "instance-profile" ;;
    resource_name <- create_instance_profile self profile_dict account_id ;;
    ret (YStr resource_name)
  else
    profile_dict <- pipeline_item "instance-profile" ;;
    lift (py_get profile_dict "name").

(** The body of [run] from [Creating Components] on. *)
Definition provision (self : CreateImagePipeline) (account_id : string)
  : M unit :=
  platform <- pipeline_item "platform" ;;
  component_def <- pipeline_item "components" ;;
  component_list <- create_components self platform component_def ;;
  recipe_def <- pipeline_item "image-recipe" ;;
  recipe_arn <- create_image_recipe component_list recipe_def ;;
  instance_profile_name <- instance_profile_step self account_id ;;
  pipeline_item "infrastructure-configuration" ;;
  infrastructure_arn <-
    create_infrastructure_config instance_profile_name
      ["infrastructure-configuration"] ;;
  distribution_def <- pipeline_item "distribution-configuration" ;;
  distribution_arn <- create_distribution_configuration distribution_def ;;
  pipeline_name <- pipeline_item "pipeline-name" ;;
  pipeline_arn <-
    create_image_pipeline pipeline_name recipe_arn infrastructure_arn
      distribution_arn ;;
  if start_pipeline self then
    start_image_pipeline pipeline_arn ;;
    ret tt
  else ret tt.

(** [run].  The definition file is opened and parsed after the session
    lookup and nothing reads it before; the model starts from the parsed
    definition, in the state component [pipeline_dict]. *)
Definition run (self : CreateImagePipeline) : M unit :=
  session <- get_session_details ;;
  (* the arguments of the account banner are evaluated before logging *)
  lift (py_index (split "/" (Arn (caller_id session))) 1) ;;
  (if update self then delete_pipeline_resources self else ret tt) ;;
  provision self (Account (caller_id session)).

(** Running a method on a freshly loaded definition. *)
Definition initial (definition : yaml) : state :=
  {| trace := []; pipeline_dict := definition |}.

Definition outcome {A : Type} (m : M A) (w : World) (definition : yaml)
  : result A :=
  fst (m w (initial definition)).

Definition calls {A : Type} (m : M A) (w : World) (definition : yaml)
  : list event :=
  trace (snd (m w (initial definition))).

Definition definition_after {A : Type} (m : M A) (w : World) (definition : yaml)
  : yaml :=
  pipeline_dict (snd (m w (initial definition))).

(* ------------------------------------------------------------------ *)
(** ** Which method issues which call *)

Definition method_eqb (a b : method) : bool :=
  match a, b with
  | in_get_session_details, in_get_session_details
  | in_delete_pipeline_resources, in_delete_pipeline_resources
  | in_create_components, in_create_components
  | in_create_image_recipe, in_create_image_recipe
  | in_create_instance_profile, in_create_instance_profile
  | in_create_infrastructure_config, in_create_infrastructure_config
  | in_create_distribution_configuration, in_create_distribution_configuration
  | in_create_image_pipeline, in_create_image_pipeline
  | in_start_image_pipeline, in_start_image_pipeline => true
  | _, _ => false
  end.

(** The methods in whose body a call to [c] occurs. *)
Definition issuers {R : Type} (c : api R) : list method :=
  match c with
  | sts_get_caller_identity | iam_list_account_aliases =>
      [in_get_session_details]
  | iam_list_instance_profiles _ | iam_create_policy_version _ _ _
  | iam_list_policy_versions _ | iam_delete_policy_version _ _
  | iam_create_instance_profile _ _ | iam_create_role _ _ _ _
  | iam_create_policy _ _ _ | iam_attach_role_policy _ _
  | iam_add_role_to_instance_profile _ _ =>
      [in_create_instance_profile]
  | ib_get_component _ | ib_list_components _ _
  | ib_create_component _ _ _ _ _ | s3_put_object _ _ _ =>
      [in_create_components]
  | ib_list_image_recipes _ _ | ib_create_image_recipe _ =>
      [in_create_image_recipe]
  | ib_list_infrastructure_configurations _ =>
      [in_create_infrastructure_config; in_delete_pipeline_resources]
  | ib_create_infrastructure_configuration _ =>
      [in_create_infrastructure_config]
  | ib_delete_infrastructure_configuration _ =>
      [in_delete_pipeline_resources]
  | ib_list_distribution_configurations _ =>
      [in_create_distribution_configuration; in_delete_pipeline_resources]
  | ib_create_distribution_configuration _ =>
      [in_create_distribution_configuration]
  | ib_delete_distribution_configuration _ =>
      [in_delete_pipeline_resources]
  | ib_list_image_pipelines _ | ib_delete_image_pipeline _ =>
      [in_create_image_pipeline; in_delete_pipeline_resources]
  | ib_create_image_pipeline _ _ _ _ _ =>
      [in_create_image_pipeline]
  | ib_start_image_pipeline_execution _ =>
      [in_start_image_pipeline]
  end.

(** [from m e]: the event [e] is a call that method [m] makes. *)
Definition from (m : method) (e : event) : Prop :=
  match e with
  | Call m' c => m' = m /\ existsb (method_eqb m') (issuers c) = true
  end.

(** The identity-service calls that manage the instance profile, its role
    and its policy. *)
Definition is_profile_call (e : event) : bool :=
  match e with
  | Call _ c =>
      match c with
      | iam_list_instance_profiles _ | iam_create_policy_version _ _ _
      | iam_list_policy_versions _ | iam_delete_policy_version _ _
      | iam_create_instance_profile _ _ | iam_create_role _ _ _ _
      | iam_create_policy _ _ _ | iam_attach_role_policy _ _
      | iam_add_role_to_instance_profile _ _ => true
      | _ => false
      end
  end.

(** The keyword arguments of a [create_infrastructure_configuration]
    call. *)
Definition infrastructure_kwargs (e : event) : option dict :=
  match e with
  | Call _ c =>
      match c with
      | ib_create_infrastructure_configuration kwargs => Some kwargs
      | _ => None
      end
  end.

(* ------------------------------------------------------------------ *)
(** ** Relating the state before and after a method *)

(** The state [s] after the calls [evs]. *)
Definition after (s : state) (evs : list event) : state :=
  {| trace := (trace s ++ evs)%list; pipeline_dict := pipeline_dict s |}.

(** [s'] is [s] after some more calls, all satisfying [P]. *)
Definition extends (P : event -> Prop) (s s' : state) : Prop :=
  exists evs, trace s' = (trace s ++ evs)%list /\ Forall P evs.

(** The same, and the loaded definition has not been written to. *)
Definition stage_step (P : event -> Prop) (s s' : state) : Prop :=
  extends P s s' /\ pipeline_dict s' = pipeline_dict s.

(** What [create_infrastructure_config] does to the state: it makes calls
    of its own only, every [create_infrastructure_configuration] among them
    carries the instance profile it was given, and the mapping behind the
    reference is either untouched or has received that profile under
    [instanceProfileName]. *)
Definition infrastructure_step
  (instance_profile : yaml) (infrastructure_def : ref) (s s' : state) : Prop :=
  exists evs,
    trace s' = (trace s ++ evs)%list
    /\ Forall (from in_create_infrastructure_config) evs
    /\ Forall (fun e => forall kwargs,
                   infrastructure_kwargs e = Some kwargs ->
                   dict_lookup "instanceProfileName" kwargs
                   = Some instance_profile) evs
    /\ (pipeline_dict s' = pipeline_dict s
        \/ pipeline_dict s'
           = yaml_update_at (pipeline_dict s) infrastructure_def
               (setitem "instanceProfileName" instance_profile)).

(** The loaded definition has not been written to. *)
Definition same_definition (s s' : state) : Prop :=
  pipeline_dict s' = pipeline_dict s.

(** The loaded definition is still [definition]. *)
Definition unwritten (definition : yaml) (s : state) : Prop :=
  pipeline_dict s = definition.

(** The loaded definition is [definition], up to an instance profile stored
    under [instanceProfileName] in its [infrastructure-configuration]. *)
Definition profile_written (definition : yaml) (s : state) : Prop :=
  pipeline_dict s = definition
  \/ exists instance_profile,
      pipeline_dict s
      = yaml_update_at definition ["infrastructure-configuration"]
          (setitem "instanceProfileName" instance_profile).

(** A call that does not touch the instance profile, its role or its
    policy, and that, when it creates an infrastructure configuration, names
    [name] as its instance profile. *)
Definition passes_name (name : yaml) (e : event) : Prop :=
  is_profile_call e = false
  /\ forall kwargs,
      infrastructure_kwargs e = Some kwargs ->
      dict_lookup "instanceProfileName" kwargs = Some name.

(** The top-level keys [run] reads from the definition. *)
Definition required_keys : list string :=
  ["platform"; "components"; "image-recipe"; "instance-profile";
   "infrastructure-configuration"; "distribution-configuration";
   "pipeline-name"].

(** The loaded definition is a mapping without the key [k]. *)
Definition lacks (k : string) (s : state) : Prop :=
  exists d, pipeline_dict s = YDict d /\ dict_lookup k d = None.

(** The first call made is the one for the identity of the caller. *)
Definition session_first (calls : list event) : Prop :=
  exists later,
    calls = Call in_get_session_details sts_get_caller_identity :: later.

(** Whatever the remote side answers, [m] takes [s] to an [R]-related
    state. *)
Definition respects {A : Type} (R : state -> state -> Prop) (m : M A) : Prop :=
  forall w s, R s (snd (m w s)).

(** Hoare triples over all environments. *)
Definition hoare {A : Type}
  (P : state -> Prop) (m : M A) (Q : result A -> state -> Prop) : Prop :=
  forall w s, P s -> Q (fst (m w s)) (snd (m w s)).

(* ------------------------------------------------------------------ *)
(** ** The order of the stages *)

(** The position of each method in the body of [run]. *)
Definition code_order (m : method) : nat :=
  match m with
  | in_get_session_details => 0
  | in_delete_pipeline_resources => 1
  | in_create_components => 2
  | in_create_image_recipe => 3
  | in_create_instance_profile => 4
  | in_create_infrastructure_config => 5
  | in_create_distribution_configuration => 6
  | in_create_image_pipeline => 7
  | in_start_image_pipeline => 8
  end.

(** The same with the instance profile placed before the image recipe, the
    order in which the design document numbers the stages. *)
Definition numbered_order (m : method) : nat :=
  match m with
  | in_get_session_details => 0
  | in_delete_pipeline_resources => 1
  | in_create_components => 2
  | in_create_instance_profile => 3
  | in_create_image_recipe => 4
  | in_create_infrastructure_config => 5
  | in_create_distribution_configuration => 6
  | in_create_image_pipeline => 7
  | in_start_image_pipeline => 8
  end.

(** Control only moves forward through the methods: no call is followed,
    however much later, by a call from a method of an earlier position. *)
Definition forward (order : method -> nat) (calls : list event) : Prop :=
  StronglySorted
    (fun a b => order (origin_of a) <= order (origin_of b)) calls.

(** [forward], as a test. *)
Fixpoint forwardb (order : method -> nat) (calls : list event) : bool :=
  match calls with
  | [] => true
  | a :: later =>
      forallb (fun b => order (origin_of a) <=? order (origin_of b))%nat later
      && forwardb order later
  end.

(** Method [m] has made a call. *)
Definition runs (m : method) (calls : list event) : Prop :=
  Exists (fun e => origin_of e = m) calls.

(** Whenever [f] returns, it has made a call from method [m]. *)
Definition calls_on_success {A : Type} (m : method) (f : M A) : Prop :=
  forall w s,
    match fst (f w s) with
    | inl _ => True
    | inr _ =>
        exists evs,
          trace (snd (f w s)) = (trace s ++ evs)%list /\ runs m evs
    end.

(** The definition configures a policy file for the instance profile. *)
Definition names_policy_file (definition : yaml) : Prop :=
  exists profile file,
    py_getitem definition (YStr "instance-profile") = inr profile
    /\ py_get profile "file" = inr file
    /\ is_not_None file = true.

(** What is known of the calls of a run after each of its stages. *)
Definition after_recipe (calls : list event) : Prop :=
  runs in_create_image_recipe calls.

Definition after_profile (definition : yaml) (calls : list event) : Prop :=
  after_recipe calls
  /\ (names_policy_file definition -> runs in_create_instance_profile calls).

Definition after_infrastructure (definition : yaml) (calls : list event)
  : Prop :=
  after_profile definition calls
  /\ runs in_create_infrastructure_config calls.

Definition after_distribution (definition : yaml) (calls : list event)
  : Prop :=
  after_infrastructure definition calls
  /\ runs in_create_distribution_configuration calls.

Definition after_pipeline (definition : yaml) (calls : list event) : Prop :=
  after_distribution definition calls
  /\ runs in_create_image_pipeline calls.

(** The stages that make a call in every run that completes: the image
    recipe, the instance profile when a policy file is configured, the two
    configurations and the pipeline.  (The component stage makes no call
    when the definition lists no component.) *)
Definition stages_ran (definition : yaml) (calls : list event) : Prop :=
  runs in_create_image_recipe calls
  /\ (names_policy_file definition -> runs in_create_instance_profile calls)
  /\ runs in_create_infrastructure_config calls
  /\ runs in_create_distribution_configuration calls
  /\ runs in_create_image_pipeline calls.

(** The calls so far are in order and none comes from beyond position
    [k]. *)
Definition ordered (k : nat) (s : state) : Prop :=
  forward code_order (trace s)
  /\ Forall (fun e => code_order (origin_of e) <= k) (trace s).

(* ------------------------------------------------------------------ *)
(** ** Policy versions *)


(** The test the provisioner applies to the listed instance profiles. *)
Definition default_profile_listed (profiles : list string) : bool :=
  (0 <? List.length (filter (str_in "ec2-image-builder-default") profiles))%nat.

(* ------------------------------------------------------------------ *)
(** ** Kinds of component definition *)

(** The loop of [create_components] names the component after the last key
    of its mapping and takes the entry under that key. *)
Definition names (component component_name entry : yaml) : Prop :=
  exists keys,
    py_iter component = inr keys
    /\ component_name = last keys (YStr "")
    /\ py_getitem component component_name = inr entry.

(** A component given by the identifier of an existing one. *)
Definition by_reference (component arn : yaml) : Prop :=
  exists component_name entry,
    names component component_name entry
    /\ py_get entry "arn" = inr arn
    /\ is_not_None arn = true.

(** A component given by its document. *)
Definition inline (component component_name entry : yaml) : Prop :=
  names component component_name entry /\ py_get entry "arn" = inr YNull.

(* ------------------------------------------------------------------ *)
(** ** Example environments and definitions *)

Module Example.

Definition alice : caller_identity :=
  {| Account := "123456789012";
     Arn := "arn:aws:iam::123456789012:user/alice" |}.

(** An account in which nothing exists yet and every call succeeds. *)
Definition fresh_respond (R : Type) (_ : list event) (c : api R) : result R :=
  match c in api R return result R with
  | sts_get_caller_identity => inr alice
  | iam_list_account_aliases => inr []
  | iam_list_instance_profiles _ => inr []
  | iam_create_policy_version _ _ _ => inr tt
  | iam_list_policy_versions _ => inr []
  | iam_delete_policy_version _ _ => inr tt
  | iam_create_instance_profile _ _ => inr tt
  | iam_create_role _ _ _ _ => inr tt
  | iam_create_policy name _ _ => inr ("policy/" ++ name)
  | iam_attach_role_policy _ _ => inr tt
  | iam_add_role_to_instance_profile _ _ => inr tt
  | ib_get_component _ => inr tt
  | ib_list_components _ _ => inr []
  | ib_create_component _ version _ _ _ => inr ("component/" ++ version)
  | s3_put_object _ _ _ => inr tt
  | ib_list_image_recipes _ _ => inr []
  | ib_create_image_recipe _ => inr "image-recipe/new"
  | ib_list_infrastructure_configurations _ => inr []
  | ib_create_infrastructure_configuration _ =>
      inr "infrastructure-configuration/new"
  | ib_delete_infrastructure_configuration _ => inr tt
  | ib_list_distribution_configurations _ => inr []
  | ib_create_distribution_configuration _ =>
      inr "distribution-configuration/new"
  | ib_delete_distribution_configuration _ => inr tt
  | ib_list_image_pipelines _ => inr []
  | ib_delete_image_pipeline _ => inr tt
  | ib_create_image_pipeline _ _ _ _ _ => inr "image-pipeline/new"
  | ib_start_image_pipeline_execution _ => inr "image/new"
  end.

Definition policy_document : yaml :=
  YDict [("Version", YStr "2012-10-17"); ("Statement", YList [])].

Definition fresh : World :=
  {| respond := fresh_respond;
     read_policy := fun _ => inr policy_document;
     now_time := fun _ => "10:15:00.000000";
     repr := fun _ => "" |}.

(** [fresh], except where [f] answers. *)
Definition override
  (f : forall R : Type, list event -> api R -> option (result R)) : World :=
  {| respond := fun R h c =>
                  match f R h c with
                  | Some r => r
                  | None => fresh_respond h c
                  end;
     read_policy := read_policy fresh;
     now_time := now_time fresh;
     repr := repr fresh |}.

Definition plain : CreateImagePipeline :=
  {| component_bucket := None; start_pipeline := false; update := false |}.

Definition staged : CreateImagePipeline :=
  {| component_bucket := Some "staging-bucket";
     start_pipeline := false;
     update := false |}.

Definition updating : CreateImagePipeline :=
  {| component_bucket := None; start_pipeline := false; update := true |}.

Definition install_agent_document : yaml :=
  YDict
    [("description", YStr "Install the agent");
     ("schemaVersion", YStr "1.0");
     ("phases", YList [])].

Definition install_agent : yaml :=
  YDict [("install-agent", install_agent_document)].

Definition update_linux_arn : string :=
  "arn:aws:imagebuilder:us-east-1:aws:component/update-linux/1.0.0".

Definition update_linux : yaml :=
  YDict [("update-linux", YDict [("arn", YStr update_linux_arn)])].

Definition base_distribution : yaml :=
  YDict [("name", YStr "base-distribution"); ("distributions", YList [])].

Definition definition : yaml :=
  YDict
    [("pipeline-name", YStr "base-pipeline");
     ("platform", YStr "Linux");
     ("components", YList [install_agent; update_linux]);
     ("image-recipe",
      YDict
        [("name", YStr "base-recipe");
         ("description", YStr "Base image");
         ("parentImage", YStr "ami-0123456789")]);
     ("instance-profile", YDict [("name", YStr "EC2InstanceProfile")]);
     ("infrastructure-configuration",
      YDict
        [("name", YStr "base-infrastructure");
         ("instanceTypes", YList [YStr "t3.small"])]);
     ("distribution-configuration",
      YDict
        [("name", YStr "base-distribution");
         ("distributions", YList [])])].

(** The component lookup rejects the first identifier it is asked for as
    malformed and accepts what it is asked next. *)
Definition rejecting_once : World :=
  override
    (fun R h c =>
       match c in api R return option (result R) with
       | ib_get_component _ =>
           match h with
           | [] => Some (inl InvalidParameterValueException)
           | _ => None
           end
       | _ => None
       end).

(** The component lookup rejects every identifier as malformed. *)
Definition rejecting : World :=
  override
    (fun R h c =>
       match c in api R return option (result R) with
       | ib_get_component _ => Some (inl InvalidParameterValueException)
       | _ => None
       end).

(** Two revisions of every component are listed already. *)
Definition two_revisions : World :=
  override
    (fun R h c =>
       match c in api R return option (result R) with
       | ib_list_components _ _ =>
           Some (inr ["component/0.0.1"; "component/0.0.2"])
       | _ => None
       end).

(** The configurations and the pipeline of the definition exist. *)
Definition configured : World :=
  override
    (fun R h c =>
       match c in api R return option (result R) with
       | ib_list_infrastructure_configurations _ =>
           Some (inr ["infrastructure-configuration/existing"])
       | ib_list_distribution_configurations _ =>
           Some (inr ["distribution-configuration/existing"])
       | ib_list_image_pipelines _ =>
           Some (inr ["image-pipeline/existing"])
       | _ => None
       end).

Definition build_profile : yaml :=
  YDict [("name", YStr "build"); ("file", YStr "policy.json")].

Definition versions : list policy_version :=
  [ {| VersionId := "v7"; IsDefaultVersion := true; CreateDate := 700 |};
    {| VersionId := "v6"; IsDefaultVersion := false; CreateDate := 600 |};
    {| VersionId := "v5"; IsDefaultVersion := false; CreateDate := 500 |};
    {| VersionId := "v4"; IsDefaultVersion := false; CreateDate := 400 |};
    {| VersionId := "v3"; IsDefaultVersion := false; CreateDate := 300 |} ].

(** The default profile exists and its policy has five versions: a new
    version is refused until one has been deleted. *)
Definition policy_history_full : World :=
  override
    (fun R h c =>
       match c in api R return option (result R) with
       | iam_list_instance_profiles _ =>
           Some (inr ["ec2-image-builder-default"])
       | iam_list_policy_versions _ => Some (inr versions)
       | iam_create_policy_version _ _ _ =>
           if existsb
                (fun e =>
                   match e with
                   | Call _ c' =>
                       match c' with
                       | iam_delete_policy_version _ _ => true
                       | _ => false
                       end
                   end) h
           then None
           else Some (inl LimitExceededException)
       | _ => None
       end).

(** A profile with the name derived from [build_profile] exists. *)
Definition build_profile_exists : World :=
  override
    (fun R h c =>
       match c in api R return option (result R) with
       | iam_list_instance_profiles _ => Some (inr ["imagebuilder-build"])
       | _ => None
       end).

(** Only the default profile of the service exists. *)
Definition default_profile_exists : World :=
  override
    (fun R h c =>
       match c in api R return option (result R) with
       | iam_list_instance_profiles _ =>
           Some (inr ["ec2-image-builder-default"])
       | _ => None
       end).

(** [definition] with a policy file for the instance profile. *)
Definition definition_with_policy : yaml :=
  setitem "instance-profile" build_profile definition.

(** [definition] without its [image-recipe]. *)
Definition definition_without_recipe : yaml :=
  YDict
    [("pipeline-name", YStr "base-pipeline");
     ("platform", YStr "Linux");
     ("components", YList [install_agent; update_linux]);
     ("instance-profile", YDict [("name", YStr "EC2InstanceProfile")]);
     ("infrastructure-configuration",
      YDict
        [("name", YStr "base-infrastructure");
         ("instanceTypes", YList [YStr "t3.small"])]);
     ("distribution-configuration",
      YDict
        [("name", YStr "base-distribution");
         ("distributions", YList [])])].

End Example.

From Stdlib Require Import DecimalNat.

(* ------------------------------------------------------------------ *)
(** ** The image recipe *)

(** The entry of [k] in [d] as a keyword argument: present when the value
    is there and is not [None]. *)
Definition optional (k : string) (d : dict) : dict :=
  match dict_lookup k d with
  | Some v => if is_not_None v then [(k, v)] else []
  | None => []
  end.

(** The keyword arguments of [create_image_recipe] for a recipe definition
    [d] with [existing] revisions listed. *)
Definition recipe_kwargs
  (component_arns : list yaml) (existing : nat)
  (name description parentImage : yaml) (d : dict) : dict :=
  ([("name", name);
    ("description", description);
    ("components", YList component_arns);
    ("semanticVersion", YStr ("0.0." ++ string_of_nat (existing + 1)));
    ("parentImage", parentImage)]
   ++ optional "blockDeviceMappings" d ++ optional "tags" d)%list.

(* ------------------------------------------------------------------ *)
(** ** The history of a policy *)



(* ------------------------------------------------------------------ *)
(** ** Teardown *)

(** The calls teardown may make: the three listings, the deletion of a
    pipeline and, in update mode only, the deletion of a configuration. *)
Definition teardown_call (self : CreateImagePipeline) (e : event) : bool :=
  match e with
  | Call _ c =>
      match c with
      | ib_list_image_pipelines _ | ib_delete_image_pipeline _
      | ib_list_infrastructure_configurations _
      | ib_list_distribution_configurations _ => true
      | ib_delete_infrastructure_configuration _
      | ib_delete_distribution_configuration _ => update self
      | _ => false
      end
  end.

(** The calls of a teardown for a pipeline named [pipeline_name] and
    configurations named [infrastructure_name] and [distribution_name],
    when the three listings are answered with [pipelines],
    [infrastructures] and [distributions]: of each listing the first entry,
    if there is one, is deleted. *)
Definition teardown_calls
  (self : CreateImagePipeline)
  (pipeline_name infrastructure_name distribution_name : yaml)
  (pipelines infrastructures distributions : list string) : list event :=
  let here := in_delete_pipeline_resources in
  ([Call here (ib_list_image_pipelines pipeline_name)]
   ++ map (fun arn => Call here (ib_delete_image_pipeline arn))
        (firstn 1 pipelines)
   ++ [Call here (ib_list_infrastructure_configurations infrastructure_name)]
   ++ (if update self
       then map (fun arn =>
                   Call here (ib_delete_infrastructure_configuration arn))
              (firstn 1 infrastructures)
       else [])
   ++ [Call here (ib_list_distribution_configurations distribution_name)]
   ++ (if update self
       then map (fun arn =>
                   Call here (ib_delete_distribution_configuration arn))
              (firstn 1 distributions)
       else []))%list.

(* ------------------------------------------------------------------ *)
(** ** The command-line flags *)

(** The methods [run] invokes under the flags of [self]. *)
Definition enabled (self : CreateImagePipeline) (m : method) : bool :=
  match m with
  | in_delete_pipeline_resources => update self
  | in_start_image_pipeline => start_pipeline self
  | _ => true
  end.

Definition is_start (e : event) : bool :=
  match e with
  | Call _ c =>
      match c with
      | ib_start_image_pipeline_execution _ => true
      | _ => false
      end
  end.

Definition is_configuration_delete (e : event) : bool :=
  match e with
  | Call _ c =>
      match c with
      | ib_delete_infrastructure_configuration _
      | ib_delete_distribution_configuration _ => true
      | _ => false
      end
  end.

(** A call that is in line with the flags: teardown calls and deletions of
    configurations need [update], the start of a pipeline needs
    [start_pipeline]. *)
Definition honours_flags (self : CreateImagePipeline) (e : event) : Prop :=
  (origin_of e = in_delete_pipeline_resources -> update self = true)
  /\ (is_configuration_delete e = true -> update self = true)
  /\ (is_start e = true -> start_pipeline self = true).

(* ------------------------------------------------------------------ *)
(** ** What the infrastructure configuration is given *)

(** A call that, when it creates an infrastructure configuration, names
    [name] as its instance profile. *)
Definition hands_over (name : yaml) (e : event) : Prop :=
  forall kwargs,
    infrastructure_kwargs e = Some kwargs ->
    dict_lookup "instanceProfileName" kwargs = Some name.

(* ------------------------------------------------------------------ *)
(** ** Identifiers handed from stage to stage *)

(** Hoare triples in one environment. *)
Definition hoare_at {A : Type}
  (w : World) (P : state -> Prop) (m : M A) (Q : result A -> state -> Prop)
  : Prop :=
  forall s, P s -> Q (fst (m w s)) (snd (m w s)).

(** The arguments of a [create_image_pipeline] call: name, description and
    the identifiers of the recipe and of the two configurations. *)
Definition pipeline_arguments (e : event)
  : option (yaml * yaml * string * string * string) :=
  match e with
  | Call _ c =>
      match c with
      | ib_create_image_pipeline name description recipe infrastructure
          distribution =>
          Some (name, description, recipe, infrastructure, distribution)
      | _ => None
      end
  end.

(** Among [calls], the call [c] was made and the environment [w] answered
    it with [r]. *)
Definition answered
  (w : World) (calls : list event) {R : Type} (c : api R) (r : R) : Prop :=
  exists m before later,
    calls = (before ++ Call m c :: later)%list
    /\ respond w before c = inr r.

(** [arn] is what a [create_image_recipe] call returned. *)
Definition recipe_created (w : World) (calls : list event) (arn : string)
  : Prop :=
  exists kwargs, answered w calls (ib_create_image_recipe kwargs) arn.

(** [arn] is what a [create_infrastructure_configuration] call returned, or
    the first entry of a listing of infrastructure configurations. *)
Definition infrastructure_obtained
  (w : World) (calls : list event) (arn : string) : Prop :=
  (exists kwargs,
      answered w calls (ib_create_infrastructure_configuration kwargs) arn)
  \/ (exists name others,
         answered w calls (ib_list_infrastructure_configurations name)
           (arn :: others)).

(** The same for distribution configurations. *)
Definition distribution_obtained
  (w : World) (calls : list event) (arn : string) : Prop :=
  (exists kwargs,
      answered w calls (ib_create_distribution_configuration kwargs) arn)
  \/ (exists name others,
         answered w calls (ib_list_distribution_configurations name)
           (arn :: others)).

(** Every pipeline created among [calls] has the configured name, also as
    its description, and is built from identifiers obtained earlier in
    [calls]. *)
Definition threaded (w : World) (definition : yaml) (calls : list event)
  : Prop :=
  Forall
    (fun e =>
       forall name description recipe infrastructure distribution,
         pipeline_arguments e
         = Some (name, description, recipe, infrastructure, distribution) ->
         py_getitem definition (YStr "pipeline-name") = inr name
         /\ description = name
         /\ recipe_created w calls recipe
         /\ infrastructure_obtained w calls infrastructure
         /\ distribution_obtained w calls distribution)
    calls.

(** No pipeline has been created among [calls]. *)
Definition no_pipeline_yet (calls : list event) : Prop :=
  Forall (fun e => pipeline_arguments e = None) calls.

(** The identifiers a run holds so far have been obtained among
    [calls]. *)
Definition obtained
  (w : World) (calls : list event)
  (recipe infrastructure distribution : option string) : Prop :=
  (forall arn, recipe = Some arn -> recipe_created w calls arn)
  /\ (forall arn,
         infrastructure = Some arn -> infrastructure_obtained w calls arn)
  /\ (forall arn,
         distribution = Some arn -> distribution_obtained w calls arn).

(** The state of a run before its pipeline stage. *)
Definition progress
  (w : World) (definition : yaml)
  (recipe infrastructure distribution : option string) (s : state) : Prop :=
  no_pipeline_yet (trace s)
  /\ py_getitem (pipeline_dict s) (YStr "pipeline-name")
     = py_getitem definition (YStr "pipeline-name")
  /\ obtained w (trace s) recipe infrastructure distribution.

(** A call that, when it creates a pipeline, creates it with these
    arguments. *)
Definition creates_pipeline_from
  (name : yaml) (recipe infrastructure distribution : string) (e : event)
  : Prop :=
  from in_create_image_pipeline e
  /\ forall arguments,
      pipeline_arguments e = Some arguments ->
      arguments = (name, name, recipe, infrastructure, distribution).

(* ------------------------------------------------------------------ *)
(** ** The instance profile the infrastructure stage receives *)

(** A call that does not come from [create_infrastructure_config]. *)
Definition outside_infrastructure (e : event) : Prop :=
  origin_of e <> in_create_infrastructure_config.

(** The calls of the infrastructure stage on the mapping [d], named [name],
    when it is given [instance_profile] and the listing is answered with
    [listed]: the listing and, when nothing is listed, the creation from [d]
    with [instanceProfileName] set to [instance_profile]. *)
Definition infrastructure_calls
  (instance_profile : yaml) (d : dict) (name : yaml)
  (listed : result (list string)) : list event :=
  let here := in_create_infrastructure_config in
  Call here (ib_list_infrastructure_configurations name)
  :: match listed with
     | inr [] =>
         [Call here
            (ib_create_infrastructure_configuration
               (dict_set "instanceProfileName" instance_profile d))]
     | _ => []
     end.

(** Among [calls], the infrastructure stage has run once, on the
    [infrastructure-configuration] mapping of [definition] as loaded, with
    [instance_profile] as the profile it was given: its calls are
    [infrastructure_calls], and no other call comes from
    [create_infrastructure_config]. *)
Definition infrastructure_given
  (w : World) (definition instance_profile : yaml) (calls : list event)
  : Prop :=
  exists d name before later,
    py_getitem definition (YStr "infrastructure-configuration")
    = inr (YDict d)
    /\ py_getitem (YDict d) (YStr "name") = inr name
    /\ calls
       = (before
          ++ infrastructure_calls instance_profile d name
               (respond w before (ib_list_infrastructure_configurations name))
          ++ later)%list
    /\ Forall outside_infrastructure before
    /\ Forall outside_infrastructure later.

(* ------------------------------------------------------------------ *)
(** ** More example environments *)

Module MoreExamples.

Definition base_recipe : dict :=
  [("name", YStr "base-recipe");
   ("description", YStr "Base image");
   ("parentImage", YStr "ami-0123456789");
   ("blockDeviceMappings", YNull);
   ("tags", YDict [("team", YStr "build")])].

(** One revision of every image recipe is listed already. *)
Definition one_recipe : World :=
  Example.override
    (fun R h c =>
       match c in api R return option (result R) with
       | ib_list_image_recipes _ _ => Some (inr ["image-recipe/0.0.1"])
       | _ => None
       end).

(** The referenced component is not there any more. *)
Definition removed : World :=
  Example.override
    (fun R h c =>
       match c in api R return option (result R) with
       | ib_get_component _ => Some (inl ResourceNotFoundException)
       | _ => None
       end).

Definition reboot_linux_arn : string :=
  "arn:aws:imagebuilder:us-east-1:aws:component/reboot-linux/1.0.1".

Definition reboot_linux : yaml :=
  YDict [("reboot-linux", YDict [("arn", YStr reboot_linux_arn)])].

(** The role can be created, the policy cannot. *)
Definition policy_refused : World :=
  Example.override
    (fun R h c =>
       match c in api R return option (result R) with
       | iam_create_policy _ _ _ => Some (inl (ClientError "AccessDenied"))
       | _ => None
       end).

(** The policy file cannot be read. *)
Definition unreadable_policy : World :=
  {| respond := respond Example.fresh;
     read_policy := fun _ => inl IOError;
     now_time := now_time Example.fresh;
     repr := repr Example.fresh |}.

(** The default profile exists and its policy cannot be changed. *)
Definition policy_locked : World :=
  Example.override
    (fun R h c =>
       match c in api R return option (result R) with
       | iam_list_instance_profiles _ =>
           Some (inr ["ec2-image-builder-default"])
       | iam_create_policy_version _ _ _ =>
           Some (inl (ClientError "AccessDenied"))
       | _ => None
       end).

(** The caller is the root user of the account. *)
Definition as_root : World :=
  Example.override
    (fun R h c =>
       match c in api R return option (result R) with
       | sts_get_caller_identity =>
           Some (inr {| Account := "123456789012";
                        Arn := "arn:aws:iam::123456789012:root" |})
       | _ => None
       end).

Definition starting : CreateImagePipeline :=
  {| component_bucket := None; start_pipeline := true; update := false |}.

(** An infrastructure definition that names an instance profile itself. *)
Definition infrastructure_with_profile : dict :=
  [("name", YStr "base-infrastructure");
   ("instanceProfileName", YStr "hand-written");
   ("instanceTypes", YList [YStr "t3.small"])].

(** A component written as a bare string instead of a mapping. *)
Definition bare_component : yaml := YStr "update-linux".

(** A component whose entry is an identifier instead of a mapping. *)
Definition flat_component : yaml :=
  YDict [("update-linux", YStr Example.update_linux_arn)].



End MoreExamples.
(* ------------------------------------------------------------------ *)
(** * Properties *)

(** Names built by concatenation stay folded in goals. *)
#[local] Arguments String.append : simpl never.

(* ------------------------------------------------------------------ *)
(** ** Relating the state before and after a method *)

Lemma extends_refl (P : event -> Prop) (s : state) : extends P s s.
Proof.
  exists []. split; [now rewrite app_nil_r | constructor].
Qed.

Lemma extends_trans (P : event -> Prop) (s1 s2 s3 : state) :
  extends P s1 s2 -> extends P s2 s3 -> extends P s1 s3.
Proof.
  intros [e1 [H1 F1]] [e2 [H2 F2]].
  exists (e1 ++ e2)%list. split.
  - now rewrite H2, H1, app_assoc.
  - apply Forall_app; now split.
Qed.

Lemma extends_weaken (P Q : event -> Prop) (s s' : state) :
  (forall e, P e -> Q e) -> extends P s s' -> extends Q s s'.
Proof.
  intros HPQ [evs [H F]]. exists evs. split; [exact H |].
  eapply Forall_impl; [| exact F]. exact HPQ.
Qed.

Lemma stage_step_refl (P : event -> Prop) (s : state) : stage_step P s s.
Proof.
  split; [apply extends_refl | reflexivity].
Qed.

Lemma stage_step_trans (P : event -> Prop) (s1 s2 s3 : state) :
  stage_step P s1 s2 -> stage_step P s2 s3 -> stage_step P s1 s3.
Proof.
  intros [E1 D1] [E2 D2]. split.
  - eapply extends_trans; eassumption.
  - now rewrite D2.
Qed.

Section Respects.

Variable R : state -> state -> Prop.
Hypothesis R_refl : forall s, R s s.
Hypothesis R_trans : forall s1 s2 s3, R s1 s2 -> R s2 s3 -> R s1 s3.

Lemma respects_ret {A : Type} (a : A) : respects R (ret a).
Proof. intros w s. apply R_refl. Qed.

Lemma respects_raise {A : Type} (e : exn) : respects R (@raise A e).
Proof. intros w s. apply R_refl. Qed.

Lemma respects_lift {A : Type} (r : result A) : respects R (lift r).
Proof. destruct r; [apply respects_raise | apply respects_ret]. Qed.

Lemma respects_ask : respects R ask.
Proof. intros w s. apply R_refl. Qed.

Lemma respects_now : respects R now.
Proof. intros w s. apply R_refl. Qed.

Lemma respects_open_json (path : yaml) : respects R (open_json path).
Proof. intros w s. apply R_refl. Qed.

Lemma respects_pipeline_item (k : string) : respects R (pipeline_item k).
Proof. intros w s. apply R_refl. Qed.

Lemma respects_ref_item (d : ref) (k : string) : respects R (ref_item d k).
Proof.
  intros w s. unfold ref_item.
  destruct (yaml_at (pipeline_dict s) d); apply R_refl.
Qed.

Lemma respects_ref_kwargs (d : ref) : respects R (ref_kwargs d).
Proof.
  intros w s. unfold ref_kwargs.
  destruct (yaml_at (pipeline_dict s) d); apply R_refl.
Qed.

Lemma respects_bind {A B : Type} (m : M A) (f : A -> M B) :
  respects R m -> (forall a, respects R (f a)) -> respects R (bind m f).
Proof.
  intros Hm Hf w s. unfold bind.
  specialize (Hm w s).
  destruct (m w s) as [[e | a] s1]; simpl in *.
  - exact Hm.
  - eapply R_trans; [exact Hm | apply Hf].
Qed.

Lemma respects_try_except {A : Type}
  (body : M A) (handler : exn -> option (M A)) :
  respects R body ->
  (forall e h, handler e = Some h -> respects R h) ->
  respects R (try_except body handler).
Proof.
  intros Hb Hh w s. unfold try_except.
  specialize (Hb w s).
  destruct (body w s) as [[e | a] s1]; simpl in *.
  - destruct (handler e) as [h |] eqn:He.
    + eapply R_trans; [exact Hb | eapply Hh; exact He].
    + exact Hb.
  - exact Hb.
Qed.

End Respects.

Lemma respects_remote (P : event -> Prop) (R : Type) (m : method) (c : api R) :
  P (Call m c) -> respects (stage_step P) (remote m c).
Proof.
  intros HP w s. split; [| reflexivity].
  exists [Call m c]. split; [reflexivity | now constructor].
Qed.

(** Syntax-directed proof that a method only makes calls satisfying [P] and
    leaves the loaded definition alone. *)
Ltac stage_handler :=
  let e := fresh "e" in
  let h := fresh "h" in
  let He := fresh "He" in
  intros e h He; destruct e; try discriminate He;
  injection He as He; subst h.

Ltac stage_one :=
  match goal with
  | |- respects _ (bind _ _) =>
      apply respects_bind; [apply stage_step_trans | | intros]
  | |- respects _ (try_except _ _) =>
      apply respects_try_except;
      [apply stage_step_trans | | stage_handler]
  | |- respects _ (ret _) => apply respects_ret, stage_step_refl
  | |- respects _ (raise _) => apply respects_raise, stage_step_refl
  | |- respects _ (lift _) => apply respects_lift, stage_step_refl
  | |- respects _ ask => apply respects_ask, stage_step_refl
  | |- respects _ now => apply respects_now, stage_step_refl
  | |- respects _ (open_json _) => apply respects_open_json, stage_step_refl
  | |- respects _ (pipeline_item _) =>
      apply respects_pipeline_item, stage_step_refl
  | |- respects _ (ref_item _ _) => apply respects_ref_item, stage_step_refl
  | |- respects _ (ref_kwargs _) => apply respects_ref_kwargs, stage_step_refl
  | |- respects _ (remote _ _) =>
      apply respects_remote; simpl; auto
  | |- respects _ (if ?b then _ else _) => destruct b
  | |- respects _ (match ?x with _ => _ end) => destruct x
  end.

Ltac stage := cbv zeta; repeat stage_one.

Lemma get_session_details_stage :
  respects (stage_step (from in_get_session_details)) get_session_details.
Proof. unfold get_session_details. stage. Qed.

Lemma create_instance_profile_stage
  (self : CreateImagePipeline) (profile_dict : yaml) (account_id : string) :
  respects (stage_step (from in_create_instance_profile))
    (create_instance_profile self profile_dict account_id).
Proof. unfold create_instance_profile. stage. Qed.

Lemma create_component_stage
  (self : CreateImagePipeline) (platform component : yaml)
  (component_list : list yaml) :
  respects (stage_step (from in_create_components))
    (create_component self platform component component_list).
Proof. unfold create_component. stage. Qed.

Lemma create_components_loop_stage
  (self : CreateImagePipeline) (platform : yaml) (components : list yaml) :
  forall component_list,
    respects (stage_step (from in_create_components))
      (create_components_loop self platform components component_list).
Proof.
  induction components as [| component rest IH]; intros component_list; simpl.
  - stage.
  - stage_one; [apply create_component_stage | apply IH].
Qed.

Lemma create_components_stage
  (self : CreateImagePipeline) (platform component_def : yaml) :
  respects (stage_step (from in_create_components))
    (create_components self platform component_def).
Proof.
  unfold create_components. stage_one; [stage |].
  apply create_components_loop_stage.
Qed.

Lemma create_image_recipe_stage (component_arns : list yaml) (recipe_def : yaml) :
  respects (stage_step (from in_create_image_recipe))
    (create_image_recipe component_arns recipe_def).
Proof. unfold create_image_recipe. stage. Qed.

Lemma create_distribution_configuration_stage (distribution_def : yaml) :
  respects (stage_step (from in_create_distribution_configuration))
    (create_distribution_configuration distribution_def).
Proof. unfold create_distribution_configuration. stage. Qed.

Lemma create_image_pipeline_stage
  (pipeline_name : yaml) (recipe infrastructure distribution : string) :
  respects (stage_step (from in_create_image_pipeline))
    (create_image_pipeline pipeline_name recipe infrastructure distribution).
Proof. unfold create_image_pipeline. stage. Qed.

Lemma start_image_pipeline_stage (pipeline_arn : string) :
  respects (stage_step (from in_start_image_pipeline))
    (start_image_pipeline pipeline_arn).
Proof. unfold start_image_pipeline. stage. Qed.

Lemma delete_pipeline_resources_stage (self : CreateImagePipeline) :
  respects (stage_step (from in_delete_pipeline_resources))
    (delete_pipeline_resources self).
Proof. unfold delete_pipeline_resources. stage. Qed.

(* ------------------------------------------------------------------ *)
(** ** Mappings and references *)

Lemma dict_lookup_set_same (k : string) (v : yaml) (d : dict) :
  dict_lookup k (dict_set k v d) = Some v.
Proof.
  induction d as [| [k' v'] d IH]; simpl.
  - now rewrite String.eqb_refl.
  - destruct (String.eqb k k') eqn:E; simpl; rewrite E; [reflexivity | exact IH].
Qed.

Lemma dict_lookup_set_other (k k' : string) (v : yaml) (d : dict) :
  k <> k' -> dict_lookup k (dict_set k' v d) = dict_lookup k d.
Proof.
  intros Hne. induction d as [| [k0 v0] d IH]; simpl.
  - destruct (String.eqb k k') eqn:E; [| reflexivity].
    apply String.eqb_eq in E. contradiction.
  - destruct (String.eqb k' k0) eqn:E0; simpl.
    + apply String.eqb_eq in E0. subst k0.
      destruct (String.eqb k k') eqn:E; [| reflexivity].
      apply String.eqb_eq in E. contradiction.
    + destruct (String.eqb k k0); [reflexivity | exact IH].
Qed.

(** Writing to a key that is present keeps absent keys absent. *)
Lemma dict_lookup_set_present (k k' : string) (v v' : yaml) (d : dict) :
  dict_lookup k' d = Some v' ->
  dict_lookup k d = None ->
  dict_lookup k (dict_set k' v d) = None.
Proof.
  intros Hpresent Habsent.
  destruct (String.eqb k k') eqn:E.
  - apply String.eqb_eq in E. subst k'. congruence.
  - apply String.eqb_neq in E. now rewrite dict_lookup_set_other.
Qed.

Lemma yaml_at_update (f : yaml -> yaml) (r : ref) :
  forall v x,
    yaml_at v r = Some x -> yaml_at (yaml_update_at v r f) r = Some (f x).
Proof.
  induction r as [| k r IH]; intros v x H; simpl in *.
  - now injection H as ->.
  - destruct v; try discriminate.
    destruct (dict_lookup k d) as [v' |] eqn:E; [| discriminate].
    simpl. rewrite dict_lookup_set_same. now apply IH.
Qed.

Lemma create_infrastructure_config_step
  (instance_profile : yaml) (infrastructure_def : ref) (w : World) (s : state) :
  infrastructure_step instance_profile infrastructure_def s
    (snd (create_infrastructure_config instance_profile infrastructure_def w s)).
Proof.
  unfold create_infrastructure_config, bind, ref_item; cbv zeta.
  destruct (yaml_at (pipeline_dict s) infrastructure_def) as [v |] eqn:Hat;
    [| exists []; simpl; rewrite app_nil_r; auto].
  destruct (py_getitem v (YStr "name")) as [e | name];
    [exists []; simpl; rewrite app_nil_r; auto |].
  unfold remote; simpl.
  set (list_call :=
         Call in_create_infrastructure_config
           (ib_list_infrastructure_configurations name)).
  assert (Hlist : from in_create_infrastructure_config list_call)
    by (simpl; auto).
  assert (Hnone : forall kwargs,
             infrastructure_kwargs list_call = Some kwargs ->
             dict_lookup "instanceProfileName" kwargs = Some instance_profile)
    by (intros kwargs H; discriminate H).
  destruct (respond w (trace s) (ib_list_infrastructure_configurations name))
    as [e | [| existing rest]]; simpl;
    try (exists [list_call]; simpl; auto 10; fail).
  unfold ref_setitem; simpl. rewrite Hat.
  destruct v as [| | | | | d];
    try (exists [list_call]; simpl; auto 10; fail).
  simpl. unfold ref_kwargs; simpl.
  rewrite (yaml_at_update (setitem "instanceProfileName" instance_profile)
             infrastructure_def _ Hat).
  simpl.
  exists [list_call;
          Call in_create_infrastructure_config
            (ib_create_infrastructure_configuration
               (dict_set "instanceProfileName" instance_profile d))].
  simpl. rewrite <- app_assoc. simpl.
  repeat split; auto.
  repeat constructor; auto.
  intros kwargs H. simpl in H. injection H as <-.
  apply dict_lookup_set_same.
Qed.

(* ------------------------------------------------------------------ *)
(** ** Rules for Hoare triples *)

Lemma hoare_bind {A B : Type}
  (P : state -> Prop) (Mid : A -> state -> Prop)
  (m : M A) (f : A -> M B) (Q : result B -> state -> Prop) :
  hoare P m (fun r s => match r with
                        | inl e => Q (inl e) s
                        | inr a => Mid a s
                        end) ->
  (forall a, hoare (Mid a) (f a) Q) ->
  hoare P (bind m f) Q.
Proof.
  intros Hm Hf w s HP. unfold bind.
  specialize (Hm w s HP).
  destruct (m w s) as [[e | a] s1]; simpl in *.
  - exact Hm.
  - now apply Hf.
Qed.

Lemma hoare_conseq {A : Type}
  (P P' : state -> Prop) (m : M A) (Q Q' : result A -> state -> Prop) :
  (forall s, P' s -> P s) ->
  (forall r s, Q r s -> Q' r s) ->
  hoare P m Q -> hoare P' m Q'.
Proof.
  intros HP HQ H w s HP'. apply HQ, H, HP, HP'.
Qed.

(** A step that is known through a state relation [R] only. *)
Lemma hoare_step {A B : Type}
  (R : state -> state -> Prop) (I I' : state -> Prop)
  (m : M A) (f : A -> M B) (Q : result B -> state -> Prop) :
  respects R m ->
  (forall s s', I s -> R s s' -> I' s') ->
  (forall e s, I' s -> Q (inl e) s) ->
  (forall a, hoare I' (f a) Q) ->
  hoare I (bind m f) Q.
Proof.
  intros HR HI HQ Hf.
  apply hoare_bind with (Mid := fun _ => I'); [| exact Hf].
  intros w s Hs.
  assert (H' : I' (snd (m w s))) by (eapply HI; [exact Hs | apply HR]).
  destruct (fst (m w s)); auto.
Qed.

(** Reading a key of the loaded definition. *)
Lemma hoare_pipeline_item {B : Type}
  (k : string) (I : state -> Prop) (f : yaml -> M B)
  (Q : result B -> state -> Prop) :
  (forall e s, I s -> py_getitem (pipeline_dict s) (YStr k) = inl e ->
               Q (inl e) s) ->
  (forall a,
      hoare (fun s => I s /\ py_getitem (pipeline_dict s) (YStr k) = inr a)
        (f a) Q) ->
  hoare I (bind (pipeline_item k) f) Q.
Proof.
  intros Herr Hf.
  apply hoare_bind
    with (Mid := fun a s => I s /\ py_getitem (pipeline_dict s) (YStr k) = inr a);
    [| exact Hf].
  intros w s Hs. unfold pipeline_item; simpl.
  destruct (py_getitem (pipeline_dict s) (YStr k)) eqn:E; auto.
Qed.

(** Evaluating a pure expression. *)
Lemma hoare_lift {A B : Type}
  (r : result A) (I : state -> Prop) (f : A -> M B)
  (Q : result B -> state -> Prop) :
  (forall e s, r = inl e -> I s -> Q (inl e) s) ->
  (forall a, r = inr a -> hoare I (f a) Q) ->
  hoare I (bind (lift r) f) Q.
Proof.
  intros Herr Hf w s Hs. unfold bind.
  destruct r as [e | a]; simpl.
  - now apply Herr.
  - now apply Hf.
Qed.

Lemma hoare_ret {A : Type}
  (a : A) (I : state -> Prop) (Q : result A -> state -> Prop) :
  (forall s, I s -> Q (inr a) s) -> hoare I (ret a) Q.
Proof.
  intros H w s Hs. now apply H.
Qed.

(** The last step of a method, known through a state relation only. *)
Lemma hoare_last {A : Type}
  (R : state -> state -> Prop) (I : state -> Prop)
  (m : M A) (Q : result A -> state -> Prop) :
  respects R m ->
  (forall r s s', I s -> R s s' -> Q r s') ->
  hoare I m Q.
Proof.
  intros HR HQ w s Hs. eapply HQ; [exact Hs | apply HR].
Qed.

Lemma after_after (s : state) (evs evs' : list event) :
  after (after s evs) evs' = after s (evs ++ evs')%list.
Proof.
  unfold after; simpl. now rewrite app_assoc.
Qed.

Lemma remote_after (R : Type) (m : method) (c : api R) (w : World) (s : state) :
  remote m c w s = (respond w (trace s) c, after s [Call m c]).
Proof. reflexivity. Qed.

(** *** Equations for running a method step by step *)

Lemma bind_ret {A B : Type} (a : A) (f : A -> M B) (w : World) (s : state) :
  bind (ret a) f w s = f a w s.
Proof. reflexivity. Qed.

Lemma bind_ask {B : Type} (f : World -> M B) (w : World) (s : state) :
  bind ask f w s = f w w s.
Proof. reflexivity. Qed.

Lemma bind_now {B : Type} (f : string -> M B) (w : World) (s : state) :
  bind now f w s = f (now_time w (trace s)) w s.
Proof. reflexivity. Qed.

Lemma bind_lift {A B : Type}
  (r : result A) (f : A -> M B) (w : World) (s : state) :
  bind (lift r) f w s
  = match r with
    | inl e => (inl e, s)
    | inr a => f a w s
    end.
Proof. destruct r; reflexivity. Qed.

Lemma bind_open_json {B : Type}
  (path : yaml) (f : yaml -> M B) (w : World) (s : state) :
  bind (open_json path) f w s
  = match read_policy w path with
    | inl e => (inl e, s)
    | inr a => f a w s
    end.
Proof. unfold bind, open_json. destruct (read_policy w path); reflexivity. Qed.

Lemma bind_remote {R B : Type}
  (m : method) (c : api R) (f : R -> M B) (w : World) (s : state) :
  bind (remote m c) f w s
  = match respond w (trace s) c with
    | inl e => (inl e, after s [Call m c])
    | inr r => f r w (after s [Call m c])
    end.
Proof. unfold bind. rewrite remote_after. reflexivity. Qed.

Lemma bind_pipeline_item {B : Type}
  (k : string) (f : yaml -> M B) (w : World) (s : state) :
  bind (pipeline_item k) f w s
  = match py_getitem (pipeline_dict s) (YStr k) with
    | inl e => (inl e, s)
    | inr a => f a w s
    end.
Proof.
  unfold bind, pipeline_item.
  destruct (py_getitem (pipeline_dict s) (YStr k)); reflexivity.
Qed.

Lemma bind_assoc {A B C : Type}
  (m : M A) (f : A -> M B) (g : B -> M C) (w : World) (s : state) :
  bind (bind m f) g w s = bind m (fun a => bind (f a) g) w s.
Proof.
  unfold bind. destruct (m w s) as [[e | a] s1]; reflexivity.
Qed.

Lemma try_except_run {A : Type}
  (body : M A) (handler : exn -> option (M A)) (w : World) (s : state) :
  try_except body handler w s
  = match body w s with
    | (inl e, s') => match handler e with
                     | Some h => h w s'
                     | None => (inl e, s')
                     end
    | (inr a, s') => (inr a, s')
    end.
Proof. reflexivity. Qed.


(** The step of [run] that provisions the infrastructure configuration. *)
Lemma hoare_infrastructure {B : Type}
  (I I' : state -> Prop) (instance_profile : yaml) (infrastructure_def : ref)
  (f : string -> M B) (Q : result B -> state -> Prop) :
  (forall s s',
      I s ->
      infrastructure_step instance_profile infrastructure_def s s' ->
      I' s') ->
  (forall e s, I' s -> Q (inl e) s) ->
  (forall a, hoare I' (f a) Q) ->
  hoare I
    (bind (create_infrastructure_config instance_profile infrastructure_def) f)
    Q.
Proof.
  intros HI HQ Hf.
  apply hoare_bind with (Mid := fun _ => I'); [| exact Hf].
  intros w s Hs.
  assert (H' : I' (snd (create_infrastructure_config instance_profile
                          infrastructure_def w s))).
  { eapply HI; [exact Hs | apply create_infrastructure_config_step]. }
  destruct (fst _); auto.
Qed.

(** *** The steps of [run] *)

Lemma instance_profile_step_stage
  (self : CreateImagePipeline) (account_id : string) :
  respects (stage_step (from in_create_instance_profile))
    (instance_profile_step self account_id).
Proof.
  unfold instance_profile_step. stage.
  all: apply create_instance_profile_stage.
Qed.

Lemma respects_weaken {A : Type}
  (R R' : state -> state -> Prop) (m : M A) :
  (forall s s', R s s' -> R' s s') -> respects R m -> respects R' m.
Proof.
  intros HR Hm w s. apply HR, Hm.
Qed.

Lemma stage_extends {A : Type} (P : event -> Prop) (m : M A) :
  respects (stage_step P) m -> respects (extends P) m.
Proof.
  apply respects_weaken. now intros s s' [H _].
Qed.

Lemma stage_keeps {A : Type} (P : event -> Prop) (m : M A) :
  respects (stage_step P) m -> respects same_definition m.
Proof.
  apply respects_weaken. now intros s s' [_ H].
Qed.

(** The methods [run] calls, each with the calls it makes. *)
Ltac known_stage :=
  first
    [ apply get_session_details_stage
    | apply delete_pipeline_resources_stage
    | apply create_components_stage
    | apply create_image_recipe_stage
    | apply instance_profile_step_stage
    | apply create_distribution_configuration_stage
    | apply create_image_pipeline_stage
    | apply start_image_pipeline_stage ].

(** A step of [run] that makes no call at all. *)
Ltac silent_stage :=
  match goal with
  | |- respects (stage_step ?P) _ =>
      unify P (fun _ : event => False); solve [stage]
  end.

Ltac any_stage :=
  first
    [ known_stage
    | match goal with
      | |- respects _ (if ?b then _ else _) => destruct b; any_stage
      end
    | silent_stage
    | solve [stage; try known_stage] ].

Lemma hoare_pre_pure {A : Type}
  (I : state -> Prop) (P : Prop) (m : M A) (Q : result A -> state -> Prop) :
  (P -> hoare I m Q) -> hoare (fun s => I s /\ P) m Q.
Proof.
  intros H w s [Hs HP]. now apply H.
Qed.

Lemma extends_forall (P P' : event -> Prop) (s s' : state) :
  (forall e, P' e -> P e) ->
  Forall P (trace s) -> extends P' s s' -> Forall P (trace s').
Proof.
  intros HPP Hs [evs [Htrace Hevs]].
  rewrite Htrace. apply Forall_app. split; [exact Hs |].
  eapply Forall_impl; [| exact Hevs]. exact HPP.
Qed.

Lemma infrastructure_step_stage
  (instance_profile : yaml) (infrastructure_def : ref) (s s' : state) :
  infrastructure_step instance_profile infrastructure_def s s' ->
  extends (from in_create_infrastructure_config) s s'.
Proof.
  intros (evs & Htrace & Hfrom & _). now exists evs.
Qed.

(* ------------------------------------------------------------------ *)
(** ** Component resolution *)

(** C5.  A component given by reference whose identifier the lookup accepts
    is resolved to that identifier unchanged, with the one lookup call.  When
    the lookup rejects the identifier as an invalid parameter value, the
    identifier with [/1] appended is looked up, once: if that lookup
    succeeds the component is resolved to the suffixed identifier, and if it
    raises, the exception leaves the method with no further call. *)
Theorem by_reference_resolution
  (self : CreateImagePipeline) (platform component arn : yaml)
  (component_list : list yaml) (w : World) (s : state) :
  by_reference component arn ->
  let lookup := Call in_create_components (ib_get_component arn) in
  (forall u,
      respond w (trace s) (ib_get_component arn) = inr u ->
      create_component self platform component component_list w s
      = (inr (component_list ++ [componentArn arn])%list, after s [lookup]))
  /\ (forall a,
         arn = YStr a ->
         respond w (trace s) (ib_get_component arn)
         = inl InvalidParameterValueException ->
         let retry :=
           Call in_create_components (ib_get_component (YStr (a ++ "/1"))) in
         create_component self platform component component_list w s
         = (match respond w (trace s ++ [lookup])%list
                    (ib_get_component (YStr (a ++ "/1"))) with
            | inr _ =>
                inr (component_list ++ [componentArn (YStr (a ++ "/1"))])%list
            | inl e => inl e
            end,
            after s [lookup; retry])).
Proof.
  intros (component_name & entry & (keys & Hkeys & Hname & Hentry) & Harn & Hsome).
  subst component_name.
  unfold create_component; cbv zeta.
  rewrite bind_ask, bind_lift, Hkeys, bind_lift, Hentry, bind_lift, Harn, Hsome.
  rewrite try_except_run, bind_remote.
  split.
  - intros u Hok. rewrite Hok. reflexivity.
  - intros a -> Hbad. rewrite Hbad.
    rewrite bind_lift; simpl py_add_str; cbv iota.
    rewrite bind_remote, after_after. simpl.
    destruct (respond w _ (ib_get_component (YStr (a ++ "/1")))); reflexivity.
Qed.

Lemma by_reference_resolution_witness :
  by_reference Example.update_linux (YStr Example.update_linux_arn)
  /\ create_component Example.plain (YStr "Linux") Example.update_linux []
       Example.fresh (initial YNull)
     = (inr [componentArn (YStr Example.update_linux_arn)],
        after (initial YNull)
          [Call in_create_components
             (ib_get_component (YStr Example.update_linux_arn))])
  /\ fst (create_component Example.plain (YStr "Linux") Example.update_linux []
            Example.rejecting_once (initial YNull))
     = inr [componentArn (YStr (Example.update_linux_arn ++ "/1"))]
  /\ create_component Example.plain (YStr "Linux") Example.update_linux []
       Example.rejecting (initial YNull)
     = (inl InvalidParameterValueException,
        after (initial YNull)
          [Call in_create_components
             (ib_get_component (YStr Example.update_linux_arn));
           Call in_create_components
             (ib_get_component (YStr (Example.update_linux_arn ++ "/1")))]).
Proof.
  assert (H : by_reference Example.update_linux (YStr Example.update_linux_arn)).
  { exists (YStr "update-linux"),
      (YDict [("arn", YStr Example.update_linux_arn)]).
    repeat split. exists [YStr "update-linux"]. repeat split. }
  split; [exact H |].
  split; [| split].
  - apply (by_reference_resolution Example.plain (YStr "Linux") []
             Example.fresh (initial YNull) H) with (u := tt).
    reflexivity.
  - destruct (by_reference_resolution Example.plain (YStr "Linux") []
                Example.rejecting_once (initial YNull) H) as [_ Hretry].
    rewrite (Hretry Example.update_linux_arn eq_refl eq_refl).
    reflexivity.
  - destruct (by_reference_resolution Example.plain (YStr "Linux") []
                Example.rejecting (initial YNull) H) as [_ Hretry].
    rewrite (Hretry Example.update_linux_arn eq_refl eq_refl).
    reflexivity.
Defined.

(** C6.  For a component given by its document, with [existing] the
    revisions listed under its name: the revision is created with version
    [0.0.(n+1)], [n] the number of listed revisions.  Without a staging
    bucket the calls are the listing and one [create_component] carrying the
    dumped document as [data].  With a staging bucket the dumped document is
    first put into the bucket, and only when that succeeded is the component
    created, by the [s3://] address of the uploaded object as [uri]. *)
Theorem inline_component_revision
  (self : CreateImagePipeline)
  (platform component component_name entry description : yaml)
  (existing : list string) (component_list : list yaml)
  (w : World) (s : state) :
  inline component component_name entry ->
  respond w (trace s) (ib_list_components "Self" component_name)
  = inr existing ->
  py_getitem entry (YStr "description") = inr description ->
  let version := "0.0." ++ string_of_nat (List.length existing + 1) in
  let listing :=
    Call in_create_components (ib_list_components "Self" component_name) in
  let created (r : result string) : result (list yaml) :=
    match r with
    | inl e => inl e
    | inr new => inr (component_list ++ [componentArn (YStr new)])%list
    end in
  (component_bucket self = None ->
   let create :=
     ib_create_component component_name version description platform
       (data (yaml_safe_dump entry)) in
   create_component self platform component component_list w s
   = (created (respond w (trace s ++ [listing])%list create),
      after s [listing; Call in_create_components create]))
  /\ (forall bucket,
         component_bucket self = Some bucket ->
         let key_name :=
           "imagebuilder/" ++ py_str w component_name ++ "_"
           ++ now_time w (trace s ++ [listing])%list ++ ".yaml" in
         let upload := s3_put_object bucket key_name (yaml_safe_dump entry) in
         let create :=
           ib_create_component component_name version description platform
             (uri ("s3://" ++ bucket ++ "/" ++ key_name)) in
         create_component self platform component component_list w s
         = match respond w (trace s ++ [listing])%list upload with
           | inl e =>
               (inl e, after s [listing; Call in_create_components upload])
           | inr _ =>
               (created
                  (respond w
                     (trace s
                      ++ [listing; Call in_create_components upload])%list
                     create),
                after s
                  [listing;
                   Call in_create_components upload;
                   Call in_create_components create])
           end).
Proof.
  intros [(keys & Hkeys & Hname & Hentry) Harn] Hlist Hdescription.
  subst component_name.
  assert (Hversion :
            semantic_version (List.length existing)
            = "0.0." ++ string_of_nat (List.length existing + 1))
    by (unfold semantic_version; now rewrite Nat.add_comm).
  cbv zeta. unfold create_component; cbv zeta.
  rewrite bind_ask, bind_lift, Hkeys, bind_lift, Hentry, bind_lift, Harn.
  change (is_not_None YNull) with false; cbv iota.
  rewrite bind_remote, Hlist, Hversion.
  split.
  - intros Hbucket. rewrite Hbucket.
    rewrite bind_lift, Hdescription, bind_remote, after_after. simpl.
    destruct (respond w _ (ib_create_component _ _ _ _ _)); reflexivity.
  - intros bucket Hbucket. rewrite Hbucket.
    rewrite bind_now; cbv beta.
    rewrite bind_remote, after_after. simpl.
    destruct (respond w _ (s3_put_object _ _ _)); [reflexivity |].
    rewrite bind_lift, Hdescription, bind_remote, after_after. simpl.
    destruct (respond w _ (ib_create_component _ _ _ _ _)); reflexivity.
Qed.

Lemma inline_component_revision_witness :
  inline Example.install_agent (YStr "install-agent")
    Example.install_agent_document
  /\ create_component Example.plain (YStr "Linux") Example.install_agent []
       Example.two_revisions (initial YNull)
     = (inr [componentArn (YStr "component/0.0.3")],
        after (initial YNull)
          [Call in_create_components
             (ib_list_components "Self" (YStr "install-agent"));
           Call in_create_components
             (ib_create_component (YStr "install-agent") "0.0.3"
                (YStr "Install the agent") (YStr "Linux")
                (data (yaml_safe_dump Example.install_agent_document)))])
  /\ create_component Example.staged (YStr "Linux") Example.install_agent []
       Example.two_revisions (initial YNull)
     = (inr [componentArn (YStr "component/0.0.3")],
        after (initial YNull)
          [Call in_create_components
             (ib_list_components "Self" (YStr "install-agent"));
           Call in_create_components
             (s3_put_object "staging-bucket"
                "imagebuilder/install-agent_10:15:00.000000.yaml"
                (yaml_safe_dump Example.install_agent_document));
           Call in_create_components
             (ib_create_component (YStr "install-agent") "0.0.3"
                (YStr "Install the agent") (YStr "Linux")
                (uri
                   "s3://staging-bucket/imagebuilder/install-agent_10:15:00.000000.yaml"))]).
Proof.
  assert (H : inline Example.install_agent (YStr "install-agent")
                Example.install_agent_document).
  { split; [| reflexivity].
    exists [YStr "install-agent"]. repeat split. }
  split; [exact H |].
  split.
  - destruct (inline_component_revision Example.plain (YStr "Linux") []
                Example.two_revisions (initial YNull) H eq_refl eq_refl)
      as [Hplain _].
    rewrite (Hplain eq_refl). reflexivity.
  - destruct (inline_component_revision Example.staged (YStr "Linux") []
                Example.two_revisions (initial YNull) H eq_refl eq_refl)
      as [_ Hstaged].
    rewrite (Hstaged "staging-bucket" eq_refl). reflexivity.
Defined.

(* ------------------------------------------------------------------ *)
(** ** The test for an existing instance profile *)

(** C3.  The resource name is [imagebuilder-] followed by the configured
    name, but the branch is not chosen by it.  With a profile of the derived
    name [imagebuilder-build] listed, the provisioner still makes all the
    creation calls for that name; with only the unrelated profile
    [ec2-image-builder-default] listed, it makes none and returns the
    derived name of a profile that does not exist. *)
Theorem profile_test_ignores_derived_name :
  create_instance_profile Example.plain Example.build_profile "123456789012"
    Example.build_profile_exists (initial Example.definition)
  = (inr "imagebuilder-build",
     after (initial Example.definition)
       [Call in_create_instance_profile
          (iam_list_instance_profiles "/imagebuilder/");
        Call in_create_instance_profile
          (iam_create_instance_profile "imagebuilder-build" "/imagebuilder/");
        Call in_create_instance_profile
          (iam_create_role "/imagebuilder/" "imagebuilder-build"
             (json_dumps assume_role_policy) "Role for Image Builder");
        Call in_create_instance_profile
          (iam_create_policy "imagebuilder-build" "/imagebuilder/"
             (json_dumps Example.policy_document));
        Call in_create_instance_profile
          (iam_attach_role_policy "imagebuilder-build"
             "policy/imagebuilder-build");
        Call in_create_instance_profile
          (iam_add_role_to_instance_profile "imagebuilder-build"
             "imagebuilder-build")])
  /\ create_instance_profile Example.plain Example.build_profile "123456789012"
       Example.default_profile_exists (initial Example.definition)
     = (inr "imagebuilder-build",
        after (initial Example.definition)
          [Call in_create_instance_profile
             (iam_list_instance_profiles "/imagebuilder/")]).
Proof.
  split; reflexivity.
Qed.

(* ------------------------------------------------------------------ *)
(** ** The instance-profile provisioner *)






(* ------------------------------------------------------------------ *)
(** ** Provisioners that are idempotent by name *)

(** C7.  When the listing by name returns a configuration, the
    infrastructure and the distribution provisioner return the identifier of
    the first one listed and make no other call.  When the listing is empty
    they make one create call and return what it returns (or raise what it
    raises); the infrastructure provisioner first stores the instance
    profile in the definition under [instanceProfileName] and sends the
    definition so extended. *)
Theorem configuration_reused_or_created
  (instance_profile : yaml) (infrastructure_def : ref) (d : dict) (name : yaml)
  (w : World) (s : state) :
  dict_lookup "name" d = Some name ->
  (yaml_at (pipeline_dict s) infrastructure_def = Some (YDict d) ->
   let listing :=
     Call in_create_infrastructure_config
       (ib_list_infrastructure_configurations name) in
   let create :=
     ib_create_infrastructure_configuration
       (dict_set "instanceProfileName" instance_profile d) in
   (forall existing others,
       respond w (trace s) (ib_list_infrastructure_configurations name)
       = inr (existing :: others) ->
       create_infrastructure_config instance_profile infrastructure_def w s
       = (inr existing, after s [listing]))
   /\ (respond w (trace s) (ib_list_infrastructure_configurations name)
       = inr [] ->
       create_infrastructure_config instance_profile infrastructure_def w s
       = (respond w (trace s ++ [listing])%list create,
          {| trace :=
               (trace s
                ++ [listing; Call in_create_infrastructure_config create])%list;
             pipeline_dict :=
               yaml_update_at (pipeline_dict s) infrastructure_def
                 (setitem "instanceProfileName" instance_profile) |})))
  /\ (let listing :=
        Call in_create_distribution_configuration
          (ib_list_distribution_configurations name) in
      let create := ib_create_distribution_configuration d in
      (forall existing others,
          respond w (trace s) (ib_list_distribution_configurations name)
          = inr (existing :: others) ->
          create_distribution_configuration (YDict d) w s
          = (inr existing, after s [listing]))
      /\ (respond w (trace s) (ib_list_distribution_configurations name)
          = inr [] ->
          create_distribution_configuration (YDict d) w s
          = (respond w (trace s ++ [listing])%list create,
             after s
               [listing; Call in_create_distribution_configuration create]))).
Proof.
  intros Hname. split.
  - intros Hat. cbv zeta.
    unfold create_infrastructure_config; cbv zeta.
    assert (Hitem :
              forall (B : Type) (f : yaml -> M B),
                bind (ref_item infrastructure_def "name") f w s = f name w s).
    { intros B f. unfold bind, ref_item. rewrite Hat. simpl. now rewrite Hname. }
    rewrite Hitem, bind_remote.
    split.
    + intros existing others Hlist. now rewrite Hlist.
    + intros Hlist. rewrite Hlist.
      unfold bind at 1, ref_setitem. simpl pipeline_dict. rewrite Hat.
      unfold bind, ref_kwargs. simpl pipeline_dict.
      rewrite (yaml_at_update (setitem "instanceProfileName" instance_profile)
                 infrastructure_def _ Hat).
      unfold remote. simpl. now rewrite <- app_assoc.
  - cbv zeta. unfold create_distribution_configuration; cbv zeta.
    rewrite bind_lift. simpl py_getitem. rewrite Hname, bind_remote.
    split.
    + intros existing others Hlist. now rewrite Hlist.
    + intros Hlist. rewrite Hlist.
      rewrite bind_lift. simpl py_kwargs. cbv iota.
      rewrite remote_after, after_after. reflexivity.
Qed.

Lemma configuration_reused_or_created_witness :
  create_infrastructure_config (YStr "EC2InstanceProfile")
    ["infrastructure-configuration"] Example.fresh
    (initial Example.definition)
  = (inr "infrastructure-configuration/new",
     {| trace :=
          [Call in_create_infrastructure_config
             (ib_list_infrastructure_configurations
                (YStr "base-infrastructure"));
           Call in_create_infrastructure_config
             (ib_create_infrastructure_configuration
                [("name", YStr "base-infrastructure");
                 ("instanceTypes", YList [YStr "t3.small"]);
                 ("instanceProfileName", YStr "EC2InstanceProfile")])];
        pipeline_dict :=
          yaml_update_at Example.definition ["infrastructure-configuration"]
            (setitem "instanceProfileName" (YStr "EC2InstanceProfile")) |})
  /\ create_infrastructure_config (YStr "EC2InstanceProfile")
       ["infrastructure-configuration"] Example.configured
       (initial Example.definition)
     = (inr "infrastructure-configuration/existing",
        after (initial Example.definition)
          [Call in_create_infrastructure_config
             (ib_list_infrastructure_configurations
                (YStr "base-infrastructure"))])
  /\ create_distribution_configuration Example.base_distribution
       Example.fresh (initial Example.definition)
     = (inr "distribution-configuration/new",
        after (initial Example.definition)
          [Call in_create_distribution_configuration
             (ib_list_distribution_configurations (YStr "base-distribution"));
           Call in_create_distribution_configuration
             (ib_create_distribution_configuration
                [("name", YStr "base-distribution");
                 ("distributions", YList [])])])
  /\ create_distribution_configuration Example.base_distribution
       Example.configured (initial Example.definition)
     = (inr "distribution-configuration/existing",
        after (initial Example.definition)
          [Call in_create_distribution_configuration
             (ib_list_distribution_configurations
                (YStr "base-distribution"))]).
Proof.
  pose (d := [("name", YStr "base-infrastructure");
              ("instanceTypes", YList [YStr "t3.small"])]).
  pose (d' := [("name", YStr "base-distribution");
               ("distributions", YList [])]).
  split; [| split; [| split]].
  3: { destruct (configuration_reused_or_created YNull [] d' Example.fresh
                   (initial Example.definition) eq_refl)
         as [_ [_ Hcreate]].
       unfold Example.base_distribution. unfold d' in Hcreate.
       rewrite (Hcreate eq_refl).
       reflexivity. }
  3: { destruct (configuration_reused_or_created YNull [] d'
                   Example.configured (initial Example.definition) eq_refl)
         as [_ [Hreuse _]].
       unfold Example.base_distribution. unfold d' in Hreuse.
       rewrite (Hreuse "distribution-configuration/existing" [] eq_refl).
       reflexivity. }
  - destruct (configuration_reused_or_created (YStr "EC2InstanceProfile")
                ["infrastructure-configuration"] d Example.fresh
                (initial Example.definition) eq_refl) as [Hinfra _].
    destruct (Hinfra eq_refl) as [_ Hcreate].
    rewrite (Hcreate eq_refl). reflexivity.
  - destruct (configuration_reused_or_created (YStr "EC2InstanceProfile")
                ["infrastructure-configuration"] d Example.configured
                (initial Example.definition) eq_refl) as [Hinfra _].
    destruct (Hinfra eq_refl) as [Hreuse _].
    rewrite (Hreuse "infrastructure-configuration/existing" [] eq_refl).
    reflexivity.
Defined.

(* ------------------------------------------------------------------ *)
(** ** The pipeline provisioner *)

(** C8.  When the listing by name returns a pipeline, the first one listed
    is deleted, and only after the deletion has succeeded is the pipeline
    created; what the method returns is what the create call returns, never
    the identifier that was listed.  When the deletion raises, no pipeline
    is created. *)
Theorem existing_pipeline_deleted_before_create
  (pipeline_name : yaml) (recipe infrastructure distribution : string)
  (existing : string) (others : list string) (w : World) (s : state) :
  respond w (trace s) (ib_list_image_pipelines pipeline_name)
  = inr (existing :: others) ->
  let listing :=
    Call in_create_image_pipeline (ib_list_image_pipelines pipeline_name) in
  let deletion :=
    Call in_create_image_pipeline (ib_delete_image_pipeline existing) in
  let create :=
    ib_create_image_pipeline pipeline_name pipeline_name recipe infrastructure
      distribution in
  create_image_pipeline pipeline_name recipe infrastructure distribution w s
  = match respond w (trace s ++ [listing])%list
            (ib_delete_image_pipeline existing) with
    | inl e => (inl e, after s [listing; deletion])
    | inr _ =>
        (respond w (trace s ++ [listing; deletion])%list create,
         after s [listing; deletion; Call in_create_image_pipeline create])
    end.
Proof.
  intros Hlist. cbv zeta.
  unfold create_image_pipeline; cbv zeta.
  rewrite bind_remote, Hlist.
  rewrite bind_remote, after_after. simpl.
  destruct (respond w _ (ib_delete_image_pipeline existing)); [reflexivity |].
  rewrite remote_after, after_after. reflexivity.
Qed.

Lemma existing_pipeline_deleted_before_create_witness :
  create_image_pipeline (YStr "base-pipeline") "image-recipe/new"
    "infrastructure-configuration/new" "distribution-configuration/new"
    Example.configured (initial Example.definition)
  = (inr "image-pipeline/new",
     after (initial Example.definition)
       [Call in_create_image_pipeline
          (ib_list_image_pipelines (YStr "base-pipeline"));
        Call in_create_image_pipeline
          (ib_delete_image_pipeline "image-pipeline/existing");
        Call in_create_image_pipeline
          (ib_create_image_pipeline (YStr "base-pipeline")
             (YStr "base-pipeline") "image-recipe/new"
             "infrastructure-configuration/new"
             "distribution-configuration/new")]).
Proof.
  rewrite (existing_pipeline_deleted_before_create (YStr "base-pipeline")
             "image-recipe/new" "infrastructure-configuration/new"
             "distribution-configuration/new" (existing := "image-pipeline/existing")
             (others := []) Example.configured (initial Example.definition)
             eq_refl).
  reflexivity.
Defined.

(* ------------------------------------------------------------------ *)
(** ** Stages that always call *)

Lemma calls_on_success_remote (R : Type) (m : method) (c : api R) :
  calls_on_success m (remote m c).
Proof.
  intros w s. destruct (fst (remote m c w s)); [exact I |].
  exists [Call m c]. split; [reflexivity | now constructor].
Qed.

Lemma calls_on_success_first {A B : Type}
  (P : event -> Prop) (m : method) (f : M A) (g : A -> M B) :
  calls_on_success m f ->
  (forall a, respects (extends P) (g a)) ->
  calls_on_success m (bind f g).
Proof.
  intros Hf Hg w s. unfold bind.
  specialize (Hf w s).
  destruct (f w s) as [[e | a] s1]; simpl in *; [exact I |].
  destruct Hf as (evs & Htrace & Hruns).
  destruct (Hg a w s1) as [later [Hlater _]].
  destruct (g a w s1) as [[e | b] s2]; simpl in *; [exact I |].
  exists (evs ++ later)%list. split.
  - now rewrite Hlater, Htrace, app_assoc.
  - apply Exists_app. now left.
Qed.

Lemma calls_on_success_later {A B : Type}
  (P : event -> Prop) (m : method) (f : M A) (g : A -> M B) :
  respects (extends P) f ->
  (forall a, calls_on_success m (g a)) ->
  calls_on_success m (bind f g).
Proof.
  intros Hf Hg w s. unfold bind.
  destruct (Hf w s) as [before [Hbefore _]].
  destruct (f w s) as [[e | a] s1]; simpl in *; [exact I |].
  specialize (Hg a w s1).
  destruct (g a w s1) as [[e | b] s2]; simpl in *; [exact I |].
  destruct Hg as (evs & Htrace & Hruns).
  exists (before ++ evs)%list. split.
  - now rewrite Htrace, Hbefore, app_assoc.
  - apply Exists_app. now right.
Qed.

(** The call that makes a method one that always calls, found by following
    its body up to the first remote call. *)
Ltac first_call :=
  cbv zeta;
  repeat
    match goal with
    | |- calls_on_success _ (remote _ _) => apply calls_on_success_remote
    | |- calls_on_success _ (bind (remote _ _) _) =>
        apply calls_on_success_first with (P := fun _ => True);
        [apply calls_on_success_remote
        | intros; apply stage_extends; solve [stage]]
    | |- calls_on_success _ (bind _ _) =>
        apply calls_on_success_later with (P := fun _ => True);
        [apply stage_extends; solve [stage] | intros]
    end.

Lemma create_image_recipe_calls (component_arns : list yaml) (recipe_def : yaml) :
  calls_on_success in_create_image_recipe
    (create_image_recipe component_arns recipe_def).
Proof. unfold create_image_recipe. first_call. Qed.

Lemma create_distribution_configuration_calls (distribution_def : yaml) :
  calls_on_success in_create_distribution_configuration
    (create_distribution_configuration distribution_def).
Proof. unfold create_distribution_configuration. first_call. Qed.

Lemma create_image_pipeline_calls
  (pipeline_name : yaml) (recipe infrastructure distribution : string) :
  calls_on_success in_create_image_pipeline
    (create_image_pipeline pipeline_name recipe infrastructure distribution).
Proof. unfold create_image_pipeline. first_call. Qed.

Lemma create_instance_profile_calls
  (self : CreateImagePipeline) (profile_dict : yaml) (account_id : string) :
  calls_on_success in_create_instance_profile
    (create_instance_profile self profile_dict account_id).
Proof. unfold create_instance_profile. first_call. Qed.

Lemma create_infrastructure_config_calls
  (instance_profile : yaml) (infrastructure_def : ref) :
  calls_on_success in_create_infrastructure_config
    (create_infrastructure_config instance_profile infrastructure_def).
Proof.
  pose (P := fun _ : event => True).
  unfold create_infrastructure_config; cbv zeta.
  apply calls_on_success_later with (P := P);
    [apply respects_ref_item, extends_refl | intros name].
  apply calls_on_success_first with (P := P);
    [apply calls_on_success_remote | intros response].
  destruct response as [| existing others];
    [| apply respects_ret, extends_refl].
  apply respects_bind; [apply extends_trans | | intros _].
  { intros w s. unfold ref_setitem.
    destruct (yaml_at (pipeline_dict s) infrastructure_def) as [[| | | | |] |];
      exists []; simpl; now rewrite app_nil_r. }
  apply respects_bind; [apply extends_trans | | intros kwargs].
  { apply respects_ref_kwargs, extends_refl. }
  intros w s. exists [Call in_create_infrastructure_config
                        (ib_create_infrastructure_configuration kwargs)].
  split; [reflexivity | now constructor].
Qed.

Lemma runs_app_left (m : method) (before later : list event) :
  runs m before -> runs m (before ++ later).
Proof. intros H. apply Exists_app. now left. Qed.

Lemma runs_app_right (m : method) (before later : list event) :
  runs m later -> runs m (before ++ later).
Proof. intros H. apply Exists_app. now right. Qed.

Lemma runs_extends (P : event -> Prop) (m : method) (s s' : state) :
  runs m (trace s) -> extends P s s' -> runs m (trace s').
Proof.
  intros H [evs [Htrace _]]. rewrite Htrace. now apply runs_app_left.
Qed.

(** A step of [run] that is a method which calls whenever it returns. *)
Lemma hoare_calling {A B : Type}
  (R : state -> state -> Prop) (m : method) (I I' : state -> Prop)
  (f : M A) (g : A -> M B) (Q : result B -> state -> Prop) :
  calls_on_success m f ->
  respects R f ->
  (forall s s',
      I s -> R s s' ->
      (exists evs, trace s' = (trace s ++ evs)%list /\ runs m evs) ->
      I' s') ->
  (forall e s, Q (inl e) s) ->
  (forall a, hoare I' (g a) Q) ->
  hoare I (bind f g) Q.
Proof.
  intros Hcalls HR HI HQ Hg.
  apply hoare_bind with (Mid := fun _ => I'); [| exact Hg].
  intros w s Hs. specialize (Hcalls w s). specialize (HR w s).
  destruct (fst (f w s)); [apply HQ |].
  eapply HI; eassumption.
Qed.

(** The instance-profile step on a definition that is still as loaded. *)
Lemma instance_profile_step_calls
  (self : CreateImagePipeline) (account_id : string) (definition : yaml)
  (w : World) (s : state) :
  pipeline_dict s = definition ->
  let s' := snd (instance_profile_step self account_id w s) in
  extends (from in_create_instance_profile) s s'
  /\ match fst (instance_profile_step self account_id w s) with
     | inl _ => True
     | inr _ =>
         names_policy_file definition ->
         exists evs,
           trace s' = (trace s ++ evs)%list
           /\ runs in_create_instance_profile evs
     end.
Proof.
  intros Hloaded. cbv zeta. split.
  { apply (stage_extends (instance_profile_step_stage self account_id)). }
  unfold instance_profile_step.
  rewrite bind_pipeline_item, Hloaded.
  destruct (py_getitem definition (YStr "instance-profile"))
    as [e | profile] eqn:Hprofile; [exact I |].
  rewrite bind_lift.
  destruct (py_get profile "file") as [e | file] eqn:Hfile; [exact I |].
  destruct (is_not_None file) eqn:Hnone.
  - rewrite bind_pipeline_item, Hloaded, Hprofile.
    assert (Hcalls :
              calls_on_success in_create_instance_profile
                (resource_name <-
                   create_instance_profile self profile account_id ;;
                 ret (YStr resource_name))).
    { apply calls_on_success_first with (P := fun _ => True).
      - apply create_instance_profile_calls.
      - intros resource_name. apply respects_ret, extends_refl. }
    specialize (Hcalls w s).
    destruct (fst _); [exact I | intros _; exact Hcalls].
  - destruct (fst _); [exact I |].
    intros (profile' & file' & Hprofile' & Hfile' & Hsome).
    rewrite Hprofile' in Hprofile. injection Hprofile as ->.
    rewrite Hfile' in Hfile. injection Hfile as ->.
    rewrite Hsome in Hnone. discriminate Hnone.
Qed.

(** A step of [run] that keeps what has been established of the calls so
    far ([J]) and, while [D] asks for it, the loaded definition. *)
Ltac settled :=
  unfold after_pipeline, after_distribution, after_infrastructure,
    after_profile, after_recipe in *;
  repeat match goal with
         | H : _ /\ _ |- _ => destruct H
         end;
  repeat split; auto using runs_app_left.

Ltac passing_step J definition :=
  eapply hoare_step
    with (R := stage_step _)
         (I' := fun s => J (trace s) /\ pipeline_dict s = definition);
  [ any_stage
  | intros ? ? [? Hloaded] [[? [Htrace _]] Hsame]; split;
    [ rewrite Htrace; settled | rewrite Hsame; exact Hloaded ]
  | intros; exact I
  | intros ].

Ltac passed_step J :=
  eapply hoare_step with (R := stage_step _) (I' := fun s => J (trace s));
  [ any_stage
  | intros ? ? ? [[? [Htrace _]] _]; rewrite Htrace; settled
  | intros; exact I
  | intros ].

(** Every run that completes has been through the image recipe, the
    instance profile if a policy file is configured, both configurations
    and the pipeline. *)
Lemma run_visits_stages (self : CreateImagePipeline) (definition : yaml) :
  hoare (fun s => pipeline_dict s = definition) (run self)
    (fun r s =>
       match r with
       | inl _ => True
       | inr _ => stages_ran definition (trace s)
       end).
Proof.
  pose (J0 := fun _ : list event => True).
  apply hoare_conseq
    with (P := fun s => J0 (trace s) /\ pipeline_dict s = definition)
         (Q := fun r s => match r with
                          | inl _ => True
                          | inr _ => after_pipeline definition (trace s)
                          end).
  { intros s Hs. now split. }
  { intros [e | a] s; [trivial |].
    unfold after_pipeline, after_distribution, after_infrastructure,
      after_profile, after_recipe, stages_ran.
    tauto. }
  unfold run, provision.
  do 7 passing_step J0 definition.
  (* the image recipe *)
  eapply hoare_calling
    with (R := same_definition)
         (I' := fun s => after_recipe (trace s) /\ pipeline_dict s = definition);
    [ apply create_image_recipe_calls
    | eapply stage_keeps; any_stage
    | intros s s' [_ Hloaded] Hsame (evs & Htrace & Hruns); split;
      [ rewrite Htrace; now apply runs_app_right
      | rewrite Hsame; exact Hloaded ]
    | intros; exact I
    | intros recipe_arn ].
  (* the instance profile *)
  eapply hoare_bind
    with (Mid := fun _ s => after_profile definition (trace s) /\ pipeline_dict s = definition).
  { intros w s [Hrecipe Hloaded].
    destruct (instance_profile_step_calls self (Account (caller_id a)) w s
                Hloaded) as [Hextends Hcalls].
    pose proof (instance_profile_step_stage self (Account (caller_id a)) w s)
      as [_ Hsame].
    destruct (fst _); [exact I |].
    split; [| now rewrite Hsame].
    destruct Hextends as [evs [Htrace _]]. split.
    - rewrite Htrace. now apply runs_app_left.
    - intros Hfile. destruct (Hcalls Hfile) as (evs' & Htrace' & Hruns).
      rewrite Htrace'. now apply runs_app_right. }
  intros instance_profile_name.
  passing_step (after_profile definition) definition.
  (* the infrastructure configuration *)
  eapply hoare_calling
    with (R := extends (from in_create_infrastructure_config))
         (I' := fun s => after_infrastructure definition (trace s));
    [ apply create_infrastructure_config_calls
    | intros w s; eapply infrastructure_step_stage,
        create_infrastructure_config_step
    | intros s s' [HJ _] _ (evs & Htrace & Hruns); split;
      [ rewrite Htrace; settled | rewrite Htrace; now apply runs_app_right ]
    | intros; exact I
    | intros infrastructure_arn ].
  passed_step (after_infrastructure definition).
  (* the distribution configuration *)
  eapply hoare_calling
    with (R := same_definition) (I' := fun s => after_distribution definition (trace s));
    [ apply create_distribution_configuration_calls
    | eapply stage_keeps; any_stage
    | intros s s' HJ _ (evs & Htrace & Hruns); split;
      [ rewrite Htrace; settled | rewrite Htrace; now apply runs_app_right ]
    | intros; exact I
    | intros distribution_arn ].
  passed_step (after_distribution definition).
  (* the pipeline *)
  eapply hoare_calling
    with (R := same_definition) (I' := fun s => after_pipeline definition (trace s));
    [ apply create_image_pipeline_calls
    | eapply stage_keeps; any_stage
    | intros s s' HJ _ (evs & Htrace & Hruns); split;
      [ rewrite Htrace; settled | rewrite Htrace; now apply runs_app_right ]
    | intros; exact I
    | intros pipeline_arn ].
  eapply hoare_last with (R := stage_step (from in_start_image_pipeline)).
  - any_stage.
  - intros [e | u] s s' HJ [[evs [Htrace _]] _]; [exact I |].
    rewrite Htrace. settled.
Qed.

(* ------------------------------------------------------------------ *)
(** ** The order of the stages in a run *)

Lemma from_origin (m : method) (e : event) : from m e -> origin_of e = m.
Proof. destruct e as [m' R c]. simpl. now intros [-> _]. Qed.

Lemma forward_app (order : method -> nat) (k : nat) (before later : list event) :
  forward order before ->
  Forall (fun e => order (origin_of e) <= k) before ->
  Forall (fun e => order (origin_of e) = k) later ->
  forward order (before ++ later).
Proof.
  unfold forward. intros Hsorted Hbound Hlater.
  induction before as [| a before IH]; simpl.
  - induction later as [| b later IHl]; constructor.
    + apply IHl. now inversion Hlater.
    + inversion Hlater as [| ? ? Hb Hrest]; subst.
      eapply Forall_impl; [| exact Hrest].
      intros c Hc. simpl in Hc. lia.
  - apply StronglySorted_inv in Hsorted. destruct Hsorted as [Hs Ha].
    inversion Hbound as [| ? ? Hka Hkb]; subst.
    constructor.
    + now apply IH.
    + apply Forall_app. split; [exact Ha |].
      eapply Forall_impl; [| exact Hlater].
      intros c Hc. simpl in Hc. lia.
Qed.

(** A stage at position [code_order m], entered when nothing beyond
    position [k] has run, keeps the calls in order. *)
Lemma ordered_step (k : nat) (m : method) (s s' : state) :
  k <= code_order m ->
  ordered k s ->
  extends (from m) s s' ->
  ordered (code_order m) s'.
Proof.
  intros Hk [Hforward Hbound] [evs [Htrace Hfrom]].
  assert (Hlater : Forall (fun e => code_order (origin_of e) = code_order m) evs).
  { eapply Forall_impl; [| exact Hfrom].
    intros e He. now rewrite (from_origin m e He). }
  unfold ordered. rewrite Htrace. split.
  - eapply forward_app; [exact Hforward | | exact Hlater].
    eapply Forall_impl; [| exact Hbound]. intros e He. simpl in He. lia.
  - apply Forall_app. split.
    + eapply Forall_impl; [| exact Hbound]. intros e He. simpl in He. lia.
    + eapply Forall_impl; [| exact Hlater]. intros e He. simpl in He. lia.
Qed.

(** One step of [run] that belongs to the stage of method [m]. *)
Ltac ordered_stage m :=
  eapply hoare_step
    with (R := stage_step (from m)) (I' := ordered (code_order m));
  [ try solve [stage]
  | intros ? ? ? [? _]; eapply ordered_step; [| eassumption | eassumption];
    simpl; lia
  | intros ? ? [? _]; assumption
  | intros ].

(** C2 (as the code has it).  In every run, whatever the remote side
    answers, the calls come from the methods in the order in which [run]
    invokes them: session details, teardown, components, image recipe,
    instance profile, infrastructure configuration, distribution
    configuration, pipeline, pipeline start; once a later method has made a
    call, no earlier method makes one.  In a run that completes, the image
    recipe, the instance profile (when a policy file is configured), the
    infrastructure configuration, the distribution configuration and the
    pipeline stage have each made a call. *)
Theorem stages_run_forward
  (self : CreateImagePipeline) (w : World) (definition : yaml) :
  forward code_order (calls (run self) w definition)
  /\ (forall r,
         outcome (run self) w definition = inr r ->
         stages_ran definition (calls (run self) w definition)).
Proof.
  split.
  2: { intros r Hr.
       pose proof (run_visits_stages self w (s := initial definition) eq_refl)
         as Hvisits.
       unfold outcome in Hr. rewrite Hr in Hvisits. exact Hvisits. }
  assert (H : hoare (ordered 0) (run self)
                (fun _ s => forward code_order (trace s))).
  { unfold run, provision.
    ordered_stage in_get_session_details; [apply get_session_details_stage |].
    ordered_stage in_get_session_details.
    ordered_stage in_delete_pipeline_resources;
      [destruct (update self);
       [apply delete_pipeline_resources_stage | stage] |].
    ordered_stage in_create_components.
    ordered_stage in_create_components.
    ordered_stage in_create_components; [apply create_components_stage |].
    ordered_stage in_create_image_recipe.
    ordered_stage in_create_image_recipe; [apply create_image_recipe_stage |].
    ordered_stage in_create_instance_profile;
      [apply instance_profile_step_stage |].
    ordered_stage in_create_infrastructure_config.
    eapply hoare_infrastructure
      with (I' := ordered (code_order in_create_infrastructure_config));
      [ intros s s' Hs Hstep; apply infrastructure_step_stage in Hstep;
        eapply ordered_step; [| exact Hs | exact Hstep]; simpl; lia
      | intros ? ? [? _]; assumption
      | intros infrastructure_arn ].
    ordered_stage in_create_distribution_configuration.
    ordered_stage in_create_distribution_configuration;
      [apply create_distribution_configuration_stage |].
    ordered_stage in_create_image_pipeline.
    ordered_stage in_create_image_pipeline;
      [apply create_image_pipeline_stage |].
    eapply hoare_last with (R := stage_step (from in_start_image_pipeline)).
    - destruct (start_pipeline self); stage.
      apply start_image_pipeline_stage.
    - intros r s s' Hs [Hstep _].
      eapply ordered_step in Hstep; [apply Hstep | | exact Hs]. simpl; lia. }
  apply (H w (initial definition)).
  split; constructor.
Qed.

Lemma stages_run_forward_witness :
  forward code_order
    (calls (run Example.plain) Example.fresh Example.definition_with_policy)
  /\ stages_ran Example.definition_with_policy
       (calls (run Example.plain) Example.fresh
          Example.definition_with_policy).
Proof.
  destruct (stages_run_forward Example.plain Example.fresh
              Example.definition_with_policy) as [Hforward Hran].
  split; [exact Hforward | apply (Hran tt); reflexivity].
Defined.

Lemma forward_forwardb (order : method -> nat) (calls : list event) :
  forward order calls -> forwardb order calls = true.
Proof.
  unfold forward. induction 1 as [| a later Hsorted IH Hall]; simpl.
  - reflexivity.
  - rewrite IH, andb_true_r. apply forallb_forall.
    intros b Hb. rewrite Forall_forall in Hall.
    apply Nat.leb_le. now apply Hall.
Qed.

(** C2, as stated, fails: with a policy file configured, the image recipe
    is created before the instance profile is provisioned, so the calls are
    not in the order  components, instance profile, image recipe. *)
Lemma stages_numbered_order_counterexample :
  ~ forward numbered_order
      (calls (run Example.plain) Example.fresh Example.definition_with_policy).
Proof.
  intros H. apply forward_forwardb in H. vm_compute in H. discriminate H.
Qed.

(** The calls of that run. *)
Example calls_with_policy :
  map origin_of
    (calls (run Example.plain) Example.fresh Example.definition_with_policy)
  = [in_get_session_details; in_get_session_details;
     in_create_components; in_create_components; in_create_components;
     in_create_image_recipe; in_create_image_recipe;
     in_create_instance_profile; in_create_instance_profile;
     in_create_instance_profile; in_create_instance_profile;
     in_create_instance_profile; in_create_instance_profile;
     in_create_infrastructure_config; in_create_infrastructure_config;
     in_create_distribution_configuration;
     in_create_distribution_configuration;
     in_create_image_pipeline; in_create_image_pipeline].
Proof. reflexivity. Qed.

(* ------------------------------------------------------------------ *)
(** ** Writes to the loaded definition *)

(** C4, as stated, fails: after a run in an account without the
    infrastructure configuration, the loaded definition is not the one that
    was loaded. *)
Lemma definition_mutated_counterexample :
  definition_after (run Example.plain) Example.fresh Example.definition
  <> Example.definition.
Proof.
  vm_compute. intros H. discriminate H.
Qed.

(** One step of [run] that leaves the loaded definition alone. *)
Ltac kept_stage I :=
  eapply hoare_step with (R := same_definition) (I' := I);
  [ eapply stage_keeps; any_stage
  | unfold same_definition, unwritten, profile_written;
    intros ? ? ? Hsame; rewrite Hsame; assumption
  | unfold unwritten, profile_written; auto
  | intros ].

(** C4 (as the code has it).  A run writes to the loaded definition in one
    place at most: the infrastructure provisioner stores the instance
    profile under the key [instanceProfileName] of the
    [infrastructure-configuration] mapping.  Everything else is, after the
    run, as it was loaded. *)
Theorem definition_written_by_infrastructure_only
  (self : CreateImagePipeline) (w : World) (definition : yaml) :
  definition_after (run self) w definition = definition
  \/ exists instance_profile,
      definition_after (run self) w definition
      = yaml_update_at definition ["infrastructure-configuration"]
          (setitem "instanceProfileName" instance_profile).
Proof.
  assert (H : hoare (unwritten definition) (run self)
                (fun _ s => profile_written definition s)).
  { unfold run, provision.
    do 10 kept_stage (unwritten definition).
    eapply hoare_infrastructure with (I' := profile_written definition);
      [ | auto | intros infrastructure_arn ].
    { unfold unwritten, profile_written.
      intros s s' Hs (_ & _ & _ & _ & [Hsame | Hwrite]).
      - left. now rewrite Hsame.
      - right. eexists. rewrite Hwrite, Hs. reflexivity. }
    do 4 kept_stage (profile_written definition).
    eapply hoare_last with (R := same_definition).
    - eapply stage_keeps; any_stage.
    - unfold same_definition, profile_written. intros r s s' Hs Hsame.
      now rewrite Hsame. }
  apply (H w (initial definition)). reflexivity.
Qed.

(* ------------------------------------------------------------------ *)
(** ** A definition without a required key *)

(** C1, as stated, fails: on a definition without [image-recipe] the run
    does end with the key error, but only after the session has been looked
    up and the components have been resolved and created remotely. *)
Lemma missing_key_found_late_counterexample :
  py_getitem Example.definition_without_recipe (YStr "image-recipe")
  = inl (KeyError (YStr "image-recipe"))
  /\ outcome (run Example.plain) Example.fresh Example.definition_without_recipe
     = inl (KeyError (YStr "image-recipe"))
  /\ calls (run Example.plain) Example.fresh Example.definition_without_recipe
     = [Call in_get_session_details sts_get_caller_identity;
        Call in_get_session_details iam_list_account_aliases;
        Call in_create_components
          (ib_list_components "Self" (YStr "install-agent"));
        Call in_create_components
          (ib_create_component (YStr "install-agent") "0.0.1"
             (YStr "Install the agent") (YStr "Linux")
             (data (yaml_safe_dump Example.install_agent_document)));
        Call in_create_components
          (ib_get_component (YStr Example.update_linux_arn))].
Proof.
  repeat split.
Qed.

Lemma lacks_same_definition (k : string) (s s' : state) :
  lacks k s -> same_definition s s' -> lacks k s'.
Proof.
  unfold lacks, same_definition. intros Hs Hsame. now rewrite Hsame.
Qed.

Lemma lacks_infrastructure_step
  (k : string) (instance_profile : yaml) (s s' : state) :
  lacks k s ->
  infrastructure_step instance_profile ["infrastructure-configuration"] s s' ->
  lacks k s'.
Proof.
  intros (d & Hd & Hk) (_ & _ & _ & _ & [Hsame | Hwrite]); unfold lacks.
  - exists d. now rewrite Hsame.
  - rewrite Hwrite, Hd. simpl.
    destruct (dict_lookup "infrastructure-configuration" d) as [v |] eqn:E.
    + eexists. split; [reflexivity |].
      eapply dict_lookup_set_present; eassumption.
    + now exists d.
Qed.

Lemma session_first_extends (P : event -> Prop) (s s' : state) :
  session_first (trace s) -> extends P s s' -> session_first (trace s').
Proof.
  intros [later Hs] [evs [Htrace _]].
  exists (later ++ evs)%list. now rewrite Htrace, Hs.
Qed.

Lemma get_session_details_first (w : World) (s : state) :
  trace s = [] ->
  session_first (trace (snd (get_session_details w s)))
  /\ pipeline_dict (snd (get_session_details w s)) = pipeline_dict s.
Proof.
  intros Hempty. unfold get_session_details.
  rewrite bind_remote.
  destruct (respond w (trace s) sts_get_caller_identity) as [e | caller].
  - simpl. rewrite Hempty. split; [now exists [] | reflexivity].
  - rewrite bind_remote.
    destruct (respond w _ iam_list_account_aliases); simpl; rewrite Hempty;
      (split; [eexists; reflexivity | reflexivity]).
Qed.

(** Reading a key from a definition that lacks [k]: the read raises when
    the key is [k], and the run goes on otherwise. *)
Lemma hoare_item_lacking {B : Type}
  (k k' : string) (J : state -> Prop) (f : yaml -> M B)
  (Q : result B -> state -> Prop) :
  (forall e s, J s -> Q (inl e) s) ->
  (k' <> k -> forall a, hoare (fun s => lacks k s /\ J s) (f a) Q) ->
  hoare (fun s => lacks k s /\ J s) (bind (pipeline_item k') f) Q.
Proof.
  intros HQ Hf w s [Hlacks HJ].
  rewrite bind_pipeline_item.
  destruct (py_getitem (pipeline_dict s) (YStr k')) as [e | a] eqn:E.
  - now apply HQ.
  - apply Hf; [| now split].
    intros ->. destruct Hlacks as (d & Hd & Hk).
    rewrite Hd in E. simpl in E. rewrite Hk in E. discriminate E.
Qed.

(** The same for the step that reads [instance-profile]. *)
Lemma hoare_profile_lacking {B : Type}
  (k : string) (J : state -> Prop)
  (self : CreateImagePipeline) (account_id : string) (f : yaml -> M B)
  (Q : result B -> state -> Prop) :
  (forall e s, J s -> Q (inl e) s) ->
  (forall s s', J s -> extends (from in_create_instance_profile) s s' -> J s') ->
  ("instance-profile" <> k ->
   forall a, hoare (fun s => lacks k s /\ J s) (f a) Q) ->
  hoare (fun s => lacks k s /\ J s)
    (bind (instance_profile_step self account_id) f) Q.
Proof.
  intros HQ HJ Hf.
  destruct (string_dec "instance-profile" k) as [<- | Hne].
  - intros w s [(d & Hd & Hk) Hs].
    unfold instance_profile_step.
    rewrite bind_assoc, bind_pipeline_item, Hd. simpl. rewrite Hk.
    now apply HQ.
  - eapply hoare_step
      with (R := stage_step (from in_create_instance_profile))
           (I' := fun s => lacks k s /\ J s).
    + apply instance_profile_step_stage.
    + intros s s' [Hlacks Hs] [Hextends Hsame]. split.
      * eapply lacks_same_definition; eassumption.
      * eapply HJ; eassumption.
    + intros e s [_ Hs]. now apply HQ.
    + now apply Hf.
Qed.

(** One step of [run] that is a method making calls of its own. *)
Ltac lacking_stage k :=
  eapply hoare_step
    with (R := stage_step _)
         (I' := fun s => lacks k s /\ session_first (trace s));
  [ any_stage
  | intros ? ? [Hlacks Hfirst] [Hextends Hsame]; split;
    [ eapply lacks_same_definition; eassumption
    | eapply session_first_extends; eassumption ]
  | intros ? ? [_ Hfirst]; split; [eexists; reflexivity | exact Hfirst]
  | intros ].

(** One step of [run] that reads a top-level key. *)
Ltac lacking_item :=
  apply hoare_item_lacking;
  [ intros ? ? Hfirst; split; [eexists; reflexivity | exact Hfirst]
  | intros ? ? ].

(** C1 (as the code has it).  A run on a definition that lacks one of the
    seven top-level keys never completes: it ends with an exception,
    whatever the remote side answers.  The exception does not come before
    the remote calls: the first thing every run does is ask the identity
    service who is calling. *)
Theorem missing_key_is_fatal
  (self : CreateImagePipeline) (w : World) (d : dict) (k : string) :
  In k required_keys ->
  dict_lookup k d = None ->
  (exists e, outcome (run self) w (YDict d) = inl e)
  /\ session_first (calls (run self) w (YDict d)).
Proof.
  intros Hrequired Hmissing.
  assert (H : hoare (fun s => lacks k s /\ trace s = []) (run self)
                (fun r s => (exists e, r = inl e) /\ session_first (trace s))).
  { unfold run, provision.
    eapply hoare_bind
      with (Mid := fun _ s => lacks k s /\ session_first (trace s)).
    { intros w0 s [Hlacks Hempty].
      destruct (get_session_details_first w0 s Hempty) as [Hfirst Hsame].
      assert (Hlacks' : lacks k (snd (get_session_details w0 s)))
        by (eapply lacks_same_definition; eassumption).
      destruct (fst _); repeat split; eauto. }
    intros session.
    lacking_stage k.
    lacking_stage k.
    lacking_item.
    lacking_item.
    lacking_stage k.
    lacking_item.
    lacking_stage k.
    apply hoare_profile_lacking;
      [ intros ? ? Hfirst; split; [eexists; reflexivity | exact Hfirst]
      | intros ? ? ? ?; eapply session_first_extends; eassumption
      | intros ? instance_profile_name ].
    lacking_item.
    eapply hoare_infrastructure
      with (I' := fun s => lacks k s /\ session_first (trace s));
      [ intros s s' [Hlacks Hfirst] Hstep; split;
        [ eapply lacks_infrastructure_step; eassumption
        | eapply session_first_extends;
          [exact Hfirst | eapply infrastructure_step_stage; exact Hstep] ]
      | intros ? ? [_ Hfirst]; split; [eexists; reflexivity | exact Hfirst]
      | intros infrastructure_arn ].
    lacking_item.
    lacking_stage k.
    lacking_item.
    exfalso. unfold required_keys in Hrequired. simpl in Hrequired.
    intuition congruence. }
  apply (H w (initial (YDict d))).
  split; [now exists d | reflexivity].
Qed.

Lemma missing_key_is_fatal_witness :
  (exists e,
      outcome (run Example.plain) Example.fresh
        Example.definition_without_recipe = inl e)
  /\ session_first
       (calls (run Example.plain) Example.fresh
          Example.definition_without_recipe).
Proof.
  apply (@missing_key_is_fatal Example.plain Example.fresh _ "image-recipe").
  - simpl. auto.
  - reflexivity.
Defined.

(* ------------------------------------------------------------------ *)
(** * Further properties of the code *)

(** ** The image-recipe provisioner *)

(** X1.  A recipe definition with [name], [description] and [parentImage]
    is never reused: whatever is listed under its name, the calls are the
    listing and one [create_image_recipe] whose answer is the result.  The
    revision is [0.0.(n+1)] for [n] listed revisions, the components are
    passed in the order given, and [blockDeviceMappings] and [tags] are sent
    exactly when the definition has them with a value other than [None]. *)
Theorem image_recipe_always_created
  (component_arns : list yaml) (d : dict)
  (name description parentImage : yaml) (existing : list string)
  (w : World) (s : state) :
  dict_lookup "name" d = Some name ->
  dict_lookup "description" d = Some description ->
  dict_lookup "parentImage" d = Some parentImage ->
  respond w (trace s) (ib_list_image_recipes "Self" name) = inr existing ->
  let listing :=
    Call in_create_image_recipe (ib_list_image_recipes "Self" name) in
  let create :=
    ib_create_image_recipe
      (recipe_kwargs component_arns (List.length existing) name description
         parentImage d) in
  create_image_recipe component_arns (YDict d) w s
  = (respond w (trace s ++ [listing])%list create,
     after s [listing; Call in_create_image_recipe create]).
Proof.
  intros Hname Hdescription Hparent Hlist. cbv zeta.
  unfold create_image_recipe; cbv zeta.
  rewrite bind_lift. simpl py_getitem. rewrite Hname, bind_remote, Hlist.
  rewrite bind_lift. simpl py_getitem. rewrite Hdescription.
  rewrite bind_lift. simpl py_getitem. rewrite Hparent.
  rewrite bind_lift. simpl py_get.
  assert (Hversion :
            semantic_version (List.length existing)
            = "0.0." ++ string_of_nat (List.length existing + 1))
    by (unfold semantic_version; now rewrite Nat.add_comm).
  rewrite Hversion.
  unfold recipe_kwargs, optional.
  destruct (dict_lookup "blockDeviceMappings" d) as [mappings |];
    [destruct (is_not_None mappings) |];
    rewrite bind_lift; simpl py_get;
    (destruct (dict_lookup "tags" d) as [tags |];
     [destruct (is_not_None tags) |]);
    rewrite remote_after, after_after; reflexivity.
Qed.

Lemma image_recipe_always_created_witness :
  create_image_recipe [componentArn (YStr "component/0.0.1")]
    (YDict MoreExamples.base_recipe) MoreExamples.one_recipe
    (initial Example.definition)
  = (inr "image-recipe/new",
     after (initial Example.definition)
       [Call in_create_image_recipe
          (ib_list_image_recipes "Self" (YStr "base-recipe"));
        Call in_create_image_recipe
          (ib_create_image_recipe
             [("name", YStr "base-recipe");
              ("description", YStr "Base image");
              ("components", YList [componentArn (YStr "component/0.0.1")]);
              ("semanticVersion", YStr "0.0.2");
              ("parentImage", YStr "ami-0123456789");
              ("tags", YDict [("team", YStr "build")])])]).
Proof.
  rewrite (@image_recipe_always_created
             [componentArn (YStr "component/0.0.1")] MoreExamples.base_recipe
             (YStr "base-recipe") (YStr "Base image") (YStr "ami-0123456789")
             ["image-recipe/0.0.1"] MoreExamples.one_recipe
             (initial Example.definition) eq_refl eq_refl eq_refl eq_refl).
  reflexivity.
Defined.

(** X2.  A recipe definition without [name] is rejected with the key error
    before any call.  One with a [name] but without [description] or
    [parentImage] is rejected only after the listing under that name has
    been made: the key error names a missing key, and no recipe is
    created. *)
Theorem incomplete_recipe_creates_nothing
  (component_arns : list yaml) (d : dict) (w : World) (s : state) :
  (dict_lookup "name" d = None ->
   create_image_recipe component_arns (YDict d) w s
   = (inl (KeyError (YStr "name")), s))
  /\ (forall name existing k,
         dict_lookup "name" d = Some name ->
         respond w (trace s) (ib_list_image_recipes "Self" name)
         = inr existing ->
         In k ["description"; "parentImage"] ->
         dict_lookup k d = None ->
         exists missing,
           dict_lookup missing d = None
           /\ create_image_recipe component_arns (YDict d) w s
              = (inl (KeyError (YStr missing)),
                 after s
                   [Call in_create_image_recipe
                      (ib_list_image_recipes "Self" name)])).
Proof.
  split.
  - intros Hname. unfold create_image_recipe; cbv zeta.
    rewrite bind_lift. simpl py_getitem. now rewrite Hname.
  - intros name existing k Hname Hlist Hk Hmissing.
    unfold create_image_recipe; cbv zeta.
    rewrite bind_lift. simpl py_getitem. rewrite Hname, bind_remote, Hlist.
    rewrite bind_lift. simpl py_getitem.
    destruct (dict_lookup "description" d) as [description |] eqn:Hdescription.
    + rewrite bind_lift. simpl py_getitem.
      destruct (dict_lookup "parentImage" d) as [parent |] eqn:Hparent.
      * exfalso. simpl in Hk. destruct Hk as [<- | [<- | []]]; congruence.
      * exists "parentImage". now split.
    + exists "description". now split.
Qed.

Lemma incomplete_recipe_creates_nothing_witness :
  create_image_recipe [] (YDict [("description", YStr "Base image")])
    Example.fresh (initial YNull)
  = (inl (KeyError (YStr "name")), initial YNull)
  /\ exists missing,
      dict_lookup missing [("name", YStr "base-recipe")] = None
      /\ create_image_recipe [] (YDict [("name", YStr "base-recipe")])
           Example.fresh (initial YNull)
         = (inl (KeyError (YStr missing)),
            after (initial YNull)
              [Call in_create_image_recipe
                 (ib_list_image_recipes "Self" (YStr "base-recipe"))]).
Proof.
  split.
  - apply (incomplete_recipe_creates_nothing []
             [("description", YStr "Base image")] Example.fresh
             (initial YNull)).
    reflexivity.
  - destruct (incomplete_recipe_creates_nothing []
                [("name", YStr "base-recipe")] Example.fresh (initial YNull))
      as [_ Hlate].
    apply (Hlate (YStr "base-recipe") [] "parentImage"); try reflexivity.
    simpl. auto.
Defined.

(** ** The component resolver *)

(** X3.  A component given by reference whose identifier the lookup reports
    as not found is left out of the result and is no reason to stop: the
    list of resolved components is unchanged after the one lookup, and the
    loop goes on with the remaining components. *)
Theorem component_not_found_is_skipped
  (self : CreateImagePipeline) (platform component arn : yaml)
  (remaining component_list : list yaml) (w : World) (s : state) :
  by_reference component arn ->
  respond w (trace s) (ib_get_component arn) = inl ResourceNotFoundException ->
  let lookup := Call in_create_components (ib_get_component arn) in
  create_component self platform component component_list w s
  = (inr component_list, after s [lookup])
  /\ create_components_loop self platform (component :: remaining)
       component_list w s
     = create_components_loop self platform remaining component_list w
         (after s [lookup]).
Proof.
  intros (component_name & entry & (keys & Hkeys & Hname & Hentry) & Harn & Hsome)
    Hmissing.
  subst component_name. cbv zeta.
  assert (Hbody :
            create_component self platform component component_list w s
            = (inr component_list,
               after s [Call in_create_components (ib_get_component arn)])).
  { unfold create_component; cbv zeta.
    rewrite bind_ask, bind_lift, Hkeys, bind_lift, Hentry, bind_lift, Harn, Hsome.
    rewrite try_except_run, bind_remote, Hmissing. reflexivity. }
  split; [exact Hbody |].
  simpl create_components_loop. unfold bind at 1. now rewrite Hbody.
Qed.

Lemma component_not_found_is_skipped_witness :
  create_components_loop Example.plain (YStr "Linux")
    [Example.update_linux; Example.install_agent] [] MoreExamples.removed
    (initial YNull)
  = (inr [componentArn (YStr "component/0.0.1")],
     after (initial YNull)
       [Call in_create_components
          (ib_get_component (YStr Example.update_linux_arn));
        Call in_create_components
          (ib_list_components "Self" (YStr "install-agent"));
        Call in_create_components
          (ib_create_component (YStr "install-agent") "0.0.1"
             (YStr "Install the agent") (YStr "Linux")
             (data (yaml_safe_dump Example.install_agent_document)))]).
Proof.
  assert (H : by_reference Example.update_linux (YStr Example.update_linux_arn)).
  { exists (YStr "update-linux"),
      (YDict [("arn", YStr Example.update_linux_arn)]).
    repeat split. exists [YStr "update-linux"]. repeat split. }
  destruct (component_not_found_is_skipped Example.plain (YStr "Linux")
              [Example.install_agent] [] MoreExamples.removed (initial YNull)
              H eq_refl) as [_ Hloop].
  rewrite Hloop. reflexivity.
Defined.

(** X4.  The list of resolved components only grows, by one record at most
    per component definition: whatever the remote side answers, a
    resolution that returns gives back the records it started from, in
    their order, followed by not more records than there were
    definitions. *)
Theorem component_list_only_grows
  (self : CreateImagePipeline) (platform : yaml) (components : list yaml)
  (w : World) :
  forall (component_list resolved : list yaml) (s : state),
    fst (create_components_loop self platform components component_list w s)
    = inr resolved ->
    exists added,
      resolved = (component_list ++ added)%list
      /\ List.length added <= List.length components.
Proof.
  induction components as [| component remaining IH];
    intros component_list resolved s Hresolved.
  - simpl in Hresolved. injection Hresolved as <-.
    exists []. split; [now rewrite app_nil_r | simpl; lia].
  - simpl create_components_loop in Hresolved. unfold bind at 1 in Hresolved.
    destruct (create_component self platform component component_list w s)
      as [[e | component_list'] s1] eqn:Hbody; [discriminate Hresolved |].
    assert (Hone : exists one,
               component_list' = (component_list ++ one)%list
               /\ List.length one <= 1).
    { clear IH Hresolved. revert Hbody.
      unfold create_component; cbv zeta.
      rewrite bind_ask, bind_lift.
      destruct (py_iter component) as [e | keys]; [discriminate |].
      rewrite bind_lift.
      destruct (py_getitem component (last keys (YStr ""))) as [e | entry];
        [discriminate |].
      rewrite bind_lift.
      destruct (py_get entry "arn") as [e | arn]; [discriminate |].
      destruct (is_not_None arn).
      - rewrite try_except_run, bind_remote.
        destruct (respond w (trace s) (ib_get_component arn)) as [e | u].
        + destruct e; try discriminate.
          * intros H. injection H as <- _.
            exists []. split; [now rewrite app_nil_r | simpl; lia].
          * rewrite bind_lift.
            destruct (py_add_str arn "/1") as [e | arn1]; [discriminate |].
            rewrite bind_remote.
            destruct (respond w _ (ib_get_component arn1)); [discriminate |].
            intros H. injection H as <- _.
            eexists. split; [reflexivity | simpl; lia].
        + intros H. injection H as <- _.
          eexists. split; [reflexivity | simpl; lia].
      - rewrite bind_remote.
        destruct (respond w (trace s) (ib_list_components _ _))
          as [e | existing]; [discriminate |].
        destruct (component_bucket self) as [bucket |].
        + rewrite bind_now; cbv beta. rewrite bind_remote.
          destruct (respond w _ (s3_put_object _ _ _)); [discriminate |].
          rewrite bind_lift.
          destruct (py_getitem entry (YStr "description")); [discriminate |].
          rewrite bind_remote.
          destruct (respond w _ (ib_create_component _ _ _ _ _));
            [discriminate |].
          intros H. injection H as <- _.
          eexists. split; [reflexivity | simpl; lia].
        + rewrite bind_lift.
          destruct (py_getitem entry (YStr "description")); [discriminate |].
          rewrite bind_remote.
          destruct (respond w _ (ib_create_component _ _ _ _ _));
            [discriminate |].
          intros H. injection H as <- _.
          eexists. split; [reflexivity | simpl; lia]. }
    destruct Hone as (one & -> & Hlen).
    destruct (IH _ _ _ Hresolved) as (added & -> & Hadded).
    exists (one ++ added)%list. split.
    + now rewrite app_assoc.
    + rewrite length_app. simpl. lia.
Qed.

Lemma component_list_only_grows_witness :
  exists added,
    [componentArn (YStr "component/0.0.1");
     componentArn (YStr Example.update_linux_arn)]
    = ([] ++ added)%list
    /\ List.length added <= 2.
Proof.
  apply (@component_list_only_grows Example.plain (YStr "Linux")
           [Example.install_agent; Example.update_linux] Example.fresh []
           _ (initial YNull)).
  reflexivity.
Defined.

(** X5.  Resolution keeps the order of the definition: when every lookup is
    answered, components given by reference are resolved to their
    identifiers one lookup each, in the order of the definitions, after the
    records already there. *)
Theorem references_resolved_in_order
  (self : CreateImagePipeline) (platform : yaml) (w : World)
  (components arns : list yaml) :
  (forall h arn, respond w h (ib_get_component arn) = inr tt) ->
  Forall2 by_reference components arns ->
  forall (component_list : list yaml) (s : state),
    create_components_loop self platform components component_list w s
    = (inr (component_list ++ map componentArn arns)%list,
       after s
         (map (fun arn => Call in_create_components (ib_get_component arn))
            arns)).
Proof.
  intros Haccepts Hall.
  induction Hall as [| component arn components arns Href Hall IH];
    intros component_list s.
  - simpl. unfold ret, after. rewrite !app_nil_r. now destruct s.
  - destruct Href
      as (component_name & entry & (keys & Hkeys & Hname & Hentry) & Harn & Hsome).
    subst component_name.
    simpl create_components_loop. unfold bind at 1.
    assert (Hbody :
              create_component self platform component component_list w s
              = (inr (component_list ++ [componentArn arn])%list,
                 after s [Call in_create_components (ib_get_component arn)])).
    { unfold create_component; cbv zeta.
      rewrite bind_ask, bind_lift, Hkeys, bind_lift, Hentry, bind_lift, Harn,
        Hsome.
      rewrite try_except_run, bind_remote, Haccepts. reflexivity. }
    rewrite Hbody, IH, after_after. simpl map.
    now rewrite <- app_assoc.
Qed.

Lemma references_resolved_in_order_witness :
  create_components_loop Example.plain (YStr "Linux")
    [Example.update_linux; MoreExamples.reboot_linux] [] Example.fresh
    (initial YNull)
  = (inr [componentArn (YStr Example.update_linux_arn);
          componentArn (YStr MoreExamples.reboot_linux_arn)],
     after (initial YNull)
       [Call in_create_components
          (ib_get_component (YStr Example.update_linux_arn));
        Call in_create_components
          (ib_get_component (YStr MoreExamples.reboot_linux_arn))]).
Proof.
  apply (@references_resolved_in_order Example.plain (YStr "Linux")
           Example.fresh
           [Example.update_linux; MoreExamples.reboot_linux]
           [YStr Example.update_linux_arn; YStr MoreExamples.reboot_linux_arn]).
  - reflexivity.
  - repeat constructor.
    + exists (YStr "update-linux"),
        (YDict [("arn", YStr Example.update_linux_arn)]).
      repeat split. exists [YStr "update-linux"]. repeat split.
    + exists (YStr "reboot-linux"),
        (YDict [("arn", YStr MoreExamples.reboot_linux_arn)]).
      repeat split. exists [YStr "reboot-linux"]. repeat split.
Defined.

(** X19.  A component definition that does not name an entry with a
    readable [arn] slot (it is not iterable, its last key does not select
    an entry, or the entry is not a mapping) is rejected with an exception
    before any call is made for it. *)
Theorem unreadable_component_calls_nothing
  (self : CreateImagePipeline) (platform component : yaml)
  (component_list : list yaml) (w : World) (s : state) :
  (forall component_name entry arn,
      names component component_name entry ->
      py_get entry "arn" = inr arn ->
      False) ->
  exists e,
    create_component self platform component component_list w s = (inl e, s).
Proof.
  intros Hunreadable. unfold create_component; cbv zeta.
  rewrite bind_ask, bind_lift.
  destruct (py_iter component) as [e | keys] eqn:Hkeys; [now exists e |].
  rewrite bind_lift.
  destruct (py_getitem component (last keys (YStr ""))) as [e | entry]
    eqn:Hentry; [now exists e |].
  rewrite bind_lift.
  destruct (py_get entry "arn") as [e | arn] eqn:Harn; [now exists e |].
  exfalso. eapply Hunreadable; [| exact Harn].
  exists keys. repeat split; [exact Hkeys | exact Hentry].
Qed.

Lemma unreadable_component_calls_nothing_witness :
  (exists e,
      create_component Example.plain (YStr "Linux")
        MoreExamples.bare_component [] Example.fresh (initial YNull)
      = (inl e, initial YNull))
  /\ (exists e,
         create_component Example.plain (YStr "Linux")
           MoreExamples.flat_component [] Example.fresh (initial YNull)
         = (inl e, initial YNull)).
Proof.
  split.
  - apply unreadable_component_calls_nothing.
    intros component_name entry arn (keys & Hkeys & -> & Hentry) _.
    injection Hkeys as <-. discriminate Hentry.
  - apply unreadable_component_calls_nothing.
    intros component_name entry arn (keys & Hkeys & -> & Hentry) Harn.
    injection Hkeys as <-. injection Hentry as <-. discriminate Harn.
Defined.

Lemma dict_lookup_last (k : string) (v : yaml) (d : dict) :
  dict_lookup k d = None -> dict_lookup k (d ++ [(k, v)])%list = Some v.
Proof.
  induction d as [| [k' v'] d IH]; simpl.
  - now rewrite String.eqb_refl.
  - destruct (String.eqb k k'); [discriminate | exact IH].
Qed.

(** X20.  Of a component mapping with several keys, only the last key is
    used: the keys before it and what stands under them have no influence
    on what the resolver does. *)
Theorem only_last_key_of_component_used
  (self : CreateImagePipeline) (platform : yaml) (d : dict)
  (k : string) (v : yaml) (component_list : list yaml)
  (w : World) (s : state) :
  dict_lookup k d = None ->
  create_component self platform (YDict (d ++ [(k, v)])%list) component_list
    w s
  = create_component self platform (YDict [(k, v)]) component_list w s.
Proof.
  intros Hfresh. unfold create_component; cbv zeta.
  rewrite !bind_ask, !bind_lift. simpl py_iter.
  rewrite map_app. simpl map. rewrite last_last. simpl last.
  rewrite !bind_lift. simpl py_getitem.
  rewrite (dict_lookup_last k v d Hfresh), String.eqb_refl.
  reflexivity.
Qed.

Lemma only_last_key_of_component_used_witness :
  create_component Example.plain (YStr "Linux")
    (YDict [("ignored", YDict [("arn", YStr "arn:ignored")]);
            ("update-linux", YDict [("arn", YStr Example.update_linux_arn)])])
    [] Example.fresh (initial YNull)
  = create_component Example.plain (YStr "Linux") Example.update_linux []
      Example.fresh (initial YNull).
Proof.
  apply (@only_last_key_of_component_used Example.plain (YStr "Linux")
           [("ignored", YDict [("arn", YStr "arn:ignored")])]
           "update-linux" (YDict [("arn", YStr Example.update_linux_arn)])
           [] Example.fresh (initial YNull)).
  reflexivity.
Defined.

(** X21.  A version names the number of listed revisions and nothing else:
    names with different numbers of revisions listed get different
    versions, and the same number gives the same version again, also when
    revisions have been deleted in between. *)
Theorem semantic_version_one_to_one (n m : nat) :
  semantic_version n = semantic_version m <-> n = m.
Proof.
  split; [| now intros ->].
  unfold semantic_version, string_of_nat. intros H.
  assert (Hdigits :
            NilEmpty.string_of_uint (Nat.to_uint (1 + n))
            = NilEmpty.string_of_uint (Nat.to_uint (1 + m))).
  { unfold String.append in H. now injection H. }
  apply (f_equal NilEmpty.uint_of_string) in Hdigits.
  rewrite !NilEmpty.usu in Hdigits. injection Hdigits as Hdigits.
  apply Unsigned.to_uint_inj in Hdigits. lia.
Qed.

(** ** The instance-profile provisioner *)

(** X6.  The policy file is loaded before the identity service is asked
    anything: a profile definition without [name], or one whose policy file
    cannot be opened or parsed, makes the provisioner raise without a
    single call. *)
Theorem unusable_profile_definition_calls_nothing
  (self : CreateImagePipeline) (profile_dict : yaml) (account_id : string)
  (w : World) (s : state) :
  (forall e,
      py_getitem profile_dict (YStr "name") = inl e ->
      create_instance_profile self profile_dict account_id w s = (inl e, s))
  /\ (forall name file e,
         py_getitem profile_dict (YStr "name") = inr name ->
         py_getitem profile_dict (YStr "file") = inr file ->
         read_policy w file = inl e ->
         create_instance_profile self profile_dict account_id w s
         = (inl e, s)).
Proof.
  split.
  - intros e Hname. unfold create_instance_profile; cbv zeta.
    now rewrite bind_ask, bind_lift, Hname.
  - intros name file e Hname Hfile Hpolicy.
    unfold create_instance_profile; cbv zeta.
    rewrite bind_ask, bind_lift, Hname, bind_lift, Hfile.
    now rewrite bind_open_json, Hpolicy.
Qed.

Lemma unusable_profile_definition_calls_nothing_witness :
  create_instance_profile Example.plain
    (YDict [("file", YStr "policy.json")]) "123456789012" Example.fresh
    (initial YNull)
  = (inl (KeyError (YStr "name")), initial YNull)
  /\ create_instance_profile Example.plain Example.build_profile
       "123456789012" MoreExamples.unreadable_policy (initial YNull)
     = (inl IOError, initial YNull).
Proof.
  split.
  - apply (unusable_profile_definition_calls_nothing Example.plain
             (YDict [("file", YStr "policy.json")]) "123456789012"
             Example.fresh (initial YNull)).
    reflexivity.
  - destruct (unusable_profile_definition_calls_nothing Example.plain
                Example.build_profile "123456789012"
                MoreExamples.unreadable_policy (initial YNull)) as [_ Hfile].
    apply (Hfile (YStr "build") (YStr "policy.json")); reflexivity.
Defined.

(** X7.  When the profile test fails, the profile is created by five calls
    in a fixed order: instance profile, role, policy, attachment of the
    policy to the role under the identifier the [create_policy] call of
    this run returned, and addition of the role to the profile.  Nothing is
    undone when one of them raises: the calls made are then the listing and
    the creation calls up to the one that raised, and only all five make
    the provisioner return. *)
Theorem profile_creation_is_a_prefix
  (self : CreateImagePipeline) (profile_dict name file policy_dict : yaml)
  (account_id : string) (profiles : list string) (w : World) (s : state) :
  py_getitem profile_dict (YStr "name") = inr name ->
  py_getitem profile_dict (YStr "file") = inr file ->
  read_policy w file = inr policy_dict ->
  respond w (trace s) (iam_list_instance_profiles "/imagebuilder/")
  = inr profiles ->
  default_profile_listed profiles = false ->
  let here := in_create_instance_profile in
  let resource_name := "imagebuilder-" ++ py_str w name in
  let listing := Call here (iam_list_instance_profiles "/imagebuilder/") in
  let profile :=
    Call here (iam_create_instance_profile resource_name "/imagebuilder/") in
  let role :=
    Call here
      (iam_create_role "/imagebuilder/" resource_name
         (json_dumps assume_role_policy) "Role for Image Builder") in
  let policy :=
    Call here
      (iam_create_policy resource_name "/imagebuilder/"
         (json_dumps policy_dict)) in
  let attachment := fun policy_arn =>
    Call here (iam_attach_role_policy resource_name policy_arn) in
  let addition :=
    Call here (iam_add_role_to_instance_profile resource_name resource_name) in
  create_instance_profile self profile_dict account_id w s
  = match respond w (trace s ++ [listing])%list
            (iam_create_instance_profile resource_name "/imagebuilder/") with
    | inl e => (inl e, after s [listing; profile])
    | inr _ =>
    match respond w (trace s ++ [listing; profile])%list
            (iam_create_role "/imagebuilder/" resource_name
               (json_dumps assume_role_policy) "Role for Image Builder") with
    | inl e => (inl e, after s [listing; profile; role])
    | inr _ =>
    match respond w (trace s ++ [listing; profile; role])%list
            (iam_create_policy resource_name "/imagebuilder/"
               (json_dumps policy_dict)) with
    | inl e => (inl e, after s [listing; profile; role; policy])
    | inr policy_arn =>
    match respond w (trace s ++ [listing; profile; role; policy])%list
            (iam_attach_role_policy resource_name policy_arn) with
    | inl e =>
        (inl e, after s [listing; profile; role; policy; attachment policy_arn])
    | inr _ =>
        (match respond w
                 (trace s
                  ++ [listing; profile; role; policy; attachment policy_arn])%list
                 (iam_add_role_to_instance_profile resource_name
                    resource_name) with
         | inl e => inl e
         | inr _ => inr resource_name
         end,
         after s
           [listing; profile; role; policy; attachment policy_arn; addition])
    end end end end.
Proof.
  intros Hname Hfile Hpolicy Hprofiles Hlisted. cbv zeta.
  unfold create_instance_profile; cbv zeta.
  rewrite bind_ask, bind_lift, Hname, bind_lift, Hfile.
  rewrite bind_open_json, Hpolicy, bind_remote, Hprofiles.
  unfold default_profile_listed in Hlisted. rewrite Hlisted.
  rewrite bind_remote, !after_after. simpl trace. simpl app.
  destruct (respond w _ (iam_create_instance_profile _ _)); [reflexivity |].
  rewrite bind_remote, !after_after. simpl trace. simpl app.
  destruct (respond w _ (iam_create_role _ _ _ _)); [reflexivity |].
  rewrite bind_remote, !after_after. simpl trace. simpl app.
  destruct (respond w _ (iam_create_policy _ _ _)) as [e | policy_arn];
    [reflexivity |].
  rewrite bind_remote, !after_after. simpl trace. simpl app.
  destruct (respond w _ (iam_attach_role_policy _ _)); [reflexivity |].
  rewrite bind_remote, !after_after. simpl trace. simpl app.
  destruct (respond w _ (iam_add_role_to_instance_profile _ _)); reflexivity.
Qed.

Lemma profile_creation_is_a_prefix_witness :
  let here := in_create_instance_profile in
  let listing := Call here (iam_list_instance_profiles "/imagebuilder/") in
  let profile :=
    Call here (iam_create_instance_profile "imagebuilder-build" "/imagebuilder/")
  in
  let role :=
    Call here
      (iam_create_role "/imagebuilder/" "imagebuilder-build"
         (json_dumps assume_role_policy) "Role for Image Builder") in
  let policy :=
    Call here
      (iam_create_policy "imagebuilder-build" "/imagebuilder/"
         (json_dumps Example.policy_document)) in
  create_instance_profile Example.plain Example.build_profile "123456789012"
    Example.fresh (initial YNull)
  = (inr "imagebuilder-build",
     after (initial YNull)
       [listing; profile; role; policy;
        Call here
          (iam_attach_role_policy "imagebuilder-build"
             "policy/imagebuilder-build");
        Call here
          (iam_add_role_to_instance_profile "imagebuilder-build"
             "imagebuilder-build")])
  /\ create_instance_profile Example.plain Example.build_profile
       "123456789012" MoreExamples.policy_refused (initial YNull)
     = (inl (ClientError "AccessDenied"),
        after (initial YNull) [listing; profile; role; policy]).
Proof.
  cbv zeta. split.
  - rewrite (@profile_creation_is_a_prefix Example.plain Example.build_profile
               (YStr "build") (YStr "policy.json") Example.policy_document
               "123456789012" [] Example.fresh (initial YNull)
               eq_refl eq_refl eq_refl eq_refl eq_refl).
    reflexivity.
  - rewrite (@profile_creation_is_a_prefix Example.plain Example.build_profile
               (YStr "build") (YStr "policy.json") Example.policy_document
               "123456789012" [] MoreExamples.policy_refused (initial YNull)
               eq_refl eq_refl eq_refl eq_refl eq_refl).
    reflexivity.
Defined.

(** X8.  Without update mode, a profile that passes the test is reused as
    it is: the provisioner returns the resource name after the listing and
    makes no other call, so the policy of the profile is not touched. *)
Theorem listed_profile_reused_untouched
  (self : CreateImagePipeline) (profile_dict name file policy_dict : yaml)
  (account_id : string) (profiles : list string) (w : World) (s : state) :
  update self = false ->
  py_getitem profile_dict (YStr "name") = inr name ->
  py_getitem profile_dict (YStr "file") = inr file ->
  read_policy w file = inr policy_dict ->
  respond w (trace s) (iam_list_instance_profiles "/imagebuilder/")
  = inr profiles ->
  default_profile_listed profiles = true ->
  create_instance_profile self profile_dict account_id w s
  = (inr ("imagebuilder-" ++ py_str w name),
     after s
       [Call in_create_instance_profile
          (iam_list_instance_profiles "/imagebuilder/")]).
Proof.
  intros Hupdate Hname Hfile Hpolicy Hprofiles Hlisted.
  unfold create_instance_profile; cbv zeta.
  rewrite bind_ask, bind_lift, Hname, bind_lift, Hfile.
  rewrite bind_open_json, Hpolicy, bind_remote, Hprofiles.
  unfold default_profile_listed in Hlisted. now rewrite Hlisted, Hupdate.
Qed.

Lemma listed_profile_reused_untouched_witness :
  create_instance_profile Example.plain Example.build_profile "123456789012"
    Example.policy_history_full (initial YNull)
  = (inr "imagebuilder-build",
     after (initial YNull)
       [Call in_create_instance_profile
          (iam_list_instance_profiles "/imagebuilder/")]).
Proof.
  apply (@listed_profile_reused_untouched Example.plain Example.build_profile
           (YStr "build") (YStr "policy.json") Example.policy_document
           "123456789012" ["ec2-image-builder-default"]
           Example.policy_history_full (initial YNull));
    reflexivity.
Defined.

(** X9.  In update mode, only the limit error leads to an eviction.  When
    the push of the new policy version succeeds, the provisioner returns
    after the listing and the push; when it raises anything else than the
    limit error, that exception leaves the provisioner at once.  No policy
    version is listed or deleted in either case. *)
Theorem push_without_eviction
  (self : CreateImagePipeline) (profile_dict name file policy_dict : yaml)
  (account_id : string) (profiles : list string) (w : World) (s : state) :
  update self = true ->
  py_getitem profile_dict (YStr "name") = inr name ->
  py_getitem profile_dict (YStr "file") = inr file ->
  read_policy w file = inr policy_dict ->
  respond w (trace s) (iam_list_instance_profiles "/imagebuilder/")
  = inr profiles ->
  default_profile_listed profiles = true ->
  let here := in_create_instance_profile in
  let resource_name := "imagebuilder-" ++ py_str w name in
  let listing := Call here (iam_list_instance_profiles "/imagebuilder/") in
  let push :=
    iam_create_policy_version (policy_arn_of account_id resource_name)
      (json_dumps policy_dict) true in
  (forall u,
      respond w (trace s ++ [listing])%list push = inr u ->
      create_instance_profile self profile_dict account_id w s
      = (inr resource_name, after s [listing; Call here push]))
  /\ (forall e,
         respond w (trace s ++ [listing])%list push = inl e ->
         e <> LimitExceededException ->
         create_instance_profile self profile_dict account_id w s
         = (inl e, after s [listing; Call here push])).
Proof.
  intros Hupdate Hname Hfile Hpolicy Hprofiles Hlisted. cbv zeta.
  assert (Hrun :
            create_instance_profile self profile_dict account_id w s
            = bind
                (try_except
                   (remote in_create_instance_profile
                      (iam_create_policy_version
                         (policy_arn_of account_id
                            ("imagebuilder-" ++ py_str w name))
                         (json_dumps policy_dict) true))
                   (fun e =>
                      match e with
                      | LimitExceededException =>
                          Some
                            (response <- remote in_create_instance_profile
                               (iam_list_policy_versions
                                  (policy_arn_of account_id
                                     ("imagebuilder-" ++ py_str w name))) ;;
                             last_listed <- lift (py_index response (-1)) ;;
                             remote in_create_instance_profile
                               (iam_delete_policy_version
                                  (policy_arn_of account_id
                                     ("imagebuilder-" ++ py_str w name))
                                  (VersionId last_listed)) ;;
                             remote in_create_instance_profile
                               (iam_create_policy_version
                                  (policy_arn_of account_id
                                     ("imagebuilder-" ++ py_str w name))
                                  (json_dumps policy_dict) true))
                      | _ => None
                      end))
                (fun _ => ret ("imagebuilder-" ++ py_str w name)) w
                (after s
                   [Call in_create_instance_profile
                      (iam_list_instance_profiles "/imagebuilder/")])).
  { unfold create_instance_profile; cbv zeta.
    rewrite bind_ask, bind_lift, Hname, bind_lift, Hfile.
    rewrite bind_open_json, Hpolicy, bind_remote, Hprofiles.
    unfold default_profile_listed in Hlisted. now rewrite Hlisted, Hupdate. }
  rewrite Hrun.
  split.
  - intros u Hok.
    unfold bind at 1. rewrite try_except_run, remote_after.
    simpl trace. rewrite after_after. simpl app.
    now rewrite Hok.
  - intros e Hraised Hother.
    unfold bind at 1. rewrite try_except_run, remote_after.
    simpl trace. rewrite after_after. simpl app.
    rewrite Hraised.
    destruct e; try reflexivity. contradiction.
Qed.

Lemma push_without_eviction_witness :
  create_instance_profile Example.updating Example.build_profile
    "123456789012" Example.default_profile_exists (initial YNull)
  = (inr "imagebuilder-build",
     after (initial YNull)
       [Call in_create_instance_profile
          (iam_list_instance_profiles "/imagebuilder/");
        Call in_create_instance_profile
          (iam_create_policy_version
             "arn:aws:iam::123456789012:policy/imagebuilder/imagebuilder-build"
             (json_dumps Example.policy_document) true)])
  /\ create_instance_profile Example.updating Example.build_profile
       "123456789012" MoreExamples.policy_locked (initial YNull)
     = (inl (ClientError "AccessDenied"),
        after (initial YNull)
          [Call in_create_instance_profile
             (iam_list_instance_profiles "/imagebuilder/");
           Call in_create_instance_profile
             (iam_create_policy_version
                "arn:aws:iam::123456789012:policy/imagebuilder/imagebuilder-build"
                (json_dumps Example.policy_document) true)]).
Proof.
  split.
  - destruct (@push_without_eviction Example.updating Example.build_profile
                (YStr "build") (YStr "policy.json") Example.policy_document
                "123456789012" ["ec2-image-builder-default"]
                Example.default_profile_exists (initial YNull)
                eq_refl eq_refl eq_refl eq_refl eq_refl eq_refl)
      as [Hok _].
    rewrite (Hok tt eq_refl). reflexivity.
  - destruct (@push_without_eviction Example.updating Example.build_profile
                (YStr "build") (YStr "policy.json") Example.policy_document
                "123456789012" ["ec2-image-builder-default"]
                MoreExamples.policy_locked (initial YNull)
                eq_refl eq_refl eq_refl eq_refl eq_refl eq_refl)
      as [_ Hraised].
    rewrite (Hraised (ClientError "AccessDenied") eq_refl); [reflexivity |].
    discriminate.
Defined.

(** ** The pipeline provisioner, without a pipeline of the name *)

(** X10.  When no pipeline is listed under the name, nothing is deleted:
    the calls are the listing and the one [create_image_pipeline], which is
    given the name also as description, and whose answer is the result. *)
Theorem unlisted_pipeline_created_without_delete
  (pipeline_name : yaml) (recipe infrastructure distribution : string)
  (w : World) (s : state) :
  respond w (trace s) (ib_list_image_pipelines pipeline_name) = inr [] ->
  let listing :=
    Call in_create_image_pipeline (ib_list_image_pipelines pipeline_name) in
  let create :=
    ib_create_image_pipeline pipeline_name pipeline_name recipe infrastructure
      distribution in
  create_image_pipeline pipeline_name recipe infrastructure distribution w s
  = (respond w (trace s ++ [listing])%list create,
     after s [listing; Call in_create_image_pipeline create]).
Proof.
  intros Hlist. cbv zeta.
  unfold create_image_pipeline; cbv zeta.
  rewrite bind_remote, Hlist, bind_ret, remote_after, after_after.
  reflexivity.
Qed.

Lemma unlisted_pipeline_created_without_delete_witness :
  create_image_pipeline (YStr "base-pipeline") "image-recipe/new"
    "infrastructure-configuration/new" "distribution-configuration/new"
    Example.fresh (initial YNull)
  = (inr "image-pipeline/new",
     after (initial YNull)
       [Call in_create_image_pipeline
          (ib_list_image_pipelines (YStr "base-pipeline"));
        Call in_create_image_pipeline
          (ib_create_image_pipeline (YStr "base-pipeline")
             (YStr "base-pipeline") "image-recipe/new"
             "infrastructure-configuration/new"
             "distribution-configuration/new")]).
Proof.
  rewrite (unlisted_pipeline_created_without_delete (YStr "base-pipeline")
             "image-recipe/new" "infrastructure-configuration/new"
             "distribution-configuration/new" Example.fresh (initial YNull)
             eq_refl).
  reflexivity.
Defined.

(** ** Teardown *)

(** X11.  Whatever the remote side answers, teardown lists and deletes
    pipelines and configurations and does nothing else: it makes no call on
    components, image recipes, instance profiles, roles or policies, it
    deletes a configuration in update mode only, and it does not write to
    the loaded definition. *)
Theorem teardown_touches_three_kinds_only
  (self : CreateImagePipeline) (w : World) (s : state) :
  exists evs,
    trace (snd (delete_pipeline_resources self w s)) = (trace s ++ evs)%list
    /\ forallb (teardown_call self) evs = true
    /\ pipeline_dict (snd (delete_pipeline_resources self w s))
       = pipeline_dict s.
Proof.
  assert (H : respects
                (stage_step (fun e => teardown_call self e = true))
                (delete_pipeline_resources self)).
  { destruct self as [bucket start [|]];
      unfold delete_pipeline_resources; cbn [update]; stage. }
  destruct (H w s) as [[evs [Htrace Hall]] Hsame].
  exists evs. repeat split; [exact Htrace | | exact Hsame].
  apply forallb_forall. rewrite Forall_forall in Hall. exact Hall.
Qed.

(** X12.  When the definition names the pipeline and both configurations
    and every call is answered, teardown makes the three listings in the
    order pipeline, infrastructure, distribution, each followed by the
    deletion of the first entry listed, if any: always for the pipeline, in
    update mode only for the configurations.  Entries after the first are
    never deleted. *)
Theorem teardown_deletes_first_listed
  (self : CreateImagePipeline)
  (pipeline_name infrastructure_def infrastructure_name
     distribution_def distribution_name : yaml)
  (pipelines infrastructures distributions : list string)
  (w : World) (s : state) :
  py_getitem (pipeline_dict s) (YStr "pipeline-name") = inr pipeline_name ->
  py_getitem (pipeline_dict s) (YStr "infrastructure-configuration")
  = inr infrastructure_def ->
  py_getitem infrastructure_def (YStr "name") = inr infrastructure_name ->
  py_getitem (pipeline_dict s) (YStr "distribution-configuration")
  = inr distribution_def ->
  py_getitem distribution_def (YStr "name") = inr distribution_name ->
  (forall h, respond w h (ib_list_image_pipelines pipeline_name)
             = inr pipelines) ->
  (forall h, respond w h
               (ib_list_infrastructure_configurations infrastructure_name)
             = inr infrastructures) ->
  (forall h, respond w h
               (ib_list_distribution_configurations distribution_name)
             = inr distributions) ->
  (forall h arn, respond w h (ib_delete_image_pipeline arn) = inr tt) ->
  (forall h arn,
      respond w h (ib_delete_infrastructure_configuration arn) = inr tt) ->
  (forall h arn,
      respond w h (ib_delete_distribution_configuration arn) = inr tt) ->
  delete_pipeline_resources self w s
  = (inr tt,
     after s
       (teardown_calls self pipeline_name infrastructure_name
          distribution_name pipelines infrastructures distributions)).
Proof.
  intros Hpipeline Hinfra Hiname Hdist Hdname
    Hpipelines Hinfras Hdists Hdelete Hdelete_infra Hdelete_dist.
  unfold delete_pipeline_resources, teardown_calls; cbv zeta.
  rewrite bind_pipeline_item, Hpipeline, bind_remote, Hpipelines.
  assert (Hitems :
            forall evs (B : Type) (f : yaml -> M B) k,
              bind (pipeline_item k) f w (after s evs)
              = match py_getitem (pipeline_dict s) (YStr k) with
                | inl e => (inl e, after s evs)
                | inr a => f a w (after s evs)
                end)
    by (intros; now rewrite bind_pipeline_item).
  destruct pipelines as [| pipeline pipelines];
    [rewrite bind_ret | rewrite bind_remote, Hdelete, after_after];
    rewrite Hitems, Hinfra, bind_lift, Hiname, bind_remote, Hinfras,
      !after_after;
    (destruct infrastructures as [| infrastructure infrastructures];
     [| destruct (update self) eqn:Hupdate]);
    [rewrite bind_ret
    | rewrite bind_remote, Hdelete_infra, !after_after
    | rewrite bind_ret
    | rewrite bind_ret
    | rewrite bind_remote, Hdelete_infra, !after_after
    | rewrite bind_ret ];
    rewrite Hitems, Hdist, bind_lift, Hdname, bind_remote, Hdists,
      !after_after;
    (destruct distributions as [| distribution distributions];
     [| destruct (update self) eqn:Hupdate']);
    try rewrite remote_after, Hdelete_dist, !after_after;
    try (rewrite Hupdate in Hupdate'; discriminate Hupdate');
    simpl; destruct (update self); reflexivity.
Qed.

Lemma teardown_deletes_first_listed_witness :
  delete_pipeline_resources Example.updating Example.configured
    (initial Example.definition)
  = (inr tt,
     after (initial Example.definition)
       [Call in_delete_pipeline_resources
          (ib_list_image_pipelines (YStr "base-pipeline"));
        Call in_delete_pipeline_resources
          (ib_delete_image_pipeline "image-pipeline/existing");
        Call in_delete_pipeline_resources
          (ib_list_infrastructure_configurations
             (YStr "base-infrastructure"));
        Call in_delete_pipeline_resources
          (ib_delete_infrastructure_configuration
             "infrastructure-configuration/existing");
        Call in_delete_pipeline_resources
          (ib_list_distribution_configurations (YStr "base-distribution"));
        Call in_delete_pipeline_resources
          (ib_delete_distribution_configuration
             "distribution-configuration/existing")]).
Proof.
  rewrite (@teardown_deletes_first_listed Example.updating
             (YStr "base-pipeline")
             (YDict [("name", YStr "base-infrastructure");
                     ("instanceTypes", YList [YStr "t3.small"])])
             (YStr "base-infrastructure")
             Example.base_distribution (YStr "base-distribution")
             ["image-pipeline/existing"]
             ["infrastructure-configuration/existing"]
             ["distribution-configuration/existing"]
             Example.configured (initial Example.definition));
    reflexivity.
Defined.

(** ** Runs and the command-line flags *)

Lemma from_honours_flags
  (self : CreateImagePipeline) (m : method) (e : event) :
  from m e -> enabled self m = true -> honours_flags self e.
Proof.
  destruct e as [m' R c]. simpl. intros [-> Hissued] Henabled.
  unfold honours_flags. simpl.
  destruct c; destruct m; simpl in *;
    try discriminate Hissued;
    repeat split; intros H; try discriminate H; assumption.
Qed.

(** One step of [run] under fixed flags. *)
Ltac flagged_stage self :=
  eapply hoare_step
    with (R := stage_step _)
         (I' := fun s => Forall (honours_flags self) (trace s));
  [ any_stage
  | intros ? ? ? [Hextends _];
    eapply extends_forall; [| eassumption | exact Hextends];
    intros ? Hfrom;
    first [ contradiction
          | eapply from_honours_flags; [exact Hfrom | reflexivity] ]
  | intros ? ? ?; assumption
  | intros ].

(** All the steps of [run] under fixed flags. *)
Ltac flagged_run self :=
  unfold run, provision; cbn [update start_pipeline];
  do 10 flagged_stage self;
  (eapply hoare_infrastructure
     with (I' := fun s => Forall (honours_flags self) (trace s));
   [ intros s s' Hs Hstep; apply infrastructure_step_stage in Hstep;
     eapply extends_forall; [| exact Hs | exact Hstep];
     intros e Hfrom; eapply from_honours_flags; [exact Hfrom | reflexivity]
   | auto
   | intros infrastructure_arn ]);
  do 4 flagged_stage self;
  (eapply hoare_last with (R := stage_step _);
   [ any_stage
   | intros r s s' Hs [Hextends _];
     eapply extends_forall; [| exact Hs | exact Hextends];
     intros e Hfrom;
     first [ contradiction
           | eapply from_honours_flags; [exact Hfrom | reflexivity] ] ]).

Lemma run_under_flags (bucket : option string) (start upd : bool) :
  let self :=
    {| component_bucket := bucket; start_pipeline := start; update := upd |} in
  hoare (fun s => Forall (honours_flags self) (trace s)) (run self)
    (fun _ s => Forall (honours_flags self) (trace s)).
Proof.
  destruct start, upd; cbv zeta;
    match goal with
    | |- hoare _ (run ?self) _ => flagged_run self
    end.
Qed.

(** X13.  A run does what its flags allow, whatever the remote side
    answers: without [--update] no teardown call is made and no
    infrastructure or distribution configuration is deleted, and without
    [--start-pipeline] no pipeline execution is started. *)
Theorem run_honours_flags
  (self : CreateImagePipeline) (w : World) (definition : yaml) :
  Forall (honours_flags self) (calls (run self) w definition).
Proof.
  destruct self as [bucket start upd].
  apply (@run_under_flags bucket start upd w (initial definition)).
  constructor.
Qed.

Lemma run_honours_flags_witness :
  Forall (honours_flags Example.plain)
    (calls (run Example.plain) Example.configured Example.definition).
Proof. apply run_honours_flags. Defined.

Lemma split_without_separator (c : ascii) (s : string) :
  str_in (String c EmptyString) s = false -> split c s = [s].
Proof.
  induction s as [| a s IH]; simpl; [reflexivity |].
  destruct (ascii_dec c a) as [<- | Hne];
    [intros H; destruct s; discriminate H |].
  simpl. intros Hrest.
  destruct (Ascii.eqb_spec a c) as [-> | _]; [contradiction |].
  now rewrite (IH Hrest).
Qed.

(** X14.  The account banner takes the part of the caller's [Arn] after the
    first [/].  For a caller whose [Arn] has no [/], as the root user of an
    account has, every run ends with an index error right after the two
    session calls: the definition is not looked at and nothing is
    provisioned. *)
Theorem caller_without_path_aborts_run
  (self : CreateImagePipeline) (w : World) (definition : yaml)
  (caller : caller_identity) (aliases : list string) :
  str_in "/" (Arn caller) = false ->
  respond w [] sts_get_caller_identity = inr caller ->
  respond w [Call in_get_session_details sts_get_caller_identity]
    iam_list_account_aliases = inr aliases ->
  run self w (initial definition)
  = (inl IndexError,
     after (initial definition)
       [Call in_get_session_details sts_get_caller_identity;
        Call in_get_session_details iam_list_account_aliases]).
Proof.
  intros Hroot Hcaller Haliases.
  unfold run, get_session_details.
  rewrite bind_assoc, bind_remote. simpl trace. rewrite Hcaller.
  rewrite bind_assoc, bind_remote. simpl trace. rewrite Haliases.
  rewrite bind_ret, bind_lift. simpl caller_id.
  rewrite (split_without_separator "/" (Arn caller) Hroot).
  rewrite after_after. reflexivity.
Qed.

Lemma caller_without_path_aborts_run_witness :
  run Example.plain MoreExamples.as_root (initial Example.definition)
  = (inl IndexError,
     after (initial Example.definition)
       [Call in_get_session_details sts_get_caller_identity;
        Call in_get_session_details iam_list_account_aliases]).
Proof.
  apply (@caller_without_path_aborts_run Example.plain MoreExamples.as_root
           Example.definition
           {| Account := "123456789012";
              Arn := "arn:aws:iam::123456789012:root" |} []);
    reflexivity.
Defined.

Lemma respects_anything {A : Type} (m : M A) : respects (fun _ _ => True) m.
Proof. intros w s. exact I. Qed.

(** X15.  With [--start-pipeline], a run that completes ends by starting a
    pipeline execution: that call is the last one it makes. *)
Theorem completed_run_ends_with_start
  (self : CreateImagePipeline) (w : World) (definition : yaml) (r : unit) :
  start_pipeline self = true ->
  outcome (run self) w definition = inr r ->
  exists earlier pipeline_arn,
    calls (run self) w definition
    = (earlier
       ++ [Call in_start_image_pipeline
             (ib_start_image_pipeline_execution pipeline_arn)])%list.
Proof.
  intros Hstart Hcompleted.
  assert (H : hoare (fun _ => True) (run self)
                (fun r s =>
                   match r with
                   | inl _ => True
                   | inr _ =>
                       exists earlier pipeline_arn,
                         trace s
                         = (earlier
                            ++ [Call in_start_image_pipeline
                                  (ib_start_image_pipeline_execution
                                     pipeline_arn)])%list
                   end)).
  { unfold run, provision. rewrite Hstart.
    do 15 (eapply hoare_step
             with (R := fun _ _ => True) (I' := fun _ => True);
           [apply respects_anything | auto | intros; exact I | intros]).
    cbv iota. unfold start_image_pipeline.
    intros w0 s _. rewrite bind_remote.
    destruct (respond w0 (trace s) _); [exact I |].
    simpl. eauto. }
  specialize (H w (initial definition) I).
  unfold outcome in Hcompleted. rewrite Hcompleted in H. exact H.
Qed.

Lemma completed_run_ends_with_start_witness :
  exists earlier pipeline_arn,
    calls (run MoreExamples.starting) Example.fresh Example.definition
    = (earlier
       ++ [Call in_start_image_pipeline
             (ib_start_image_pipeline_execution pipeline_arn)])%list.
Proof.
  apply (@completed_run_ends_with_start MoreExamples.starting Example.fresh
           Example.definition tt); reflexivity.
Defined.

(** ** What the infrastructure configuration is given *)

(** X16.  When the infrastructure provisioner creates a configuration, the
    keyword arguments it sends are the definition with
    [instanceProfileName] set to the instance profile it was given: an
    [instanceProfileName] written in the definition is replaced, every
    other key is sent with the value the definition has, and the mapping in
    the loaded definition is, after the call, exactly what was sent. *)
Theorem infrastructure_sends_definition_with_profile
  (instance_profile : yaml) (infrastructure_def : ref) (d : dict) (name : yaml)
  (w : World) (s : state) :
  yaml_at (pipeline_dict s) infrastructure_def = Some (YDict d) ->
  dict_lookup "name" d = Some name ->
  respond w (trace s) (ib_list_infrastructure_configurations name) = inr [] ->
  let s' :=
    snd (create_infrastructure_config instance_profile infrastructure_def w s)
  in
  exists kwargs,
    trace s'
    = (trace s
       ++ [Call in_create_infrastructure_config
             (ib_list_infrastructure_configurations name);
           Call in_create_infrastructure_config
             (ib_create_infrastructure_configuration kwargs)])%list
    /\ dict_lookup "instanceProfileName" kwargs = Some instance_profile
    /\ (forall k,
           k <> "instanceProfileName" ->
           dict_lookup k kwargs = dict_lookup k d)
    /\ yaml_at (pipeline_dict s') infrastructure_def = Some (YDict kwargs).
Proof.
  intros Hat Hname Hlist. cbv zeta.
  exists (dict_set "instanceProfileName" instance_profile d).
  assert (Hrun :
            snd (create_infrastructure_config instance_profile
                   infrastructure_def w s)
            = {| trace :=
                   (trace s
                    ++ [Call in_create_infrastructure_config
                          (ib_list_infrastructure_configurations name);
                        Call in_create_infrastructure_config
                          (ib_create_infrastructure_configuration
                             (dict_set "instanceProfileName" instance_profile
                                d))])%list;
                 pipeline_dict :=
                   yaml_update_at (pipeline_dict s) infrastructure_def
                     (setitem "instanceProfileName" instance_profile) |}).
  { unfold create_infrastructure_config; cbv zeta.
    unfold bind at 1, ref_item. rewrite Hat. simpl py_getitem. rewrite Hname.
    rewrite bind_remote, Hlist.
    unfold bind at 1, ref_setitem. simpl pipeline_dict. rewrite Hat.
    unfold bind, ref_kwargs. simpl pipeline_dict.
    rewrite (yaml_at_update (setitem "instanceProfileName" instance_profile)
               infrastructure_def _ Hat).
    unfold remote. simpl. now rewrite <- app_assoc. }
  rewrite Hrun. simpl trace. simpl pipeline_dict.
  repeat split.
  - apply dict_lookup_set_same.
  - intros k Hk. now apply dict_lookup_set_other.
  - now rewrite (yaml_at_update
                   (setitem "instanceProfileName" instance_profile)
                   infrastructure_def _ Hat).
Qed.

Lemma infrastructure_sends_definition_with_profile_witness :
  exists kwargs,
    trace
      (snd (create_infrastructure_config (YStr "imagebuilder-build") []
              Example.fresh
              (initial (YDict MoreExamples.infrastructure_with_profile))))
    = [Call in_create_infrastructure_config
         (ib_list_infrastructure_configurations (YStr "base-infrastructure"));
       Call in_create_infrastructure_config
         (ib_create_infrastructure_configuration kwargs)]
    /\ dict_lookup "instanceProfileName" kwargs
       = Some (YStr "imagebuilder-build")
    /\ (forall k,
           k <> "instanceProfileName" ->
           dict_lookup k kwargs
           = dict_lookup k MoreExamples.infrastructure_with_profile)
    /\ yaml_at
         (pipeline_dict
            (snd (create_infrastructure_config (YStr "imagebuilder-build") []
                    Example.fresh
                    (initial
                       (YDict MoreExamples.infrastructure_with_profile)))))
         []
       = Some (YDict kwargs).
Proof.
  apply (@infrastructure_sends_definition_with_profile
           (YStr "imagebuilder-build") []
           MoreExamples.infrastructure_with_profile
           (YStr "base-infrastructure") Example.fresh
           (initial (YDict MoreExamples.infrastructure_with_profile)));
    reflexivity.
Defined.

(** Running a method step by step, with a case for every answer. *)
Ltac run_step :=
  first
    [ rewrite bind_ask
    | rewrite bind_ret
    | rewrite bind_lift
    | rewrite bind_open_json
    | rewrite bind_remote
    | rewrite bind_now
    | rewrite bind_pipeline_item
    | rewrite try_except_run
    | rewrite remote_after
    | unfold bind at 1 ].

Ltac run_case :=
  match goal with
  | |- context [match ?x with _ => _ end] => destruct x eqn:?
  | |- context [if ?x then _ else _] => destruct x eqn:?
  end.

Ltac run_all := cbv zeta; repeat (cbv beta iota; first [run_case | run_step]).

(** What [create_instance_profile] returns, when it returns, is the prefix
    followed by the configured name. *)
Lemma create_instance_profile_returns_name
  (self : CreateImagePipeline) (profile_dict : yaml) (account_id : string)
  (w : World) (s : state) (returned : string) :
  fst (create_instance_profile self profile_dict account_id w s)
  = inr returned ->
  exists name,
    py_getitem profile_dict (YStr "name") = inr name
    /\ returned = "imagebuilder-" ++ py_str w name.
Proof.
  unfold create_instance_profile. run_all;
    simpl fst; intros H; try discriminate H; injection H as <-; eauto.
Qed.

Lemma from_hands_over (m : method) (e : event) (name : yaml) :
  from m e -> m <> in_create_infrastructure_config -> hands_over name e.
Proof.
  destruct e as [m' R c]. simpl. intros [-> Hissued] Hinfra kwargs.
  destruct c; simpl; try discriminate.
  destruct m; simpl in *; try discriminate Hissued; contradiction.
Qed.

Lemma instance_profile_step_with_file
  (self : CreateImagePipeline) (account_id : string)
  (profile file returned : yaml) (n : string) (w : World) (s : state) :
  py_getitem (pipeline_dict s) (YStr "instance-profile") = inr profile ->
  py_get profile "file" = inr file ->
  is_not_None file = true ->
  py_getitem profile (YStr "name") = inr (YStr n) ->
  fst (instance_profile_step self account_id w s) = inr returned ->
  returned = YStr ("imagebuilder-" ++ n).
Proof.
  intros Hprofile Hfile Hsome Hname. unfold instance_profile_step.
  rewrite bind_pipeline_item, Hprofile, bind_lift, Hfile, Hsome.
  rewrite bind_pipeline_item, Hprofile. unfold bind.
  destruct (create_instance_profile self profile account_id w s)
    as [[e | resource_name] s1] eqn:Hcreate; [discriminate |].
  simpl. intros H. injection H as <-.
  destruct (@create_instance_profile_returns_name self profile account_id w s
              resource_name) as (name & Hname' & ->).
  { now rewrite Hcreate. }
  rewrite Hname in Hname'. now injection Hname' as <-.
Qed.

(** One step of [run], outside the infrastructure stage, on a definition
    that is still as loaded. *)
Ltac handing_stage name definition :=
  eapply hoare_step
    with (R := stage_step _)
         (I' := fun s => Forall (hands_over name) (trace s)
                         /\ pipeline_dict s = definition);
  [ any_stage
  | intros ? ? [? Hloaded] [Hextends Hsame]; split;
    [ eapply extends_forall; [| eassumption | exact Hextends];
      intros ? Hfrom;
      first [ contradiction
            | eapply from_hands_over; [exact Hfrom | discriminate] ]
    | rewrite Hsame; exact Hloaded ]
  | intros ? ? [? _]; assumption
  | intros ].

Ltac handed_stage name :=
  eapply hoare_step
    with (R := stage_step _)
         (I' := fun s => Forall (hands_over name) (trace s));
  [ any_stage
  | intros ? ? ? [Hextends _];
    eapply extends_forall; [| eassumption | exact Hextends];
    intros ? Hfrom;
    first [ contradiction
          | eapply from_hands_over; [exact Hfrom | discriminate] ]
  | intros ? ? ?; assumption
  | intros ].

(** X17.  When the definition configures a policy file for an instance
    profile named [n], every infrastructure configuration the run creates
    is given [imagebuilder-n] as its [instanceProfileName]: the resource
    name the instance-profile provisioner returns is what the
    infrastructure provisioner receives, whichever branch the provisioner
    took. *)
Theorem provisioned_profile_name_handed_over
  (self : CreateImagePipeline) (w : World)
  (definition profile file : yaml) (n : string) :
  py_getitem definition (YStr "instance-profile") = inr profile ->
  py_get profile "file" = inr file ->
  is_not_None file = true ->
  py_getitem profile (YStr "name") = inr (YStr n) ->
  Forall (hands_over (YStr ("imagebuilder-" ++ n)))
    (calls (run self) w definition).
Proof.
  intros Hprofile Hfile Hsome Hname.
  pose (name := YStr ("imagebuilder-" ++ n)).
  assert (H : hoare (fun s => Forall (hands_over name) (trace s)
                              /\ pipeline_dict s = definition)
                (run self)
                (fun _ s => Forall (hands_over name) (trace s))).
  { unfold run, provision.
    do 8 handing_stage name definition.
    eapply hoare_bind
      with (Mid := fun instance_profile s =>
                     (Forall (hands_over name) (trace s)
                      /\ pipeline_dict s = definition)
                     /\ instance_profile = name).
    { intros w0 s [Hcalls Hloaded].
      pose proof (instance_profile_step_stage self (Account (caller_id a))
                    w0 s) as [Hextends Hsame].
      assert (Hcalls' :
                Forall (hands_over name)
                  (trace (snd (instance_profile_step self
                                 (Account (caller_id a)) w0 s)))).
      { eapply extends_forall; [| exact Hcalls | exact Hextends].
        intros e Hfrom. eapply from_hands_over; [exact Hfrom | discriminate]. }
      destruct (fst (instance_profile_step self (Account (caller_id a)) w0 s))
        as [e | returned] eqn:Hreturned; [exact Hcalls' |].
      repeat split; [exact Hcalls' | now rewrite Hsame |].
      eapply instance_profile_step_with_file; try eassumption.
      now rewrite Hloaded. }
    intros instance_profile. apply hoare_pre_pure. intros ->.
    handing_stage name definition.
    eapply hoare_infrastructure
      with (I' := fun s => Forall (hands_over name) (trace s));
      [ | auto | intros infrastructure_arn ].
    { intros s s' [Hcalls _] (evs & Htrace & _ & Hkwargs & _).
      rewrite Htrace. apply Forall_app. split; [exact Hcalls | exact Hkwargs]. }
    do 4 handed_stage name.
    eapply hoare_last with (R := stage_step (from in_start_image_pipeline)).
    - any_stage.
    - intros r s s' Hs [Hextends _].
      eapply extends_forall; [| exact Hs | exact Hextends].
      intros e Hfrom. eapply from_hands_over; [exact Hfrom | discriminate]. }
  apply (H w (initial definition)). split; [constructor | reflexivity].
Qed.

Lemma provisioned_profile_name_handed_over_witness :
  Forall (hands_over (YStr "imagebuilder-build"))
    (calls (run Example.plain) Example.fresh Example.definition_with_policy).
Proof.
  apply (@provisioned_profile_name_handed_over Example.plain Example.fresh
           Example.definition_with_policy Example.build_profile
           (YStr "policy.json") "build");
    reflexivity.
Defined.

(** ** Identifiers handed from stage to stage *)

Lemma hoare_at_bind {A B : Type}
  (w : World) (P : state -> Prop) (Mid : A -> state -> Prop)
  (m : M A) (f : A -> M B) (Q : result B -> state -> Prop) :
  hoare_at w P m (fun r s => match r with
                             | inl e => Q (inl e) s
                             | inr a => Mid a s
                             end) ->
  (forall a, hoare_at w (Mid a) (f a) Q) ->
  hoare_at w P (bind m f) Q.
Proof.
  intros Hm Hf s HP. unfold bind.
  specialize (Hm s HP).
  destruct (m w s) as [[e | a] s1]; simpl in *.
  - exact Hm.
  - now apply Hf.
Qed.

Lemma hoare_at_step {A B : Type}
  (w : World) (R : state -> state -> Prop) (I I' : state -> Prop)
  (m : M A) (f : A -> M B) (Q : result B -> state -> Prop) :
  respects R m ->
  (forall s s', I s -> R s s' -> I' s') ->
  (forall e s, I' s -> Q (inl e) s) ->
  (forall a, hoare_at w I' (f a) Q) ->
  hoare_at w I (bind m f) Q.
Proof.
  intros HR HI HQ Hf.
  apply hoare_at_bind with (Mid := fun _ => I'); [| exact Hf].
  intros s Hs.
  assert (H' : I' (snd (m w s))) by (eapply HI; [exact Hs | apply HR]).
  destruct (fst (m w s)); auto.
Qed.

(** A step whose result matters: [G] is what is known of it. *)
Lemma hoare_at_result {A B : Type}
  (w : World) (R : state -> state -> Prop) (G : A -> state -> Prop)
  (I : state -> Prop) (I' : A -> state -> Prop)
  (m : M A) (f : A -> M B) (Q : result B -> state -> Prop) :
  respects R m ->
  (forall s a, fst (m w s) = inr a -> G a (snd (m w s))) ->
  (forall s s', I s -> R s s' -> forall e, Q (inl e) s') ->
  (forall s s' a, I s -> R s s' -> G a s' -> I' a s') ->
  (forall a, hoare_at w (I' a) (f a) Q) ->
  hoare_at w I (bind m f) Q.
Proof.
  intros HR HG HQ HI Hf.
  apply hoare_at_bind with (Mid := I'); [| exact Hf].
  intros s Hs. specialize (HR w s). specialize (HG s).
  destruct (fst (m w s)) as [e | a].
  - eapply HQ; eassumption.
  - eapply HI; [exact Hs | exact HR | now apply HG].
Qed.

Lemma answered_grows
  (w : World) (calls evs : list event) (R : Type) (c : api R) (r : R) :
  answered w calls c r -> answered w (calls ++ evs) c r.
Proof.
  intros (m & before & later & -> & Hanswer).
  exists m, before, (later ++ evs)%list. split; [| exact Hanswer].
  now rewrite <- app_assoc.
Qed.

Lemma answered_last
  (w : World) (s : state) (R : Type) (m : method) (c : api R) (r : R) :
  respond w (trace s) c = inr r ->
  answered w (trace (after s [Call m c])) c r.
Proof.
  intros Hanswer. exists m, (trace s), []. now split.
Qed.

Lemma recipe_created_grows (w : World) (calls evs : list event) (arn : string) :
  recipe_created w calls arn -> recipe_created w (calls ++ evs) arn.
Proof.
  intros [kwargs H]. exists kwargs. now apply answered_grows.
Qed.

Lemma infrastructure_obtained_grows
  (w : World) (calls evs : list event) (arn : string) :
  infrastructure_obtained w calls arn ->
  infrastructure_obtained w (calls ++ evs) arn.
Proof.
  intros [[kwargs H] | (name & others & H)]; [left | right].
  - exists kwargs. now apply answered_grows.
  - exists name, others. now apply answered_grows.
Qed.

Lemma distribution_obtained_grows
  (w : World) (calls evs : list event) (arn : string) :
  distribution_obtained w calls arn ->
  distribution_obtained w (calls ++ evs) arn.
Proof.
  intros [[kwargs H] | (name & others & H)]; [left | right].
  - exists kwargs. now apply answered_grows.
  - exists name, others. now apply answered_grows.
Qed.

(** What the provisioners return is what the remote side answered. *)
Lemma create_image_recipe_answer
  (component_arns : list yaml) (recipe_def : yaml) (w : World) (s : state)
  (arn : string) :
  fst (create_image_recipe component_arns recipe_def w s) = inr arn ->
  recipe_created w
    (trace (snd (create_image_recipe component_arns recipe_def w s))) arn.
Proof.
  unfold create_image_recipe. run_all;
    simpl fst; simpl snd; intros H; try discriminate H;
    eexists; apply answered_last; exact H.
Qed.

Lemma create_distribution_configuration_answer
  (distribution_def : yaml) (w : World) (s : state) (arn : string) :
  fst (create_distribution_configuration distribution_def w s) = inr arn ->
  distribution_obtained w
    (trace (snd (create_distribution_configuration distribution_def w s)))
    arn.
Proof.
  unfold create_distribution_configuration. run_all;
    simpl fst; simpl snd; intros H; try discriminate H.
  - left. eexists. apply answered_last. exact H.
  - injection H as <-. right. eexists. eexists.
    apply answered_last. eassumption.
Qed.

Lemma create_infrastructure_config_answer
  (instance_profile : yaml) (infrastructure_def : ref) (w : World) (s : state)
  (arn : string) :
  fst (create_infrastructure_config instance_profile infrastructure_def w s)
  = inr arn ->
  infrastructure_obtained w
    (trace
       (snd (create_infrastructure_config instance_profile infrastructure_def
               w s)))
    arn.
Proof.
  destruct (create_infrastructure_config instance_profile infrastructure_def
              w s) as [r s'] eqn:Hrun.
  simpl. intros ->. revert Hrun.
  unfold create_infrastructure_config. run_all;
    intros H; try discriminate H; injection H as H <-.
  - left. eexists. apply answered_last. exact H.
  - destruct H. right. eexists. eexists.
    apply answered_last. eassumption.
Qed.

Lemma create_image_pipeline_arguments
  (pipeline_name : yaml) (recipe infrastructure distribution : string) :
  respects
    (stage_step
       (creates_pipeline_from pipeline_name recipe infrastructure
          distribution))
    (create_image_pipeline pipeline_name recipe infrastructure distribution).
Proof.
  unfold create_image_pipeline. stage;
    (split; [simpl; auto |]);
    intros arguments H; simpl in H;
    first [discriminate H | injection H as <-; reflexivity].
Qed.

Lemma from_no_pipeline (m : method) (e : event) :
  from m e -> m <> in_create_image_pipeline -> pipeline_arguments e = None.
Proof.
  destruct e as [m' R c]. simpl. intros [-> Hissued] Hpipeline.
  destruct c; try reflexivity.
  destruct m; simpl in *; try discriminate Hissued; contradiction.
Qed.

Lemma obtained_grows
  (w : World) (calls evs : list event)
  (recipe infrastructure distribution : option string) :
  obtained w calls recipe infrastructure distribution ->
  obtained w (calls ++ evs) recipe infrastructure distribution.
Proof.
  intros (Hr & Hi & Hd). repeat split; intros arn Harn.
  - now apply recipe_created_grows, Hr.
  - now apply infrastructure_obtained_grows, Hi.
  - now apply distribution_obtained_grows, Hd.
Qed.

Lemma progress_extends
  (w : World) (definition : yaml) (P : event -> Prop)
  (recipe infrastructure distribution : option string) (s s' : state) :
  (forall e, P e -> pipeline_arguments e = None) ->
  progress w definition recipe infrastructure distribution s ->
  extends P s s' ->
  py_getitem (pipeline_dict s') (YStr "pipeline-name")
  = py_getitem (pipeline_dict s) (YStr "pipeline-name") ->
  progress w definition recipe infrastructure distribution s'.
Proof.
  intros HP (Hnone & Hname & Hobtained) [evs [Htrace Hevs]] Hsame.
  unfold progress. rewrite Htrace, Hsame. split; [| split].
  - apply Forall_app. split; [exact Hnone |].
    eapply Forall_impl; [| exact Hevs]. exact HP.
  - exact Hname.
  - apply obtained_grows, Hobtained.
Qed.

Lemma progress_stage
  (w : World) (definition : yaml) (P : event -> Prop)
  (recipe infrastructure distribution : option string) (s s' : state) :
  (forall e, P e -> pipeline_arguments e = None) ->
  progress w definition recipe infrastructure distribution s ->
  stage_step P s s' ->
  progress w definition recipe infrastructure distribution s'.
Proof.
  intros HP Hs [Hextends Hsame].
  eapply progress_extends; try eassumption. now rewrite Hsame.
Qed.

Lemma progress_threaded
  (w : World) (definition : yaml)
  (recipe infrastructure distribution : option string) (s : state) :
  progress w definition recipe infrastructure distribution s ->
  threaded w definition (trace s).
Proof.
  intros (Hnone & _ & _). unfold threaded.
  eapply Forall_impl; [| exact Hnone].
  intros e He name description r i d Harguments. congruence.
Qed.

Lemma threaded_grows
  (w : World) (definition : yaml) (calls evs : list event) :
  threaded w definition calls ->
  no_pipeline_yet evs ->
  threaded w definition (calls ++ evs).
Proof.
  intros Hcalls Hevs. unfold threaded. apply Forall_app. split.
  - eapply Forall_impl; [| exact Hcalls].
    intros e He name description r i d Harguments.
    destruct (He _ _ _ _ _ Harguments) as (H1 & H2 & H3 & H4 & H5).
    repeat split; auto using recipe_created_grows,
      infrastructure_obtained_grows, distribution_obtained_grows.
  - eapply Forall_impl; [| exact Hevs].
    intros e He name description r i d Harguments. congruence.
Qed.

Lemma pipeline_name_kept
  (instance_profile : yaml) (s s' : state) :
  infrastructure_step instance_profile ["infrastructure-configuration"] s s' ->
  py_getitem (pipeline_dict s') (YStr "pipeline-name")
  = py_getitem (pipeline_dict s) (YStr "pipeline-name").
Proof.
  intros (_ & _ & _ & _ & [-> | ->]); [reflexivity |].
  simpl. destruct (pipeline_dict s) as [| | | | | d]; try reflexivity.
  destruct (dict_lookup "infrastructure-configuration" d); [| reflexivity].
  simpl. rewrite dict_lookup_set_other; [reflexivity | discriminate].
Qed.

Lemma hoare_at_last {A : Type}
  (w : World) (R : state -> state -> Prop) (I : state -> Prop)
  (m : M A) (Q : result A -> state -> Prop) :
  respects R m ->
  (forall r s s', I s -> R s s' -> Q r s') ->
  hoare_at w I m Q.
Proof.
  intros HR HQ s Hs. eapply HQ; [exact Hs | apply HR].
Qed.

Lemma progress_recipe
  (w : World) (definition : yaml) (arn : string)
  (infrastructure distribution : option string) (s : state) :
  progress w definition None infrastructure distribution s ->
  recipe_created w (trace s) arn ->
  progress w definition (Some arn) infrastructure distribution s.
Proof.
  intros (Hnone & Hname & _ & Hi & Hd) Hcreated.
  repeat split; auto. intros arn' H. now injection H as <-.
Qed.

Lemma progress_infrastructure
  (w : World) (definition : yaml) (arn : string)
  (recipe distribution : option string) (s : state) :
  progress w definition recipe None distribution s ->
  infrastructure_obtained w (trace s) arn ->
  progress w definition recipe (Some arn) distribution s.
Proof.
  intros (Hnone & Hname & Hr & _ & Hd) Hobtained.
  repeat split; auto. intros arn' H. now injection H as <-.
Qed.

Lemma progress_distribution
  (w : World) (definition : yaml) (arn : string)
  (recipe infrastructure : option string) (s : state) :
  progress w definition recipe infrastructure None s ->
  distribution_obtained w (trace s) arn ->
  progress w definition recipe infrastructure (Some arn) s.
Proof.
  intros (Hnone & Hname & Hr & Hi & _) Hobtained.
  repeat split; auto. intros arn' H. now injection H as <-.
Qed.

Lemma progress_to_threaded
  (w : World) (definition name : yaml)
  (recipe infrastructure distribution : string) (s s' : state) :
  progress w definition (Some recipe) (Some infrastructure)
    (Some distribution) s ->
  py_getitem definition (YStr "pipeline-name") = inr name ->
  stage_step (creates_pipeline_from name recipe infrastructure distribution)
    s s' ->
  threaded w definition (trace s').
Proof.
  intros (Hnone & _ & Hr & Hi & Hd) Hname [[evs [Htrace Hevs]] _].
  unfold threaded. rewrite Htrace. apply Forall_app. split.
  - eapply Forall_impl; [| exact Hnone].
    intros e He ? ? ? ? ? Harguments. congruence.
  - eapply Forall_impl; [| exact Hevs].
    intros e [_ He] name' description r i d Harguments.
    specialize (He _ Harguments). injection He as -> -> -> -> ->.
    repeat split;
      auto using recipe_created_grows, infrastructure_obtained_grows,
        distribution_obtained_grows.
Qed.

(** One step of [run] before the pipeline stage whose result is not an
    identifier. *)
Ltac progressing_stage w definition r i d :=
  eapply hoare_at_step
    with (R := stage_step _) (I' := progress w definition r i d);
  [ any_stage
  | intros ? ? ? Hstep; eapply progress_stage; [| eassumption | exact Hstep];
    intros ? Hfrom;
    first [ contradiction
          | eapply from_no_pipeline; [exact Hfrom | discriminate] ]
  | intros ? ? Hs; eapply progress_threaded; exact Hs
  | intros ].

(** X18.  The identifiers are handed from stage to stage.  Whatever the
    remote side answers, every pipeline a run creates is created under the
    [pipeline-name] of the definition, with that name as description, from
    the identifier a [create_image_recipe] call of this run returned, and
    from identifiers of an infrastructure and a distribution configuration
    that this run either created or found first in a listing. *)
Theorem pipeline_built_from_stage_results
  (self : CreateImagePipeline) (w : World) (definition : yaml) :
  threaded w definition (calls (run self) w definition).
Proof.
  assert (H : hoare_at w (progress w definition None None None) (run self)
                (fun _ s => threaded w definition (trace s))).
  { unfold run, provision.
    do 7 progressing_stage w definition
      (@None string) (@None string) (@None string).
    (* the image recipe *)
    eapply hoare_at_result
      with (R := stage_step (from in_create_image_recipe))
           (G := fun arn s => recipe_created w (trace s) arn)
           (I' := fun arn => progress w definition (Some arn) None None);
      [ apply create_image_recipe_stage
      | intros s arn; apply create_image_recipe_answer
      | intros s s' Hs Hstep e;
        eapply progress_threaded, progress_stage; [| exact Hs | exact Hstep];
        intros ? Hfrom; eapply from_no_pipeline; [exact Hfrom | discriminate]
      | intros s s' arn Hs Hstep Hcreated;
        apply progress_recipe; [| exact Hcreated];
        eapply progress_stage; [| exact Hs | exact Hstep];
        intros ? Hfrom; eapply from_no_pipeline; [exact Hfrom | discriminate]
      | intros recipe_arn ].
    progressing_stage w definition (Some recipe_arn)
      (@None string) (@None string).
    progressing_stage w definition (Some recipe_arn)
      (@None string) (@None string).
    (* the infrastructure configuration *)
    eapply hoare_at_result
      with (R := infrastructure_step a6 ["infrastructure-configuration"])
           (G := fun arn s => infrastructure_obtained w (trace s) arn)
           (I' := fun arn =>
                    progress w definition (Some recipe_arn) (Some arn) None);
      [ intros w0 s; apply create_infrastructure_config_step
      | intros s arn; apply create_infrastructure_config_answer
      | intros s s' Hs Hstep e;
        eapply progress_threaded, progress_extends;
        [ | exact Hs | eapply infrastructure_step_stage; exact Hstep
          | eapply pipeline_name_kept; exact Hstep ];
        intros ? Hfrom; eapply from_no_pipeline; [exact Hfrom | discriminate]
      | intros s s' arn Hs Hstep Hobtained;
        apply progress_infrastructure; [| exact Hobtained];
        eapply progress_extends;
        [ | exact Hs | eapply infrastructure_step_stage; exact Hstep
          | eapply pipeline_name_kept; exact Hstep ];
        intros ? Hfrom; eapply from_no_pipeline; [exact Hfrom | discriminate]
      | intros infrastructure_arn ].
    progressing_stage w definition (Some recipe_arn)
      (Some infrastructure_arn) (@None string).
    (* the distribution configuration *)
    eapply hoare_at_result
      with (R := stage_step (from in_create_distribution_configuration))
           (G := fun arn s => distribution_obtained w (trace s) arn)
           (I' := fun arn =>
                    progress w definition (Some recipe_arn)
                      (Some infrastructure_arn) (Some arn));
      [ apply create_distribution_configuration_stage
      | intros s arn; apply create_distribution_configuration_answer
      | intros s s' Hs Hstep e;
        eapply progress_threaded, progress_stage; [| exact Hs | exact Hstep];
        intros ? Hfrom; eapply from_no_pipeline; [exact Hfrom | discriminate]
      | intros s s' arn Hs Hstep Hobtained;
        apply progress_distribution; [| exact Hobtained];
        eapply progress_stage; [| exact Hs | exact Hstep];
        intros ? Hfrom; eapply from_no_pipeline; [exact Hfrom | discriminate]
      | intros distribution_arn ].
    (* the name of the pipeline *)
    eapply hoare_at_bind
      with (Mid := fun name s =>
                     progress w definition (Some recipe_arn)
                       (Some infrastructure_arn) (Some distribution_arn) s
                     /\ py_getitem definition (YStr "pipeline-name")
                        = inr name).
    { intros s Hs. unfold pipeline_item. simpl.
      destruct (py_getitem (pipeline_dict s) (YStr "pipeline-name"))
        as [e | name] eqn:Hname.
      - eapply progress_threaded; exact Hs.
      - split; [exact Hs |].
        destruct Hs as (_ & Hkept & _). now rewrite <- Hkept. }
    intros pipeline_name.
    (* the pipeline *)
    eapply hoare_at_step
      with (R := stage_step
                   (creates_pipeline_from pipeline_name recipe_arn
                      infrastructure_arn distribution_arn))
           (I' := fun s => threaded w definition (trace s));
      [ apply create_image_pipeline_arguments
      | intros s s' [Hs Hname] Hstep;
        eapply progress_to_threaded; eassumption
      | auto
      | intros pipeline_arn ].
    eapply hoare_at_last
      with (R := stage_step (from in_start_image_pipeline)).
    - any_stage.
    - intros r s s' Hs [[evs [Htrace Hevs]] _].
      rewrite Htrace. apply threaded_grows; [exact Hs |].
      eapply Forall_impl; [| exact Hevs].
      intros e Hfrom. eapply from_no_pipeline; [exact Hfrom | discriminate]. }
  apply (H (initial definition)).
  split; [constructor | split; [reflexivity |]].
  repeat split; intros arn Harn; discriminate Harn.
Qed.

(** In the run on the example definition, the pipeline is created from the
    identifiers the three stages before it have obtained. *)
Lemma pipeline_built_from_stage_results_example :
  In (Call in_create_image_pipeline
        (ib_create_image_pipeline (YStr "base-pipeline")
           (YStr "base-pipeline") "image-recipe/new"
           "infrastructure-configuration/existing"
           "distribution-configuration/existing"))
    (calls (run Example.plain) Example.configured Example.definition).
Proof. vm_compute. tauto. Qed.

(* ------------------------------------------------------------------ *)
(** ** A definition without a policy file *)

Lemma from_passes_name (m : method) (e : event) (name : yaml) :
  from m e ->
  m <> in_create_instance_profile ->
  m <> in_create_infrastructure_config ->
  passes_name name e.
Proof.
  destruct e as [m' R c]. simpl. intros [-> Hissued] Hprofile Hinfra.
  split.
  - destruct c; try reflexivity; destruct m; simpl in *;
      try discriminate Hissued; contradiction.
  - destruct c; simpl; try discriminate.
    destruct m; simpl in *; try discriminate Hissued; contradiction.
Qed.

Lemma instance_profile_step_without_file
  (self : CreateImagePipeline) (account_id : string) (profile : yaml)
  (w : World) (s : state) :
  py_getitem (pipeline_dict s) (YStr "instance-profile") = inr profile ->
  py_get profile "file" = inr YNull ->
  instance_profile_step self account_id w s = (py_get profile "name", s).
Proof.
  intros Hprofile Hfile. unfold instance_profile_step.
  rewrite bind_pipeline_item, Hprofile, bind_lift, Hfile.
  change (is_not_None YNull) with false; cbv iota.
  rewrite bind_pipeline_item, Hprofile.
  destruct (py_get profile "name"); reflexivity.
Qed.

(** One step of [run], outside the instance-profile and infrastructure
    stages, on a definition that is still as loaded. *)
Ltac passing_stage name definition :=
  eapply hoare_step
    with (R := stage_step _)
         (I' := fun s => Forall (passes_name name) (trace s)
                         /\ pipeline_dict s = definition);
  [ any_stage
  | intros ? ? [? Hloaded] [Hextends Hsame]; split;
    [ eapply extends_forall; [| eassumption | exact Hextends];
      intros ? Hfrom;
      first [ contradiction
            | eapply from_passes_name; [exact Hfrom | discriminate ..] ]
    | rewrite Hsame; exact Hloaded ]
  | intros ? ? [? _]; assumption
  | intros ].

(** The same, once the definition may have been written to. *)
Ltac passed_stage name :=
  eapply hoare_step
    with (R := stage_step _)
         (I' := fun s => Forall (passes_name name) (trace s));
  [ any_stage
  | intros ? ? ? [Hextends _];
    eapply extends_forall; [| eassumption | exact Hextends];
    intros ? Hfrom;
    first [ contradiction
          | eapply from_passes_name; [exact Hfrom | discriminate ..] ]
  | intros ? ? ?; assumption
  | intros ].

(** *** The infrastructure stage, call by call *)

Lemma from_outside (m : method) (e : event) :
  from m e -> m <> in_create_infrastructure_config -> outside_infrastructure e.
Proof.
  destruct e as [m' R c]. simpl. intros [-> _] Hm. exact Hm.
Qed.

(** Before the infrastructure stage a run has not completed and has made no
    call of that stage. *)
Lemma not_reached (calls : list event) (e : exn) (P : Prop) :
  Forall outside_infrastructure calls ->
  inl e = inr tt :> result unit
  \/ runs in_create_infrastructure_config calls ->
  P.
Proof.
  intros Hnone [H | H]; [discriminate H |].
  unfold runs in H. rewrite Exists_exists in H. destruct H as (x & Hin & Hx).
  rewrite Forall_forall in Hnone. now destruct (Hnone x Hin).
Qed.

Lemma infrastructure_given_grows
  (w : World) (definition instance_profile : yaml) (calls evs : list event) :
  infrastructure_given w definition instance_profile calls ->
  Forall outside_infrastructure evs ->
  infrastructure_given w definition instance_profile (calls ++ evs).
Proof.
  intros (d & name & before & later & Hd & Hname & -> & Hbefore & Hlater) Hevs.
  exists d, name, before, (later ++ evs)%list.
  repeat split; try assumption.
  - now rewrite <- !app_assoc.
  - apply Forall_app. now split.
Qed.

(** The calls [create_infrastructure_config] makes on the definition as
    loaded: none, when the name of the configuration cannot be read, and
    otherwise [infrastructure_calls]. *)
Lemma create_infrastructure_config_trace
  (instance_profile definition : yaml) (w : World) (s : state) :
  pipeline_dict s = definition ->
  (exists e,
      create_infrastructure_config instance_profile
        ["infrastructure-configuration"] w s
      = (inl e, s))
  \/ (exists d name,
         py_getitem definition (YStr "infrastructure-configuration")
         = inr (YDict d)
         /\ py_getitem (YDict d) (YStr "name") = inr name
         /\ trace
              (snd (create_infrastructure_config instance_profile
                      ["infrastructure-configuration"] w s))
            = (trace s
               ++ infrastructure_calls instance_profile d name
                    (respond w (trace s)
                       (ib_list_infrastructure_configurations name)))%list).
Proof.
  intros Hloaded. unfold create_infrastructure_config; cbv zeta.
  destruct (yaml_at (pipeline_dict s) ["infrastructure-configuration"])
    as [v |] eqn:Hat.
  2: { left. exists TypeError. unfold bind at 1, ref_item. now rewrite Hat. }
  destruct (py_getitem v (YStr "name")) as [e | name] eqn:Hname.
  { left. exists e. unfold bind at 1, ref_item. now rewrite Hat, Hname. }
  destruct v as [| | | | | d]; try discriminate Hname.
  right. exists d, name. split; [| split; [exact Hname |]].
  { rewrite Hloaded in Hat. destruct definition; try discriminate Hat.
    simpl in Hat |- *.
    destruct (dict_lookup "infrastructure-configuration" d0);
      [now injection Hat as -> | discriminate Hat]. }
  remember ["infrastructure-configuration"] as infrastructure_def eqn:Href.
  clear Href.
  unfold bind at 1, ref_item. rewrite Hat, Hname.
  rewrite bind_remote. unfold infrastructure_calls; cbv zeta.
  destruct (respond w (trace s) (ib_list_infrastructure_configurations name))
    as [e | [| existing others]]; try reflexivity.
  unfold bind at 1, ref_setitem. simpl pipeline_dict. rewrite Hat.
  unfold bind, ref_kwargs. simpl pipeline_dict.
  rewrite (yaml_at_update (setitem "instanceProfileName" instance_profile)
             infrastructure_def _ Hat).
  unfold remote. simpl. now rewrite <- app_assoc.
Qed.

Lemma hoare_at_pre_pure {A : Type}
  (w : World) (I : state -> Prop) (P : Prop) (m : M A)
  (Q : result A -> state -> Prop) :
  (P -> hoare_at w I m Q) -> hoare_at w (fun s => I s /\ P) m Q.
Proof.
  intros H s [Hs HP]. now apply H.
Qed.

(** One step of [run] before the infrastructure stage. *)
Ltac reaching_stage definition :=
  eapply hoare_at_step
    with (R := stage_step _)
         (I' := fun s => Forall outside_infrastructure (trace s)
                         /\ pipeline_dict s = definition);
  [ any_stage
  | intros ? ? [? Hloaded] [Hextends Hsame]; split;
    [ eapply extends_forall; [| eassumption | exact Hextends];
      intros ? Hfrom;
      first [ contradiction
            | eapply from_outside; [exact Hfrom | discriminate] ]
    | rewrite Hsame; exact Hloaded ]
  | intros ? ? [Hnone _]; apply not_reached; exact Hnone
  | intros ].

(** One step of [run] after it. *)
Ltac reached_stage w definition name :=
  eapply hoare_at_step
    with (R := stage_step _)
         (I' := fun s => infrastructure_given w definition name (trace s));
  [ any_stage
  | intros ? ? Hgiven [[evs [Htrace Hevs]] _]; rewrite Htrace;
    apply infrastructure_given_grows; [exact Hgiven |];
    eapply Forall_impl; [| exact Hevs];
    intros ? Hfrom;
    first [ contradiction
          | eapply from_outside; [exact Hfrom | discriminate] ]
  | intros ? ? Hgiven _; exact Hgiven
  | intros ].

(** The infrastructure stage of a run is reached with the configured
    name. *)
Lemma run_gives_infrastructure
  (self : CreateImagePipeline) (w : World) (definition profile name : yaml) :
  py_getitem definition (YStr "instance-profile") = inr profile ->
  py_get profile "file" = inr YNull ->
  py_get profile "name" = inr name ->
  hoare_at w
    (fun s => Forall outside_infrastructure (trace s)
              /\ pipeline_dict s = definition)
    (run self)
    (fun r s =>
       r = inr tt \/ runs in_create_infrastructure_config (trace s) ->
       infrastructure_given w definition name (trace s)).
Proof.
  intros Hprofile Hfile Hname.
  unfold run, provision.
  do 8 reaching_stage definition.
  eapply hoare_at_bind
    with (Mid := fun instance_profile s =>
                   (Forall outside_infrastructure (trace s)
                    /\ pipeline_dict s = definition)
                   /\ instance_profile = name).
  { intros s [Hnone Hloaded].
    rewrite (@instance_profile_step_without_file self
               (Account (caller_id a)) profile w s)
      by (rewrite ?Hloaded; assumption).
    rewrite Hname. simpl. auto. }
  intros instance_profile. apply hoare_at_pre_pure. intros ->.
  reaching_stage definition.
  eapply hoare_at_bind
    with (Mid := fun _ s => infrastructure_given w definition name (trace s)).
  { intros s [Hnone Hloaded].
    destruct (@create_infrastructure_config_trace name definition w s Hloaded)
      as [[e Hrun] | (d & n & Hd & Hn & Htrace)].
    - rewrite Hrun. simpl. now apply not_reached.
    - assert (Hgiven :
                infrastructure_given w definition name
                  (trace
                     (snd (create_infrastructure_config name
                             ["infrastructure-configuration"] w s)))).
      { exists d, n, (trace s), []. rewrite app_nil_r.
        repeat split; try assumption. constructor. }
      destruct (fst _); [intros _ |]; exact Hgiven. }
  intros infrastructure_arn.
  do 4 reached_stage w definition name.
  eapply hoare_at_last with (R := stage_step (from in_start_image_pipeline)).
  - any_stage.
  - intros r s s' Hgiven [[evs [Htrace Hevs]] _] _. rewrite Htrace.
    apply infrastructure_given_grows; [exact Hgiven |].
    eapply Forall_impl; [| exact Hevs].
    intros e Hfrom. eapply from_outside; [exact Hfrom | discriminate].
Qed.

(** C10.  When the [instance-profile] mapping of the definition has no
    [file] entry, the instance-profile step of [run] makes no call and
    yields the configured [name]; no call of the whole run is an
    identity-service call on instance profiles, roles or policies; every
    infrastructure configuration the run creates is given that name,
    unchanged, as its [instanceProfileName]; and the name does reach the
    infrastructure stage: in every run that completes, and in every run in
    which [create_infrastructure_config] makes a call at all, that method
    makes exactly the calls it makes when it is given the configured name,
    the listing of the configurations and, when none is listed, the
    creation of one from the [infrastructure-configuration] mapping with
    [instanceProfileName] set to that name. *)
Theorem profile_name_passed_through
  (self : CreateImagePipeline) (w : World) (definition profile name : yaml) :
  py_getitem definition (YStr "instance-profile") = inr profile ->
  py_get profile "file" = inr YNull ->
  py_get profile "name" = inr name ->
  (forall account_id s,
      pipeline_dict s = definition ->
      instance_profile_step self account_id w s = (inr name, s))
  /\ Forall (passes_name name) (calls (run self) w definition)
  /\ (outcome (run self) w definition = inr tt
      \/ runs in_create_infrastructure_config (calls (run self) w definition) ->
      infrastructure_given w definition name (calls (run self) w definition)).
Proof.
  intros Hprofile Hfile Hname. split; [| split].
  { intros account_id s Hs. rewrite <- Hname.
    apply instance_profile_step_without_file; [now rewrite Hs | exact Hfile]. }
  2: { apply (@run_gives_infrastructure self w definition profile name
                Hprofile Hfile Hname (initial definition)).
       split; [constructor | reflexivity]. }
  assert (H : hoare (fun s => Forall (passes_name name) (trace s)
                              /\ pipeline_dict s = definition)
                (run self)
                (fun _ s => Forall (passes_name name) (trace s))).
  { unfold run, provision.
    do 8 passing_stage name definition.
    eapply hoare_bind
      with (Mid := fun instance_profile s =>
                     (Forall (passes_name name) (trace s)
                      /\ pipeline_dict s = definition)
                     /\ instance_profile = name).
    { intros w0 s [Hcalls Hloaded].
      rewrite (@instance_profile_step_without_file self
                 (Account (caller_id a)) profile w0 s)
        by (rewrite ?Hloaded; assumption).
      rewrite Hname. simpl. auto. }
    intros instance_profile. apply hoare_pre_pure. intros ->.
    passing_stage name definition.
    eapply hoare_infrastructure
      with (I' := fun s => Forall (passes_name name) (trace s));
      [ | auto | intros infrastructure_arn ].
    { intros s s' [Hcalls _] (evs & Htrace & Hfrom & Hkwargs & _).
      rewrite Htrace. apply Forall_app. split; [exact Hcalls |].
      rewrite Forall_forall in *. intros e He. split.
      - specialize (Hfrom e He). destruct e as [m R c]. simpl in Hfrom.
        destruct Hfrom as [-> Hissued].
        destruct c; try reflexivity; discriminate Hissued.
      - now apply Hkwargs. }
    do 4 passed_stage name.
    eapply hoare_last with (R := stage_step (from in_start_image_pipeline)).
    - any_stage.
    - intros r s s' Hs [Hextends _].
      eapply extends_forall; [| exact Hs | exact Hextends].
      intros e Hfrom. eapply from_passes_name; [exact Hfrom | discriminate ..]. }
  apply (H w (initial definition)). split; [constructor | reflexivity].
Qed.

Lemma profile_name_passed_through_witness :
  instance_profile_step Example.plain "123456789012" Example.fresh
    (initial Example.definition)
  = (inr (YStr "EC2InstanceProfile"), initial Example.definition)
  /\ Forall (passes_name (YStr "EC2InstanceProfile"))
       (calls (run Example.plain) Example.fresh Example.definition)
  /\ infrastructure_given Example.fresh Example.definition
       (YStr "EC2InstanceProfile")
       (calls (run Example.plain) Example.fresh Example.definition).
Proof.
  destruct (@profile_name_passed_through Example.plain Example.fresh
              Example.definition
              (YDict [("name", YStr "EC2InstanceProfile")])
              (YStr "EC2InstanceProfile") eq_refl eq_refl eq_refl)
    as (Hstep & Hcalls & Hgiven).
  split; [apply Hstep; reflexivity | split; [exact Hcalls |]].
  apply Hgiven. left. reflexivity.
Defined.
